(** * Referendum tables: a shallow embedding of [pandas_questions.py]

    The program joins three tables (referendum results, regions,
    departments), aggregates the vote counts per region and computes the
    ratio that colours the map.  Every source function is a short
    pipeline of data-frame operations; the development mirrors that
    layering:

    - cells, errors and frames;
    - the frame operations the source calls ([rename], [merge] with
      [how="left"], label selection, boolean masks, column assignment,
      [dropna], [groupby(...).agg], [reset_index], [set_index]), each
      written once, with the errors the library raises;
    - the four source functions, line by line on top of these
      operations, and the script that runs the first three one after
      the other;
    - a store of frame objects, on which the same functions are written
      again with object identities, to reason about mutation.

    Scope of the model.  A cell is missing, a text or an integer.
    Texts are strings of one-byte characters.  Integers are those of a
    64-bit column: a sum of integer cells wraps around as the sums of
    the library do, and the ratio of the map is a binary64 float.  The
    column types of the library are not represented: a column is the
    list of its cells.  In particular the check that refuses to join
    a text key with a numeric key is not modelled; the tables of the
    data model have text keys.  Nor is the storage of integers as
    floats in a column with missing cells: the department codes of
    the data model are texts, and the statements about the values of
    sums and ratios assume counts whose absolute values add up to less
    than [2^53] in a column, for which the arithmetic of the library is
    exact on floats as it is on 64-bit integers.  Frames
    carry the default integer row index unless an operation sets one,
    and the labels of that default index are not represented.

    The library behaviour that is modelled is that of pandas 2:
    [astype(str)] turns a missing cell into the text [nan],
    [str.zfill] applies Python's [str.zfill] to each text, missing
    join keys match each other, and [groupby] drops missing keys and
    sorts the others. *)

From Stdlib Require Import String Ascii List ZArith Lia Bool.
From Stdlib Require Import Sorted DecimalString Permutation.
From Stdlib Require Import Floats Uint63.
Import ListNotations.

Local Open Scope string_scope.
Local Open Scope list_scope.
Local Open Scope Z_scope.

(** ** Cells *)

Definition label := string.

(** A cell of a frame: [NA] is the missing value ([NaN]). *)
Inductive value : Type :=
| NA
| Str (s : string)
| Int (z : Z).

Definition is_na (v : value) : bool :=
  match v with NA => true | _ => false end.

Definition notna (v : value) : bool := negb (is_na v).

(** Equality of join and grouping keys.  Two missing keys are equal,
    as they are for the library's hash tables. *)
Definition value_eqb (a b : value) : bool :=
  match a, b with
  | NA, NA => true
  | Str s, Str t => String.eqb s t
  | Int x, Int y => Z.eqb x y
  | _, _ => false
  end.

(** ** Text of a cell and string helpers *)

Definition string_of_Z (z : Z) : string :=
  NilZero.string_of_int (Z.to_int z).

(** [str(v)], the conversion that [astype(str)] applies to each cell. *)
Definition text (v : value) : string :=
  match v with
  | NA => "nan"
  | Str s => s
  | Int z => string_of_Z z
  end.

Fixpoint string_repeat (c : ascii) (n : nat) : string :=
  match n with
  | O => EmptyString
  | S k => String c (string_repeat c k)
  end.

(** Substring test, the meaning of [str.contains] for a literal pattern. *)
Fixpoint contains (pat s : string) : bool :=
  String.prefix pat s ||
  match s with
  | EmptyString => false
  | String _ rest => contains pat rest
  end.

(** Python's [str.zfill]: the original string when it is already wide
    enough; otherwise zeros are inserted on the left, after a leading
    sign if there is one. *)
Definition zfill (width : nat) (s : string) : string :=
  if (width <=? String.length s)%nat then s
  else
    let fill := string_repeat "0" (width - String.length s) in
    match s with
    | String c rest =>
        if (Ascii.eqb c "+" || Ascii.eqb c "-")%bool
        then String c (String.append fill rest)
        else String.append fill s
    | EmptyString => fill
    end.

(** [ends_with suf s]: [s] ends with [suf]. *)
Fixpoint ends_with (suf s : string) : bool :=
  String.eqb suf s ||
  match s with
  | EmptyString => false
  | String _ rest => ends_with suf rest
  end.

(** A text contains the character [Z]. *)
Definition has_Z (s : string) : Prop := In "Z"%char (list_ascii_of_string s).

(** ** Errors *)

Inductive error : Type :=
| KeyError (l : label)
| ValueError
| MergeError
| AttributeError
| TypeError.

Inductive result (A : Type) : Type :=
| Ok (a : A)
| Raise (e : error).

Arguments Ok {A} a.
Arguments Raise {A} e.

Definition bind {A B : Type} (r : result A) (k : A -> result B) : result B :=
  match r with
  | Ok a => k a
  | Raise e => Raise e
  end.

Declare Scope result_scope.
Delimit Scope result_scope with result.
Notation "x <- c ;; k" := (bind c (fun x => k))
  (at level 61, c at next level, right associativity) : result_scope.
Notation "c ;;; k" := (bind c (fun _ => k))
  (at level 61, right associativity) : result_scope.
Local Open Scope result_scope.

Fixpoint mapM {A B : Type} (f : A -> result B) (l : list A) : result (list B) :=
  match l with
  | [] => Ok []
  | a :: l' => b <- f a ;; bs <- mapM f l' ;; Ok (b :: bs)
  end.

(** ** Frames *)

Record DataFrame : Type := mkDataFrame {
  columns : list label;
  rows : list (list value)
}.

(** A frame is a rectangle: every row has one cell per column. *)
Definition rectangular (df : DataFrame) : Prop :=
  Forall (fun r => length r = length (columns df)) (rows df).

(** The frames of the data model have pairwise distinct labels. *)
Definition well_formed (df : DataFrame) : Prop :=
  NoDup (columns df) /\ rectangular df.

Definition Series := list value.

(** *** Looking labels up *)

Definition has_label (l : label) (cols : list label) : bool :=
  existsb (String.eqb l) cols.

Definition count (l : label) (cols : list label) : nat :=
  length (filter (String.eqb l) cols).

(** The cells of a row that sit under label [l]. *)
Definition cells (l : label) (cols : list label) (row : list value) : list value :=
  map snd (filter (fun p => String.eqb l (fst p)) (combine cols row)).

Definition cell (l : label) (cols : list label) (row : list value) : value :=
  hd NA (cells l cols row).

(** The cells of a row that do not sit under label [l]. *)
Definition drop_cells (l : label) (cols : list label) (row : list value) : list value :=
  map snd (filter (fun p => negb (String.eqb l (fst p))) (combine cols row)).

Definition drop_label (l : label) (cols : list label) : list label :=
  filter (fun c => negb (String.eqb l c)) cols.

(** A label that must name exactly one column. *)
Definition require_one (l : label) (cols : list label) (dup : error) : result unit :=
  match count l cols with
  | O => Raise (KeyError l)
  | S O => Ok tt
  | _ => Raise dup
  end.

(** ** Frame operations *)

(** [df.rename(columns=mapping)]: labels found in the mapping are
    replaced, the others are kept; nothing is checked. *)
Fixpoint lookup_label (c : label) (mapping : list (label * label)) : option label :=
  match mapping with
  | [] => None
  | (k, v) :: m => if String.eqb c k then Some v else lookup_label c m
  end.

Definition rename_label (mapping : list (label * label)) (c : label) : label :=
  match lookup_label c mapping with
  | Some c' => c'
  | None => c
  end.

Definition rename (df : DataFrame) (mapping : list (label * label)) : DataFrame :=
  {| columns := map (rename_label mapping) (columns df);
     rows := rows df |}.

(** [df[l]] for one label.  A label that is absent raises [KeyError].
    A repeated label yields a frame instead of a series; what the
    program does next with it (the string accessor) raises
    [AttributeError], which the model raises here. *)
Definition getitem (df : DataFrame) (l : label) : result Series :=
  require_one l (columns df) AttributeError ;;;
  Ok (map (cell l (columns df)) (rows df)).

(** [df[[l1; ...; ln]]]: the columns named, in the order asked. *)
Definition getitem_list (df : DataFrame) (labels : list label) : result DataFrame :=
  match find (fun l => negb (has_label l (columns df))) labels with
  | Some l => Raise (KeyError l)
  | None =>
      Ok {| columns := flat_map (fun l => filter (String.eqb l) (columns df)) labels;
            rows := map (fun r => flat_map (fun l => cells l (columns df) r) labels)
                        (rows df) |}
  end.

(** [series.astype(str)] *)
Definition astype_str (s : Series) : Series :=
  map (fun v => Str (text v)) s.

(** [series.str.contains(pat, na=na)] for a literal pattern: cells that
    are not text take the value [na]. *)
Definition str_contains (pat : string) (na : bool) (s : Series) : list bool :=
  map (fun v => match v with Str t => contains pat t | _ => na end) s.

(** [series.str.zfill(width)]: cells that are not text become missing. *)
Definition str_zfill (width : nat) (s : Series) : Series :=
  map (fun v => match v with Str t => Str (zfill width t) | _ => NA end) s.

(** [~mask] *)
Definition invert (mask : list bool) : list bool := map negb mask.

(** [df[mask]] for a boolean mask: the rows where the mask holds. *)
Definition getitem_mask (df : DataFrame) (mask : list bool) : result DataFrame :=
  if (length mask =? length (rows df))%nat
  then Ok {| columns := columns df;
             rows := map fst (filter snd (combine (rows df) mask)) |}
  else Raise ValueError.

(** [df[l] = series]: every column named [l] is overwritten; when
    there is none, a new last column is added. *)
Definition set_cells (l : label) (v : value) (cols : list label) (row : list value)
  : list value :=
  map (fun p => if String.eqb l (fst p) then v else snd p) (combine cols row).

Definition setitem (df : DataFrame) (l : label) (s : Series) : result DataFrame :=
  if (length s =? length (rows df))%nat
  then
    if has_label l (columns df)
    then Ok {| columns := columns df;
               rows := map (fun p => set_cells l (snd p) (columns df) (fst p))
                           (combine (rows df) s) |}
    else Ok {| columns := columns df ++ [l];
               rows := map (fun p => fst p ++ [snd p]) (combine (rows df) s) |}
  else Raise ValueError.

(** [df.dropna()]: the rows without a missing cell. *)
Definition dropna (df : DataFrame) : DataFrame :=
  {| columns := columns df;
     rows := filter (forallb notna) (rows df) |}.

(** *** Left join *)

(** [duplicated seen l]: for each label of [l], whether it occurred
    earlier (in [seen] or to its left). *)
Fixpoint duplicated (seen l : list label) : list bool :=
  match l with
  | [] => []
  | x :: xs => has_label x seen :: duplicated (x :: seen) xs
  end.

(** Repeated labels that the suffixes created: repeated after the
    renaming, and not before. *)
Definition suffix_dups (orig renamed : list label) : bool :=
  existsb (fun p => (snd p && negb (fst p))%bool)
          (combine (duplicated [] orig) (duplicated [] renamed)).

Definition add_suffix (overlap : list label) (suffix : string) (c : label) : label :=
  if has_label c overlap then String.append c suffix else c.

(** The rows of the right frame whose key equals the key of [l]. *)
Definition matches (on : label) (lcols rcols : list label)
           (right_rows : list (list value)) (l : list value) : list (list value) :=
  filter (fun r => value_eqb (cell on lcols l) (cell on rcols r)) right_rows.

(** One left row joined: once per matching right row, in the order of
    the right frame, or once with missing cells when nothing matches. *)
Definition join_row (on : label) (lcols rcols : list label)
           (right_rows : list (list value)) (l : list value) : list (list value) :=
  match matches on lcols rcols right_rows l with
  | [] => [l ++ repeat NA (length (drop_label on rcols))]
  | ms => map (fun r => l ++ drop_cells on rcols r) ms
  end.

(** The labels other than the key that both sides carry. *)
Definition overlap (on : label) (lcols rcols : list label) : list label :=
  filter (fun c => has_label c (drop_label on rcols)) lcols.

Definition left_labels (on : label) (lcols rcols : list label) : list label :=
  map (add_suffix (overlap on lcols rcols) "_x") lcols.

Definition right_labels (on : label) (lcols rcols : list label) : list label :=
  map (add_suffix (overlap on lcols rcols) "_y") (drop_label on rcols).

(** [left.merge(right, on=on, how="left")].  The key must name one
    column on each side.  Labels other than the key that both sides
    carry get the suffixes [_x] and [_y]; a repetition created by a
    suffix raises [MergeError].  The rows follow the left frame. *)
Definition merge_left (left right : DataFrame) (on : label) : result DataFrame :=
  require_one on (columns right) ValueError ;;;
  require_one on (columns left) ValueError ;;;
  let llabels := left_labels on (columns left) (columns right) in
  let rlabels := right_labels on (columns left) (columns right) in
  if (suffix_dups (columns left) llabels
      || suffix_dups (drop_label on (columns right)) rlabels)%bool
  then Raise MergeError
  else Ok {| columns := llabels ++ rlabels;
             rows := flat_map (join_row on (columns left) (columns right) (rows right))
                              (rows left) |}.

(** *** Grouping *)

(** Order of the group keys: integers before texts, integers by
    value, texts by code point; a missing key never forms a group. *)
Definition value_compare (a b : value) : comparison :=
  match a, b with
  | Int x, Int y => Z.compare x y
  | Int _, _ => Lt
  | Str _, Int _ => Gt
  | Str s, Str t => String.compare s t
  | Str _, NA => Lt
  | NA, NA => Eq
  | NA, _ => Gt
  end.

Definition value_lt (a b : value) : Prop := value_compare a b = Lt.

Fixpoint insert_key (k : value) (l : list value) : list value :=
  match l with
  | [] => [k]
  | x :: l' =>
      match value_compare k x with
      | Lt => k :: x :: l'
      | Eq => x :: l'
      | Gt => x :: insert_key k l'
      end
  end.

(** The distinct keys in ascending order. *)
Definition sort_unique (l : list value) : list value :=
  fold_right insert_key [] l.

Inductive aggfunc : Type := First | Sum.

(** ["first"]: the first cell of the group that is not missing. *)
Definition agg_first (s : Series) : value := hd NA (filter notna s).

(** The integer that 64 bits hold, in two's complement. *)
Definition int64 (z : Z) : Z := (z + 2 ^ 63) mod 2 ^ 64 - 2 ^ 63.

(** One addition of a sum: integers are added on 64 bits and wrap
    around silently. *)
Definition add_value (acc v : value) : result value :=
  match acc, v with
  | Int x, Int y => Ok (Int (int64 (x + y)))
  | Str s, Str t => Ok (Str (String.append s t))
  | _, _ => Raise TypeError
  end.

Fixpoint add_values (acc : value) (s : Series) : result value :=
  match s with
  | [] => Ok acc
  | v :: s' => acc' <- add_value acc v ;; add_values acc' s'
  end.

(** ["sum"]: missing cells are skipped; a group with nothing left sums
    to zero; integers are added on 64 bits; texts are concatenated;
    mixing both is a [TypeError]. *)
Definition agg_sum (s : Series) : result value :=
  match filter notna s with
  | [] => Ok (Int 0)
  | v :: s' => add_values v s'
  end.

Definition aggregate (f : aggfunc) (s : Series) : result value :=
  match f with
  | First => Ok (agg_first s)
  | Sum => agg_sum s
  end.

(** A frame whose row index was set from a column. *)
Record IndexedFrame : Type := mkIndexedFrame {
  index_name : label;
  index : list value;
  body : DataFrame
}.

Definition group_of (key : label) (df : DataFrame) (k : value) : list (list value) :=
  filter (fun r => value_eqb (cell key (columns df) r) k) (rows df).

Definition group_keys (key : label) (df : DataFrame) : list value :=
  sort_unique (filter notna (map (cell key (columns df)) (rows df))).

Definition agg_row (df : DataFrame) (spec : list (label * aggfunc))
           (group : list (list value)) : result (list value) :=
  mapM (fun p => aggregate (snd p) (map (cell (fst p) (columns df)) group)) spec.

(** [df.groupby(key).agg(spec)]: one row per distinct key that is not
    missing, keys sorted, the result indexed by the key. *)
Definition groupby_agg (df : DataFrame) (key : label) (spec : list (label * aggfunc))
  : result IndexedFrame :=
  require_one key (columns df) ValueError ;;;
  mapM (fun p => require_one (fst p) (columns df) ValueError) spec ;;;
  let keys := group_keys key df in
  rs <- mapM (fun k => agg_row df spec (group_of key df k)) keys ;;
  Ok {| index_name := key;
        index := keys;
        body := {| columns := map fst spec; rows := rs |} |}.

(** [frame.reset_index()]: the index becomes the first column. *)
Definition reset_index (f : IndexedFrame) : result DataFrame :=
  if has_label (index_name f) (columns (body f))
  then Raise ValueError
  else Ok {| columns := index_name f :: columns (body f);
             rows := map (fun p => fst p :: snd p) (combine (index f) (rows (body f))) |}.

(** [df.set_index(l)]: column [l] becomes the index and leaves the columns. *)
Definition set_index (df : DataFrame) (l : label) : result IndexedFrame :=
  require_one l (columns df) ValueError ;;;
  Ok {| index_name := l;
        index := map (cell l (columns df)) (rows df);
        body := {| columns := drop_label l (columns df);
                   rows := map (drop_cells l (columns df)) (rows df) |} |}.

(** ** The source functions *)

(** [merge_regions_and_departments(regions, departments)] *)
Definition merge_regions_and_departments (regions departments : DataFrame)
  : result DataFrame :=
  let regions_renamed :=
    rename regions [("code", "code_reg"); ("name", "name_reg")] in
  let departments_renamed :=
    rename departments
           [("region_code", "code_reg"); ("code", "code_dep"); ("name", "name_dep")] in
  result <- merge_left departments_renamed regions_renamed "code_reg" ;;
  getitem_list result ["code_reg"; "name_reg"; "code_dep"; "name_dep"].

(** First statement of [merge_referendum_and_areas]: the rows whose
    department code, as text, does not contain [Z].  ([.copy()] is the
    identity on frame values; the store below tells objects apart.) *)
Definition referendum_filtered (referendum : DataFrame) : result DataFrame :=
  col <- getitem referendum "Department code" ;;
  getitem_mask referendum (invert (str_contains "Z" false (astype_str col))).

(** Second statement: the column [code_dep]. *)
Definition with_code_dep (filtered : DataFrame) : result DataFrame :=
  col <- getitem filtered "Department code" ;;
  setitem filtered "code_dep" (str_zfill 2 (astype_str col)).

(** [merge_referendum_and_areas(referendum, regions_and_departments)] *)
Definition merge_referendum_and_areas (referendum regions_and_departments : DataFrame)
  : result DataFrame :=
  filtered <- referendum_filtered referendum ;;
  filtered <- with_code_dep filtered ;;
  result <- merge_left filtered regions_and_departments "code_dep" ;;
  Ok (dropna result).

Definition region_agg : list (label * aggfunc) :=
  [("name_reg", First); ("Registered", Sum); ("Abstentions", Sum);
   ("Null", Sum); ("Choice A", Sum); ("Choice B", Sum)].

(** [compute_referendum_result_by_regions(referendum_and_areas)] *)
Definition compute_referendum_result_by_regions (referendum_and_areas : DataFrame)
  : result IndexedFrame :=
  grouped <- groupby_agg referendum_and_areas "code_reg" region_agg ;;
  flat <- reset_index grouped ;;
  set_index flat "code_reg".

(** ** The ratio of the map *)

(** An integer read as a binary64 float: the float nearest to it,
    ties to even. *)
Definition float_of_Z (z : Z) : float :=
  SF2Prim (binary_normalize prec emax z 0 false).

(** [a + b] on two cells: integers are added on 64 bits; a missing
    operand gives a missing sum. *)
Definition add_cells (a b : value) : result value :=
  match a, b with
  | Int x, Int y => Ok (Int (int64 (x + y)))
  | NA, NA | NA, Int _ | Int _, NA => Ok NA
  | Str s, Str t => Ok (Str (String.append s t))
  | _, _ => Raise TypeError
  end.

(** [a / b] on two cells, the true division of the library: the
    operands are read as floats and divided as floats, so that a zero
    divisor raises nothing; a missing operand gives [nan]. *)
Definition div_cells (a b : value) : result float :=
  match a, b with
  | Int x, Int y => Ok (PrimFloat.div (float_of_Z x) (float_of_Z y))
  | NA, NA | NA, Int _ | Int _, NA => Ok PrimFloat.nan
  | _, _ => Raise TypeError
  end.

(** [a / (a + b)] on the two cells of one row. *)
Definition ratio_cell (a b : value) : result float :=
  s <- add_cells a b ;; div_cells a s.

Definition series_add (a b : Series) : result Series :=
  mapM (fun p => add_cells (fst p) (snd p)) (combine a b).

Definition series_div (a b : Series) : result (list float) :=
  mapM (fun p => div_cells (fst p) (snd p)) (combine a b).

(** The statement
    [gdf["ratio"] = gdf["Choice A"] / (gdf["Choice A"] + gdf["Choice B"])]:
    the values of the new column. *)
Definition ratio_column (gdf : DataFrame) : result (list float) :=
  a <- getitem gdf "Choice A" ;;
  b <- getitem gdf "Choice B" ;;
  s <- series_add a b ;;
  series_div a s.

(** The merged geographic table, as it is before the assignment,
    together with the float column [ratio] that the assignment adds. *)
Record RatioFrame : Type := mkRatioFrame {
  frame : DataFrame;
  ratio : list float
}.

(** [plot_referendum_map(referendum_result_by_regions)].  The shapes
    read from the file are an argument; drawing the figure changes no
    table and is left out. *)
Definition plot_referendum_map (shapes : DataFrame)
           (referendum_result_by_regions : IndexedFrame) : result RatioFrame :=
  let gdf := rename shapes [("code", "code_reg")] in
  referendum_df <- reset_index referendum_result_by_regions ;;
  gdf <- merge_left gdf referendum_df "code_reg" ;;
  ratio <- ratio_column gdf ;;
  Ok {| frame := gdf; ratio := ratio |}.

(** ** The script *)

(** The statements run under [__main__], from the three tables that
    [load_data] returns to the table that is printed. *)
Definition referendum_results (referendum df_reg df_dep : DataFrame)
  : result IndexedFrame :=
  regions_and_departments <- merge_regions_and_departments df_reg df_dep ;;
  referendum_and_areas <- merge_referendum_and_areas referendum regions_and_departments ;;
  compute_referendum_result_by_regions referendum_and_areas.

(** ** Frames as objects in a store *)

(** The source functions once more, with the frames as objects of a
    store that are named by references.  Every library call returns a
    new object; only the assignment of a column writes into an
    existing one.  A run returns its result (or the exception raised)
    together with the store it leaves. *)
Module Store.

Inductive object : Type :=
| Frame (df : DataFrame)
| Indexed (f : IndexedFrame).

Definition ref := nat.
Definition store := list object.

Definition M (A : Type) : Type := store -> result A * store.

Definition ret {A : Type} (a : A) : M A := fun s => (Ok a, s).

Definition bind {A B : Type} (m : M A) (k : A -> M B) : M B :=
  fun s =>
    match m s with
    | (Ok a, s') => k a s'
    | (Raise e, s') => (Raise e, s')
    end.

(** A computation on values, which leaves the store alone. *)
Definition lift {A : Type} (x : result A) : M A := fun s => (x, s).

(** A new object; its reference is the next free one. *)
Definition new (o : object) : M ref := fun s => (Ok (length s), s ++ [o]).

Definition load (r : ref) : M DataFrame :=
  fun s =>
    match nth_error s r with
    | Some (Frame df) => (Ok df, s)
    | _ => (Raise TypeError, s)
    end.

Definition load_indexed (r : ref) : M IndexedFrame :=
  fun s =>
    match nth_error s r with
    | Some (Indexed f) => (Ok f, s)
    | _ => (Raise TypeError, s)
    end.

Fixpoint update (r : ref) (o : object) (s : store) : store :=
  match s, r with
  | [], _ => []
  | _ :: t, O => o :: t
  | x :: t, S k => x :: update k o t
  end.

(** Writing into an existing object. *)
Definition assign (r : ref) (df : DataFrame) : M unit :=
  fun s => (Ok tt, update r (Frame df) s).

Declare Scope store_scope.
Delimit Scope store_scope with store.
Notation "x <- c ;; k" := (bind c (fun x => k))
  (at level 61, c at next level, right associativity) : store_scope.
Notation "c ;;; k" := (bind c (fun _ => k))
  (at level 61, right associativity) : store_scope.
Local Open Scope store_scope.

Definition rename (r : ref) (mapping : list (label * label)) : M ref :=
  df <- load r ;; new (Frame (rename df mapping)).

Definition getitem (r : ref) (l : label) : M Series :=
  df <- load r ;; lift (getitem df l).

Definition getitem_list (r : ref) (labels : list label) : M ref :=
  df <- load r ;; out <- lift (getitem_list df labels) ;; new (Frame out).

Definition getitem_mask (r : ref) (mask : list bool) : M ref :=
  df <- load r ;; out <- lift (getitem_mask df mask) ;; new (Frame out).

Definition copy (r : ref) : M ref :=
  df <- load r ;; new (Frame df).

(** [df[l] = series] writes into the object [df] itself. *)
Definition setitem (r : ref) (l : label) (s : Series) : M unit :=
  df <- load r ;; out <- lift (setitem df l s) ;; assign r out.

Definition merge (left right : ref) (on : label) : M ref :=
  l <- load left ;; r <- load right ;;
  out <- lift (merge_left l r on) ;; new (Frame out).

Definition dropna (r : ref) : M ref :=
  df <- load r ;; new (Frame (dropna df)).

Definition groupby_agg (r : ref) (key : label) (spec : list (label * aggfunc)) : M ref :=
  df <- load r ;; out <- lift (groupby_agg df key spec) ;; new (Indexed out).

Definition reset_index (r : ref) : M ref :=
  f <- load_indexed r ;; out <- lift (reset_index f) ;; new (Frame out).

Definition set_index (r : ref) (l : label) : M ref :=
  df <- load r ;; out <- lift (set_index df l) ;; new (Indexed out).

Definition merge_regions_and_departments (regions departments : ref) : M ref :=
  regions_renamed <- rename regions [("code", "code_reg"); ("name", "name_reg")] ;;
  departments_renamed <-
    rename departments
           [("region_code", "code_reg"); ("code", "code_dep"); ("name", "name_dep")] ;;
  result <- merge departments_renamed regions_renamed "code_reg" ;;
  result <- getitem_list result ["code_reg"; "name_reg"; "code_dep"; "name_dep"] ;;
  ret result.

Definition merge_referendum_and_areas (referendum regions_and_departments : ref)
  : M ref :=
  col <- getitem referendum "Department code" ;;
  selected <- getitem_mask referendum
                (invert (str_contains "Z" false (astype_str col))) ;;
  referendum_filtered <- copy selected ;;
  col <- getitem referendum_filtered "Department code" ;;
  setitem referendum_filtered "code_dep" (str_zfill 2 (astype_str col)) ;;;
  result <- merge referendum_filtered regions_and_departments "code_dep" ;;
  result <- dropna result ;;
  ret result.

Definition compute_referendum_result_by_regions (referendum_and_areas : ref) : M ref :=
  grouped <- groupby_agg referendum_and_areas "code_reg" region_agg ;;
  flat <- reset_index grouped ;;
  result <- set_index flat "code_reg" ;;
  ret result.

End Store.

(** The script on objects: each step receives the references that the
    steps before it returned. *)
Definition referendum_results_run (referendum df_reg df_dep : Store.ref)
  : Store.M Store.ref :=
  Store.bind (Store.merge_regions_and_departments df_reg df_dep)
    (fun regions_and_departments =>
       Store.bind (Store.merge_referendum_and_areas referendum regions_and_departments)
         (fun referendum_and_areas =>
            Store.compute_referendum_result_by_regions referendum_and_areas)).

(** * Reading the functions row by row

    What the statements of the properties speak about: the rows that
    each row of an input table gives rise to, the tables of the data
    model, and what it means for a run in the store to agree with a
    function on values. *)

(** ** [merge_referendum_and_areas] *)

(** The test the mask applies to a row of the referendum table. *)
Definition keeps (cols : list label) (r : list value) : bool :=
  negb (contains "Z" (text (cell "Department code" cols r))).

(** The cell stored under [code_dep] for a row. *)
Definition code_dep_of (cols : list label) (r : list value) : value :=
  Str (zfill 2 (text (cell "Department code" cols r))).

Definition derived_columns (cols : list label) : list label :=
  if has_label "code_dep" cols then cols else cols ++ ["code_dep"].

Definition derive_row (cols : list label) (r : list value) : list value :=
  if has_label "code_dep" cols
  then set_cells "code_dep" (code_dep_of cols r) cols r
  else r ++ [code_dep_of cols r].

(** The rows that one referendum row contributes to the joined table:
    its derived row joined to the areas, with the rows that hold a
    missing cell dropped. *)
Definition joined_block (cols : list label) (areas : DataFrame) (r0 : list value)
  : list (list value) :=
  filter (forallb notna)
         (join_row "code_dep" (derived_columns cols) (columns areas) (rows areas)
                   (derive_row cols r0)).

(** Plain left padding of a text with a character up to a width. *)
Definition pad_left (c : ascii) (width : nat) (s : string) : string :=
  String.append (string_repeat c (width - String.length s)) s.

(** A text that is a sign and nothing else. *)
Definition lone_sign (s : string) : bool :=
  (String.eqb s "+" || String.eqb s "-")%bool.

(** The area table that joins a joined table to itself: the single
    column [code_dep], holding each department code of the table once. *)
Definition identity_areas (out : DataFrame) : DataFrame :=
  {| columns := ["code_dep"];
     rows := map (fun k => [k])
                 (sort_unique (map (cell "code_dep" (columns out)) (rows out))) |}.

(** Whether a referendum row contributes a row to the joined table. *)
Definition contributes (cols : list label) (areas : DataFrame) (r0 : list value) : bool :=
  match joined_block cols areas r0 with
  | [] => false
  | _ :: _ => true
  end.

(** The referendum rows that reach the joined table: those that pass
    the filter on [Z] and contribute a row. *)
Definition counted (cols : list label) (areas : DataFrame) (r0 : list value) : bool :=
  (keeps cols r0 && contributes cols areas r0)%bool.

(** ** [merge_regions_and_departments] *)

Definition ren_r : label -> label :=
  rename_label [("code", "code_reg"); ("name", "name_reg")].

Definition ren_d : label -> label :=
  rename_label [("region_code", "code_reg"); ("code", "code_dep"); ("name", "name_dep")].

(** Labels that the program introduces itself. *)
Definition derived_label (c : label) : bool :=
  has_label c ["code_reg"; "name_reg"; "code_dep"; "name_dep"].

(** Labels that end with one of the suffixes of a join. *)
Definition suffixed (c : label) : bool :=
  (ends_with "_x" c || ends_with "_y" c)%bool.

(** A label of an input table: neither introduced by the program nor
    ending with a join suffix. *)
Definition input_label (c : label) : Prop :=
  derived_label c = false /\ suffixed c = false.

(** Column [l] holds texts only, as the codes of the data model do. *)
Definition text_column (l : label) (df : DataFrame) : Prop :=
  forall r, In r (rows df) -> exists s, cell l (columns df) r = Str s.

(** The Region and Department tables of the data model, with the
    labels they have in the files; further columns are allowed.  The
    two columns that the join compares hold texts. *)
Definition region_table (df : DataFrame) : Prop :=
  well_formed df /\ In "code" (columns df) /\ In "name" (columns df) /\
  Forall input_label (columns df) /\ text_column "code" df.

Definition department_table (df : DataFrame) : Prop :=
  well_formed df /\ In "region_code" (columns df) /\ In "code" (columns df) /\
  In "name" (columns df) /\ Forall input_label (columns df) /\
  text_column "region_code" df.

(** The output row for department row [d] and a region name. *)
Definition area_row (dcols : list label) (d : list value) (name_reg : value)
  : list value :=
  [cell "region_code" dcols d; name_reg; cell "code" dcols d; cell "name" dcols d].

(** The region rows whose code is the region code of department row [d]. *)
Definition region_matches (regions : DataFrame) (dcols : list label) (d : list value)
  : list (list value) :=
  filter (fun a => value_eqb (cell "region_code" dcols d)
                             (cell "code" (columns regions) a))
         (rows regions).

(** The output rows that department row [d] gives rise to. *)
Definition area_block (regions : DataFrame) (dcols : list label) (d : list value)
  : list (list value) :=
  match region_matches regions dcols d with
  | [] => [area_row dcols d NA]
  | ms => map (fun a => area_row dcols d (cell "name" (columns regions) a)) ms
  end.

Definition area_columns : list label :=
  ["code_reg"; "name_reg"; "code_dep"; "name_dep"].

(** The name of the first region whose code matches, missing if none. *)
Definition region_name (regions : DataFrame) (dcols : list label) (d : list value)
  : value :=
  match region_matches regions dcols d with
  | [] => NA
  | a :: _ => cell "name" (columns regions) a
  end.

(** ** [compute_referendum_result_by_regions] *)

Definition count_labels : list label :=
  ["Registered"; "Abstentions"; "Null"; "Choice A"; "Choice B"].

(** The integer a numeric cell holds. *)
Definition int_of (v : value) : Z :=
  match v with Int z => z | _ => 0 end.

(** The arithmetic sum of column [l] over the rows [rs]. *)
Definition column_total (l : label) (cols : list label) (rs : list (list value)) : Z :=
  fold_right Z.add 0 (map (fun r => int_of (cell l cols r)) rs).

(** The sum of the absolute values of column [l] over the rows [rs]. *)
Definition column_abs_total (l : label) (cols : list label) (rs : list (list value)) : Z :=
  fold_right Z.add 0 (map (fun r => Z.abs (int_of (cell l cols r))) rs).

(** Counts for which the sums of the library are the arithmetic sums
    whatever the type of the column: the absolute values of each count
    column add up to less than [2^53], so that no sum leaves the 64-bit
    integers and, in a column stored as floats, every count and every
    partial sum is held exactly. *)
Definition small_counts (df : DataFrame) : Prop :=
  forall l, In l count_labels ->
            column_abs_total l (columns df) (rows df) < 2 ^ 53.

(** The same for the sum of the two choices, by which the ratio
    divides. *)
Definition small_votes (df : DataFrame) : Prop :=
  column_abs_total "Choice A" (columns df) (rows df)
  + column_abs_total "Choice B" (columns df) (rows df) < 2 ^ 53.

(** What a sum of integers returns: 64-bit additions from the first
    integer on. *)
Definition sum_int64 (zs : list Z) : Z :=
  match zs with
  | [] => 0
  | z :: zs' => fold_left (fun a y => int64 (a + y)) zs' z
  end.

(** The integers of column [l] in the rows [g], missing cells skipped. *)
Definition counts_of (l : label) (cols : list label) (g : list (list value)) : list Z :=
  map int_of (filter notna (map (cell l cols) g)).

(** The output row of the region with code [k], whatever the counts:
    the first region name of the group that is not missing, then the
    five 64-bit sums over the group. *)
Definition region_row_int64 (df : DataFrame) (k : value) : list value :=
  let g := group_of "code_reg" df k in
  agg_first (map (cell "name_reg" (columns df)) g)
  :: map (fun l => Int (sum_int64 (counts_of l (columns df) g))) count_labels.

(** The output row of the region with code [k]: the region name of
    the first row of the group, then the five sums over the group. *)
Definition region_row (df : DataFrame) (k : value) : list value :=
  let g := group_of "code_reg" df k in
  cell "name_reg" (columns df) (hd [] g)
  :: map (fun l => Int (column_total l (columns df) g)) count_labels.

(** The tables that [merge_referendum_and_areas] hands over: distinct
    labels, the region and count columns present, no missing cell,
    integer counts. *)
Definition referendum_area_table (df : DataFrame) : Prop :=
  well_formed df /\
  (forall l, In l ("code_reg" :: "name_reg" :: count_labels) -> In l (columns df)) /\
  (forall r, In r (rows df) -> forall v, In v r -> v <> NA) /\
  (forall r l, In r (rows df) -> In l count_labels ->
               exists z, cell l (columns df) r = Int z).

(** The rows that belong to a region. *)
Definition has_region (df : DataFrame) (r : list value) : bool :=
  notna (cell "code_reg" (columns df) r).

(** ** [plot_referendum_map] *)

(** A numeric cell: an integer or a missing value. *)
Definition numeric (v : value) : Prop :=
  v = NA \/ exists z, v = Int z.

(** A cell of a text column: a text or a missing value. *)
Definition textual (v : value) : Prop :=
  v = NA \/ exists s, v = Str s.

(** ** Tables with missing cells *)

(** The tables the aggregation accepts when cells are missing:
    distinct labels, the region and count columns present, and counts
    that are integers or missing. *)
Definition region_count_table (df : DataFrame) : Prop :=
  NoDup (columns df) /\
  (forall l, In l ("code_reg" :: "name_reg" :: count_labels) -> In l (columns df)) /\
  (forall r l, In r (rows df) -> In l count_labels -> numeric (cell l (columns df) r)).

(** The output row of the region with code [k] on such a table: the
    first region name of the group that is not missing, then the five
    sums over the group, a missing count adding nothing. *)
Definition region_row_skipna (df : DataFrame) (k : value) : list value :=
  let g := group_of "code_reg" df k in
  agg_first (map (cell "name_reg" (columns df)) g)
  :: map (fun l => Int (column_total l (columns df) g)) count_labels.

(** ** The tables of the script and of the map *)

(** The referendum table of the data model: distinct input labels,
    among them [Department code], whose cells are texts or missing,
    and the five count columns, whose cells are integers or missing. *)
Definition referendum_table (df : DataFrame) : Prop :=
  well_formed df /\ In "Department code" (columns df) /\
  (forall l, In l count_labels -> In l (columns df)) /\
  Forall input_label (columns df) /\
  (forall r l, In r (rows df) -> In l count_labels -> numeric (cell l (columns df) r)) /\
  (forall r, In r (rows df) -> textual (cell "Department code" (columns df) r)).

(** The table of shapes read from the file: distinct labels, among
    them the text column [code], and none of them a label of the
    result table. *)
Definition shape_table (shapes : DataFrame) : Prop :=
  well_formed shapes /\ In "code" (columns shapes) /\ text_column "code" shapes /\
  (forall c, In c (columns shapes) -> ~ In c ("code_reg" :: "name_reg" :: count_labels)).

(** Float [f] holds the integer [z] exactly; zero is the positive
    zero.  (Read off the sign, the mantissa and the exponent of [f];
    integers below [2^53] in absolute value have an exponent that is
    not positive.) *)
Definition float_is (f : float) (z : Z) : bool :=
  match Prim2SF f with
  | S754_zero s => negb s && (z =? 0)
  | S754_finite s m e => (e <=? 0) && (cond_Zopp s (Zpos m) =? z * 2 ^ (- e))
  | _ => false
  end.

(** [q] is the binary64 quotient of the integers [a] and [b]: the
    division of the library applied to the floats that hold them. *)
Definition float_quotient (a b : Z) (q : float) : Prop :=
  exists fa fb, float_is fa a = true /\ float_is fb b = true /\
                q = PrimFloat.div fa fb.

(** [q] is the ratio of the region with code [k]: its votes for
    choice A over its votes for either choice. *)
Definition region_ratio (df : DataFrame) (k : value) (q : float) : Prop :=
  let g := group_of "code_reg" df k in
  let a := column_total "Choice A" (columns df) g in
  let b := column_total "Choice B" (columns df) g in
  float_quotient a (a + b) q.

(** ** Runs in the store *)

(** The outcome of a function on values, as an object. *)
Definition frame_result (x : result DataFrame) : result Store.object :=
  match x with
  | Ok df => Ok (Store.Frame df)
  | Raise e => Raise e
  end.

Definition indexed_result (x : result IndexedFrame) : result Store.object :=
  match x with
  | Ok f => Ok (Store.Indexed f)
  | Raise e => Raise e
  end.

(** [agrees s x run]: the run started in store [s] left every object
    of [s] as it was and only added new objects after them; it raised
    the exception of [x], or returned a reference to one of the new
    objects, which holds the table of [x]. *)
Definition agrees (s : Store.store) (x : result Store.object)
           (run : result Store.ref * Store.store) : Prop :=
  exists r ext,
    run = (r, s ++ ext) /\
    match x with
    | Ok o => exists n, r = Ok n /\ (length s <= n)%nat /\
                        nth_error (s ++ ext) n = Some o
    | Raise e => r = Raise e
    end.

(** * Sample tables *)

Definition sample_regions : DataFrame :=
  {| columns := ["code"; "name"];
     rows := [[Str "84"; Str "Auvergne-Rhone-Alpes"];
              [Str "11"; Str "Ile-de-France"]] |}.

Definition sample_departments : DataFrame :=
  {| columns := ["region_code"; "code"; "name"];
     rows := [[Str "84"; Str "01"; Str "Ain"];
              [Str "99"; Str "02"; Str "Aisne"];
              [Str "11"; Str "75"; Str "Paris"]] |}.

Definition sample_areas : DataFrame :=
  {| columns := ["code_reg"; "name_reg"; "code_dep"; "name_dep"];
     rows := [[Str "84"; Str "Auvergne-Rhone-Alpes"; Str "01"; Str "Ain"];
              [Str "99"; NA; Str "02"; Str "Aisne"];
              [Str "11"; Str "Ile-de-France"; Str "75"; Str "Paris"]] |}.

Definition sample_referendum : DataFrame :=
  {| columns := ["Department code"; "Registered"; "Abstentions"; "Null";
                 "Choice A"; "Choice B"];
     rows := [[Str "1"; Int 100; Int 10; Int 1; Int 40; Int 49];
              [Str "ZA"; Int 50; Int 5; Int 1; Int 20; Int 24];
              [NA; Int 30; Int 3; Int 1; Int 10; Int 16];
              [Str "75"; Int 200; Int 20; Int 2; Int 90; Int 88];
              [Str "1"; Int 300; Int 30; Int 3; Int 140; Int 127];
              [Str "2"; Int 60; Int 6; Int 1; Int 30; Int 23];
              [Str "3"; Int 70; Int 7; Int 1; Int 30; Int 32];
              [Str "75"; Int 80; NA; Int 1; Int 40; Int 31]] |}.

Definition sample_joined : DataFrame :=
  {| columns := ["Department code"; "Registered"; "Abstentions"; "Null";
                 "Choice A"; "Choice B"; "code_dep";
                 "code_reg"; "name_reg"; "name_dep"];
     rows := [[Str "1"; Int 100; Int 10; Int 1; Int 40; Int 49; Str "01";
               Str "84"; Str "Auvergne-Rhone-Alpes"; Str "Ain"];
              [Str "75"; Int 200; Int 20; Int 2; Int 90; Int 88; Str "75";
               Str "11"; Str "Ile-de-France"; Str "Paris"];
              [Str "1"; Int 300; Int 30; Int 3; Int 140; Int 127; Str "01";
               Str "84"; Str "Auvergne-Rhone-Alpes"; Str "Ain"]] |}.

(** A referendum table whose only row has no department code. *)
Definition missing_code_table : DataFrame :=
  {| columns := ["Department code"; "Registered"];
     rows := [[NA; Int 30]] |}.

(** A filtered referendum table whose department code is a lone sign,
    and the table the second statement derives from it. *)
Definition sign_table : DataFrame :=
  {| columns := ["Department code"; "Registered"];
     rows := [[Str "-"; Int 30]] |}.

Definition sign_table_derived : DataFrame :=
  {| columns := ["Department code"; "Registered"; "code_dep"];
     rows := [[Str "-"; Int 30; Str "-0"]] |}.

Definition sample_filtered : DataFrame :=
  {| columns := ["Department code"; "Registered"];
     rows := [[Str "1"; Int 100]; [NA; Int 30]; [Int 7; Int 20];
              [Str "75"; Int 200]; [Str "2A"; Int 50]; [Str "+"; Int 1]] |}.

Definition sample_derived : DataFrame :=
  {| columns := ["Department code"; "Registered"; "code_dep"];
     rows := [[Str "1"; Int 100; Str "01"]; [NA; Int 30; Str "nan"];
              [Int 7; Int 20; Str "07"];
              [Str "75"; Int 200; Str "75"]; [Str "2A"; Int 50; Str "2A"];
              [Str "+"; Int 1; Str "+0"]] |}.

(** Two regions that share the code [84], and one department. *)
Definition twin_regions : DataFrame :=
  {| columns := ["code"; "name"];
     rows := [[Str "84"; Str "Auvergne"]; [Str "84"; Str "Rhone-Alpes"]] |}.

Definition one_department : DataFrame :=
  {| columns := ["region_code"; "code"; "name"];
     rows := [[Str "84"; Str "01"; Str "Ain"]] |}.

Definition twin_areas : DataFrame :=
  {| columns := ["code_reg"; "name_reg"; "code_dep"; "name_dep"];
     rows := [[Str "84"; Str "Auvergne"; Str "01"; Str "Ain"];
              [Str "84"; Str "Rhone-Alpes"; Str "01"; Str "Ain"]] |}.

Definition sample_result : IndexedFrame :=
  {| index_name := "code_reg";
     index := [Str "11"; Str "84"];
     body := {| columns := ["name_reg"; "Registered"; "Abstentions"; "Null";
                            "Choice A"; "Choice B"];
                rows := [[Str "Ile-de-France"; Int 200; Int 20; Int 2; Int 90; Int 88];
                         [Str "Auvergne-Rhone-Alpes"; Int 400; Int 40; Int 4;
                          Int 180; Int 176]] |} |}.

Definition sample_shapes : DataFrame :=
  {| columns := ["code"; "nom"; "geometry"];
     rows := [[Str "11"; Str "Ile-de-France"; Str "POLYGON 1"];
              [Str "84"; Str "Auvergne-Rhone-Alpes"; Str "POLYGON 2"];
              [Str "94"; Str "Corse"; Str "POLYGON 3"]] |}.



(** A Region table without the column [name], and a Department table
    without the column [region_code]. *)
Definition nameless_regions : DataFrame :=
  {| columns := ["code"];
     rows := [[Str "84"]; [Str "11"]] |}.

Definition regionless_departments : DataFrame :=
  {| columns := ["code"; "name"];
     rows := [[Str "01"; Str "Ain"]] |}.

(** A table with missing cells: a region name, a region code and a
    count; and the same table with its first two rows exchanged. *)
Definition sample_gaps : DataFrame :=
  {| columns := ["code_reg"; "name_reg"; "Registered"; "Abstentions"; "Null";
                 "Choice A"; "Choice B"];
     rows := [[Str "84"; NA; Int 100; Int 10; Int 1; Int 40; Int 49];
              [NA; Str "Nowhere"; Int 50; Int 5; Int 1; Int 20; Int 24];
              [Str "84"; Str "Auvergne-Rhone-Alpes"; NA; Int 30; Int 3; Int 140; Int 127];
              [Str "11"; Str "Ile-de-France"; Int 200; Int 20; Int 2; Int 90; Int 88]] |}.


Definition sample_gaps_result : IndexedFrame :=
  {| index_name := "code_reg";
     index := [Str "11"; Str "84"];
     body := {| columns := ["name_reg"; "Registered"; "Abstentions"; "Null";
                            "Choice A"; "Choice B"];
                rows := [[Str "Ile-de-France"; Int 200; Int 20; Int 2; Int 90; Int 88];
                         [Str "Auvergne-Rhone-Alpes"; Int 100; Int 40; Int 4;
                          Int 180; Int 176]] |} |}.

(** A joined table with two counts of [2^62] in one region, and what
    the aggregation returns on it. *)
Definition wide_counts : DataFrame :=
  {| columns := ["code_reg"; "name_reg"; "Registered"; "Abstentions"; "Null";
                 "Choice A"; "Choice B"];
     rows := [[Str "84"; Str "Auvergne-Rhone-Alpes"; Int (2 ^ 62); Int 0; Int 0;
               Int 1; Int 1];
              [Str "84"; Str "Auvergne-Rhone-Alpes"; Int (2 ^ 62); Int 0; Int 0;
               Int 1; Int 1]] |}.

Definition wide_counts_result : IndexedFrame :=
  {| index_name := "code_reg";
     index := [Str "84"];
     body := {| columns := ["name_reg"; "Registered"; "Abstentions"; "Null";
                            "Choice A"; "Choice B"];
                rows := [[Str "Auvergne-Rhone-Alpes"; Int (- 2 ^ 63); Int 0; Int 0;
                          Int 2; Int 2]] |} |}.



(** The map drawn from [sample_result]. *)
Definition sample_result_map : RatioFrame :=
  {| frame :=
       {| columns := ["code_reg"; "nom"; "geometry"; "name_reg"; "Registered";
                      "Abstentions"; "Null"; "Choice A"; "Choice B"];
          rows := [[Str "11"; Str "Ile-de-France"; Str "POLYGON 1";
                    Str "Ile-de-France"; Int 200; Int 20; Int 2; Int 90; Int 88];
                   [Str "84"; Str "Auvergne-Rhone-Alpes"; Str "POLYGON 2";
                    Str "Auvergne-Rhone-Alpes"; Int 400; Int 40; Int 4; Int 180; Int 176];
                   [Str "94"; Str "Corse"; Str "POLYGON 3"; NA; NA; NA; NA; NA; NA]] |};
     ratio := [0x1.02e05c0b81703p-1%float; 0x1.02e05c0b81703p-1%float;
               PrimFloat.nan] |}.

(** * Properties *)

(** ** Results and keys *)

Lemma bind_Ok (A B : Type) (r : result A) (k : A -> result B) (b : B) :
  bind r k = Ok b -> exists a, r = Ok a /\ k a = Ok b.
Proof.
  destruct r as [a|e]; simpl; intros H; [eauto | discriminate].
Qed.

Lemma value_eqb_eq (a b : value) : value_eqb a b = true <-> a = b.
Proof.
  destruct a, b; simpl; split; intros H; try discriminate; try reflexivity.
  - apply String.eqb_eq in H. now subst.
  - injection H as ->. apply String.eqb_refl.
  - apply Z.eqb_eq in H. now subst.
  - injection H as ->. apply Z.eqb_refl.
Qed.

Lemma value_eqb_refl (a : value) : value_eqb a a = true.
Proof. now apply value_eqb_eq. Qed.

Lemma value_eqb_neq (a b : value) : value_eqb a b = false <-> a <> b.
Proof.
  split.
  - intros H E. apply value_eqb_eq in E. congruence.
  - intros H. destruct (value_eqb a b) eqn:E; [|reflexivity].
    apply value_eqb_eq in E. contradiction.
Qed.

Lemma mapM_length (A B : Type) (f : A -> result B) (l : list A) (bs : list B) :
  mapM f l = Ok bs -> length bs = length l.
Proof.
  revert bs. induction l as [|a l IH]; simpl; intros bs H.
  - injection H as <-. reflexivity.
  - apply bind_Ok in H as (b & _ & H).
    apply bind_Ok in H as (bs' & Hbs & H).
    injection H as <-. simpl. f_equal. now apply IH.
Qed.

Lemma mapM_Ok_map (A B : Type) (f : A -> result B) (g : A -> B) (l : list A) :
  (forall a, In a l -> f a = Ok (g a)) -> mapM f l = Ok (map g l).
Proof.
  induction l as [|a l IH]; simpl; intros H; [reflexivity|].
  rewrite (H a) by now left. simpl.
  rewrite IH by (intros; apply H; now right). reflexivity.
Qed.

Lemma mapM_Ok_inv (A B : Type) (f : A -> result B) (l : list A) (bs : list B) :
  mapM f l = Ok bs -> Forall2 (fun a b => f a = Ok b) l bs.
Proof.
  revert bs. induction l as [|a l IH]; simpl; intros bs H.
  - injection H as <-. constructor.
  - apply bind_Ok in H as (b & Hb & H).
    apply bind_Ok in H as (bs' & Hbs & H).
    injection H as <-. constructor; auto.
Qed.

(** ** Labels *)

Lemma has_label_In (l : label) (cols : list label) :
  has_label l cols = true <-> In l cols.
Proof.
  unfold has_label. rewrite existsb_exists. split.
  - intros (x & Hx & E). apply String.eqb_eq in E. now subst.
  - intros H. exists l. split; [assumption | apply String.eqb_refl].
Qed.

Lemma has_label_false (l : label) (cols : list label) :
  has_label l cols = false <-> ~ In l cols.
Proof.
  rewrite <- has_label_In. destruct (has_label l cols); split; congruence.
Qed.

Lemma count_In (l : label) (cols : list label) :
  (0 < count l cols)%nat <-> In l cols.
Proof.
  unfold count. induction cols as [|c cols IH]; simpl.
  - split; [lia | tauto].
  - destruct (String.eqb_spec l c) as [->|N]; simpl.
    + split; [auto | lia].
    + rewrite IH. split; [auto | intros [E|H]; [congruence | assumption]].
Qed.

Lemma count_NoDup (l : label) (cols : list label) :
  NoDup cols -> (count l cols <= 1)%nat.
Proof.
  unfold count. induction 1 as [|c cols Hc _ IH]; simpl; [lia|].
  destruct (String.eqb_spec l c) as [->|N]; simpl; [|assumption].
  assert (~ (0 < count c cols)%nat) by now rewrite count_In.
  unfold count in *. lia.
Qed.

Lemma count_one (l : label) (cols : list label) :
  NoDup cols -> In l cols -> count l cols = 1%nat.
Proof.
  intros H1 H2. apply count_NoDup with (l := l) in H1.
  apply count_In in H2. lia.
Qed.

Lemma count_app (l : label) (a b : list label) :
  count l (a ++ b) = (count l a + count l b)%nat.
Proof. unfold count. now rewrite filter_app, length_app. Qed.

Lemma count_map (l l' : label) (f : label -> label) (cols : list label) :
  (forall c, In c cols -> String.eqb l (f c) = String.eqb l' c) ->
  count l (map f cols) = count l' cols.
Proof.
  unfold count. induction cols as [|c cols IH]; simpl; intros H; [reflexivity|].
  rewrite (H c) by now left.
  destruct (String.eqb l' c); simpl; rewrite IH; auto.
Qed.

Lemma count_zero (l : label) (cols : list label) :
  count l cols = 0%nat <-> ~ In l cols.
Proof. rewrite <- count_In. lia. Qed.

Lemma filter_eqb_one (l : label) (cols : list label) :
  count l cols = 1%nat -> filter (String.eqb l) cols = [l].
Proof.
  unfold count. intros H.
  assert (F : Forall (fun c => c = l) (filter (String.eqb l) cols)).
  { apply Forall_forall. intros c Hc. apply filter_In in Hc as [_ E].
    apply String.eqb_eq in E. now subst. }
  destruct (filter (String.eqb l) cols) as [|c [|c' t]]; try discriminate.
  inversion F; subst. reflexivity.
Qed.

Lemma require_one_Ok (l : label) (cols : list label) (e : error) (u : unit) :
  require_one l cols e = Ok u <-> count l cols = 1%nat.
Proof.
  unfold require_one. destruct (count l cols) as [|[|n]]; split; intros H;
    try discriminate; try reflexivity. now destruct u.
Qed.

(** Inverts a successful run of the error monad, bind by bind. *)
Ltac inv_ok :=
  repeat match goal with
    | H : bind _ _ = Ok _ |- _ =>
        let a := fresh "a" in let Ha := fresh "Ha" in
        apply bind_Ok in H as (a & Ha & H)
    | H : Ok _ = Ok _ |- _ => injection H as H
    | H : require_one _ _ _ = Ok _ |- _ => apply require_one_Ok in H
    end.

(** ** Cells of a row *)

Lemma combine_app_eq (A B : Type) (a a' : list A) (b b' : list B) :
  length a = length b -> combine (a ++ a') (b ++ b') = combine a b ++ combine a' b'.
Proof.
  revert b. induction a as [|x a IH]; intros [|y b] H; simpl in *; try discriminate.
  - reflexivity.
  - f_equal. apply IH. lia.
Qed.

Lemma cells_app (l : label) (a b : list label) (ra rb : list value) :
  length a = length ra ->
  cells l (a ++ b) (ra ++ rb) = cells l a ra ++ cells l b rb.
Proof.
  intros H. unfold cells. now rewrite combine_app_eq, filter_app, map_app.
Qed.

Lemma cells_map_labels (l l' : label) (f : label -> label) (cols : list label)
      (row : list value) :
  (forall c, In c cols -> String.eqb l (f c) = String.eqb l' c) ->
  cells l (map f cols) row = cells l' cols row.
Proof.
  unfold cells. revert row.
  induction cols as [|c cols IH]; intros [|v row] H; simpl; try reflexivity.
  rewrite (H c) by now left.
  destruct (String.eqb l' c); simpl; rewrite IH; auto.
  all: intros; apply H; now right.
Qed.

Lemma cells_length (l : label) (cols : list label) (row : list value) :
  length row = length cols -> length (cells l cols row) = count l cols.
Proof.
  unfold cells, count. rewrite length_map. revert row.
  induction cols as [|c cols IH]; intros [|v row] H; simpl in *; try discriminate;
    try reflexivity.
  destruct (String.eqb l c); simpl; rewrite (IH row) by lia; reflexivity.
Qed.

Lemma cells_In (l : label) (cols : list label) (row : list value) (v : value) :
  In v (cells l cols row) -> In v row.
Proof.
  unfold cells. intros H. apply in_map_iff in H as ((c & w) & <- & H).
  apply filter_In in H as [H _]. now apply in_combine_r in H.
Qed.

Lemma cells_none (l : label) (cols : list label) (row : list value) :
  ~ In l cols -> cells l cols row = [].
Proof.
  unfold cells. revert row.
  induction cols as [|c cols IH]; intros [|v row] H; simpl; try reflexivity.
  destruct (String.eqb_spec l c) as [->|N]; simpl.
  - exfalso. apply H. now left.
  - apply IH. intros H'. apply H. now right.
Qed.

Lemma cells_one (l : label) (cols : list label) (row : list value) :
  length row = length cols -> count l cols = 1%nat ->
  cells l cols row = [cell l cols row].
Proof.
  intros H1 H2. unfold cell.
  pose proof (cells_length l cols row H1) as H. rewrite H2 in H.
  destruct (cells l cols row) as [|v [|w t]]; simpl in *; try discriminate.
  reflexivity.
Qed.

Lemma cell_In (l : label) (cols : list label) (row : list value) :
  length row = length cols -> In l cols -> In (cell l cols row) row.
Proof.
  intros H1 H2. apply count_In in H2.
  pose proof (cells_length l cols row H1) as H. unfold cell.
  destruct (cells l cols row) as [|v t] eqn:E; simpl in *; [lia|].
  apply cells_In with (l := l) (cols := cols). rewrite E. now left.
Qed.

Lemma cell_app_l (l : label) (a b : list label) (ra rb : list value) :
  length a = length ra -> In l a -> cell l (a ++ b) (ra ++ rb) = cell l a ra.
Proof.
  intros H1 H2. unfold cell. rewrite cells_app by assumption.
  pose proof (cells_length l a ra (eq_sym H1)) as H. apply count_In in H2.
  destruct (cells l a ra); simpl in *; [lia | reflexivity].
Qed.

Lemma drop_cells_length (l : label) (cols : list label) (row : list value) :
  length row = length cols -> length (drop_cells l cols row) = length (drop_label l cols).
Proof.
  unfold drop_cells, drop_label. rewrite length_map. revert row.
  induction cols as [|c cols IH]; intros [|v row] H; simpl in *; try discriminate;
    try reflexivity.
  destruct (String.eqb l c); simpl; rewrite (IH row) by lia; reflexivity.
Qed.

Lemma drop_label_length (l : label) (cols : list label) :
  (length (drop_label l cols) + count l cols = length cols)%nat.
Proof.
  unfold drop_label, count. induction cols as [|c cols IH]; simpl; [reflexivity|].
  destruct (String.eqb l c); simpl; lia.
Qed.

Lemma drop_label_In (l c : label) (cols : list label) :
  In c (drop_label l cols) <-> In c cols /\ c <> l.
Proof.
  unfold drop_label. rewrite filter_In. split; intros [H1 H2]; split; auto.
  - intros ->. now rewrite String.eqb_refl in H2.
  - destruct (String.eqb_spec l c); [congruence | reflexivity].
Qed.

Lemma drop_label_NoDup (l : label) (cols : list label) :
  NoDup cols -> NoDup (drop_label l cols).
Proof. apply NoDup_filter. Qed.

(** ** Texts *)

Lemma prefix_char (a c : ascii) (s : string) :
  String.prefix (String a EmptyString) (String c s) = Ascii.eqb a c.
Proof.
  cbn [String.prefix]. destruct (Ascii.ascii_dec a c) as [->|N].
  - rewrite Ascii.eqb_refl. now destruct s.
  - symmetry. now apply Ascii.eqb_neq.
Qed.

Lemma contains_Z (s : string) : contains "Z" s = true <-> has_Z s.
Proof.
  unfold has_Z. induction s as [|c s IH].
  - cbn. split; [discriminate | tauto].
  - cbn [contains list_ascii_of_string In]. rewrite prefix_char.
    destruct (Ascii.eqb_spec "Z" c) as [<-|N]; cbn [orb].
    + split; auto.
    + rewrite IH. split; [auto | intros [E|H]; [congruence | assumption]].
Qed.

Lemma contains_Z_false (s : string) : contains "Z" s = false <-> ~ has_Z s.
Proof.
  rewrite <- contains_Z. destruct (contains "Z" s); split; congruence.
Qed.

Lemma chars_append (s t : string) :
  list_ascii_of_string (String.append s t)
  = list_ascii_of_string s ++ list_ascii_of_string t.
Proof. induction s as [|c s IH]; simpl; [reflexivity | now rewrite IH]. Qed.

Lemma chars_repeat (c : ascii) (n : nat) :
  list_ascii_of_string (string_repeat c n) = repeat c n.
Proof. induction n as [|n IH]; simpl; [reflexivity | now rewrite IH]. Qed.

(** [zfill] only ever adds the character [0]. *)
Lemma zfill_chars (w : nat) (s : string) (c : ascii) :
  In c (list_ascii_of_string (zfill w s)) ->
  c = "0"%char \/ In c (list_ascii_of_string s).
Proof.
  unfold zfill. destruct (w <=? String.length s)%nat; [auto|].
  destruct s as [|a s]; simpl.
  - rewrite chars_repeat. intros H. apply repeat_spec in H. auto.
  - destruct (Ascii.eqb a "+" || Ascii.eqb a "-")%bool; simpl;
      rewrite chars_append, chars_repeat; simpl.
    + intros [H|H]; [auto|]. apply in_app_or in H as [H|H]; [|auto].
      apply repeat_spec in H. auto.
    + intros H. apply in_app_or in H as [H|H]; [|auto].
      apply repeat_spec in H. auto.
Qed.

Lemma zfill_no_Z (w : nat) (s : string) : ~ has_Z s -> ~ has_Z (zfill w s).
Proof.
  unfold has_Z. intros H H'. apply zfill_chars in H' as [E|H']; [discriminate | auto].
Qed.

Lemma ends_with_append (suf c : string) : ends_with suf (String.append c suf) = true.
Proof.
  induction c as [|a c IH]; simpl.
  - destruct suf; simpl; rewrite ?String.eqb_refl, ?Ascii.eqb_refl; reflexivity.
  - rewrite IH. apply orb_true_r.
Qed.

(** ** Masks and row-wise maps *)

Lemma filter_by_mask (A : Type) (f : A -> bool) (l : list A) :
  map fst (filter snd (combine l (map f l))) = filter f l.
Proof.
  induction l as [|a l IH]; simpl; [reflexivity|].
  destruct (f a); simpl; now rewrite IH.
Qed.

Lemma map_combine_map (A B C : Type) (f : A -> B) (h : A * B -> C) (l : list A) :
  map h (combine l (map f l)) = map (fun a => h (a, f a)) l.
Proof. induction l as [|a l IH]; simpl; [reflexivity | now rewrite IH]. Qed.

(** ** The filter on [Z] *)

Lemma referendum_filtered_Ok (referendum filtered : DataFrame) :
  referendum_filtered referendum = Ok filtered ->
  count "Department code" (columns referendum) = 1%nat /\
  columns filtered = columns referendum /\
  rows filtered = filter (keeps (columns referendum)) (rows referendum).
Proof.
  unfold referendum_filtered, getitem, getitem_mask. intros H. inv_ok. subst.
  unfold invert, str_contains, astype_str in H. rewrite !length_map, Nat.eqb_refl in H.
  inv_ok. subst. simpl. repeat split; try assumption.
  rewrite !map_map. apply filter_by_mask.
Qed.

Lemma referendum_filtered_total (referendum : DataFrame) :
  count "Department code" (columns referendum) = 1%nat ->
  exists filtered, referendum_filtered referendum = Ok filtered.
Proof.
  intros H. unfold referendum_filtered, getitem, getitem_mask.
  apply (require_one_Ok _ _ AttributeError tt) in H. rewrite H. simpl.
  unfold invert, str_contains, astype_str. rewrite !length_map, Nat.eqb_refl. eauto.
Qed.

(** ** The column [code_dep] *)

Lemma set_cells_length (l : label) (v : value) (cols : list label) (row : list value) :
  length row = length cols -> length (set_cells l v cols row) = length cols.
Proof.
  intros H. unfold set_cells. rewrite length_map, length_combine. lia.
Qed.

Lemma cells_set_same (l : label) (v : value) (cols : list label) (row : list value) :
  length row = length cols ->
  cells l cols (set_cells l v cols row) = repeat v (count l cols).
Proof.
  unfold cells, set_cells, count. revert row.
  induction cols as [|c cols IH]; intros [|w row] H; simpl in *; try discriminate;
    try reflexivity.
  destruct (String.eqb l c); simpl; rewrite IH by lia; reflexivity.
Qed.

Lemma cells_set_other (l l' : label) (v : value) (cols : list label) (row : list value) :
  l' <> l -> cells l' cols (set_cells l v cols row) = cells l' cols row.
Proof.
  unfold cells, set_cells. intros N. revert row.
  induction cols as [|c cols IH]; intros [|w row]; simpl; try reflexivity.
  destruct (String.eqb_spec l' c) as [->|N']; simpl.
  - destruct (String.eqb_spec l c) as [->|_]; [congruence|]. now rewrite IH.
  - apply IH.
Qed.

Lemma set_cells_same (l : label) (v : value) (cols : list label) (row : list value) :
  length row = length cols ->
  (forall w, In w (cells l cols row) -> w = v) ->
  set_cells l v cols row = row.
Proof.
  unfold cells, set_cells. revert row.
  induction cols as [|c cols IH]; intros [|w row] H1 H2; simpl in *; try discriminate;
    try reflexivity.
  destruct (String.eqb l c) eqn:E; simpl in *.
  - rewrite (H2 w) by now left. f_equal. apply IH; [lia | auto].
  - f_equal. apply IH; [lia | auto].
Qed.

Lemma with_code_dep_Ok (filtered derived : DataFrame) :
  with_code_dep filtered = Ok derived ->
  count "Department code" (columns filtered) = 1%nat /\
  columns derived = derived_columns (columns filtered) /\
  rows derived = map (derive_row (columns filtered)) (rows filtered).
Proof.
  unfold with_code_dep, getitem, setitem, derived_columns, derive_row. intros H.
  inv_ok. subst. unfold str_zfill, astype_str in H.
  rewrite !length_map, Nat.eqb_refl, !map_map in H.
  destruct (has_label "code_dep" (columns filtered)); inv_ok; subst; simpl;
    (split; [assumption|]); (split; [reflexivity|]);
    rewrite map_combine_map; reflexivity.
Qed.

Lemma with_code_dep_total (filtered : DataFrame) :
  count "Department code" (columns filtered) = 1%nat ->
  exists derived, with_code_dep filtered = Ok derived.
Proof.
  intros H. unfold with_code_dep, getitem, setitem.
  apply (require_one_Ok _ _ AttributeError tt) in H. rewrite H. simpl.
  unfold str_zfill, astype_str. rewrite !length_map, Nat.eqb_refl.
  destruct (has_label "code_dep" (columns filtered)); eauto.
Qed.

Lemma derive_row_length (cols : list label) (r : list value) :
  length r = length cols -> length (derive_row cols r) = length (derived_columns cols).
Proof.
  intros H. unfold derive_row, derived_columns.
  destruct (has_label "code_dep" cols).
  - now apply set_cells_length.
  - rewrite !length_app. simpl. lia.
Qed.

Lemma derived_columns_In (cols : list label) : In "code_dep" (derived_columns cols).
Proof.
  unfold derived_columns. destruct (has_label "code_dep" cols) eqn:E.
  - now apply has_label_In.
  - apply in_or_app. right. now left.
Qed.

Lemma derived_columns_count (l : label) (cols : list label) :
  l <> "code_dep" -> count l (derived_columns cols) = count l cols.
Proof.
  intros N. unfold derived_columns. destruct (has_label "code_dep" cols); [reflexivity|].
  rewrite count_app. unfold count at 2. simpl.
  destruct (String.eqb_spec l "code_dep"); [congruence | simpl; lia].
Qed.

Lemma derive_row_code_dep (cols : list label) (r : list value) :
  length r = length cols ->
  forall v, In v (cells "code_dep" (derived_columns cols) (derive_row cols r)) ->
            v = code_dep_of cols r.
Proof.
  intros H v. unfold derive_row, derived_columns.
  destruct (has_label "code_dep" cols) eqn:E.
  - rewrite cells_set_same by assumption. apply repeat_spec.
  - rewrite cells_app by now symmetry. apply has_label_false in E.
    rewrite cells_none by assumption. simpl. intros [<-|[]]. reflexivity.
Qed.

Lemma derive_row_cell_code_dep (cols : list label) (r : list value) :
  length r = length cols ->
  cell "code_dep" (derived_columns cols) (derive_row cols r) = code_dep_of cols r.
Proof.
  intros H. pose proof (derive_row_code_dep cols r H) as Hv.
  pose proof (cells_length "code_dep" _ _ (derive_row_length cols r H)) as Hl.
  pose proof (proj2 (count_In _ _) (derived_columns_In cols)) as Hc.
  unfold cell. destruct (cells "code_dep" _ _) as [|v t]; simpl in *; [lia|].
  apply Hv. now left.
Qed.

Lemma derive_row_cells_other (l : label) (cols : list label) (r : list value) :
  length r = length cols -> l <> "code_dep" ->
  cells l (derived_columns cols) (derive_row cols r) = cells l cols r.
Proof.
  intros H N. unfold derive_row, derived_columns.
  destruct (has_label "code_dep" cols) eqn:E.
  - now apply cells_set_other.
  - rewrite cells_app by now symmetry. unfold cells at 2. simpl.
    destruct (String.eqb_spec l "code_dep"); [congruence|]. simpl. apply app_nil_r.
Qed.

(** ** Left join: labels *)

Lemma key_not_overlap (on : label) (lcols rcols : list label) :
  ~ In on (overlap on lcols rcols).
Proof.
  unfold overlap. intros H. apply filter_In in H as [_ H].
  apply has_label_In, drop_label_In in H as [_ H]. congruence.
Qed.

Lemma overlap_In (on c : label) (lcols rcols : list label) :
  In c (overlap on lcols rcols) <-> In c lcols /\ In c rcols /\ c <> on.
Proof.
  unfold overlap. rewrite filter_In, has_label_In, drop_label_In. tauto.
Qed.

Lemma add_suffix_neq (ov : list label) (suf : string) (c l : label) :
  ends_with suf l = false -> In c ov -> add_suffix ov suf c <> l.
Proof.
  intros H1 H2 E. unfold add_suffix in E.
  apply has_label_In in H2. rewrite H2 in E. subst l.
  now rewrite ends_with_append in H1.
Qed.

Lemma eqb_add_suffix (ov : list label) (suf : string) (c l : label) :
  ends_with suf l = false ->
  String.eqb l (add_suffix ov suf c) = (String.eqb l c && negb (has_label c ov))%bool.
Proof.
  intros H. destruct (has_label c ov) eqn:E.
  - rewrite andb_false_r. apply String.eqb_neq. intros E'.
    apply has_label_In in E. now apply (add_suffix_neq ov suf c l H E).
  - unfold add_suffix. rewrite E. now rewrite andb_true_r.
Qed.

Lemma eqb_add_suffix_plain (ov : list label) (suf : string) (c l : label) :
  ends_with suf l = false -> ~ In l ov ->
  String.eqb l (add_suffix ov suf c) = String.eqb l c.
Proof.
  intros H1 H2. rewrite eqb_add_suffix by assumption.
  destruct (String.eqb_spec l c) as [<-|N]; [|reflexivity].
  apply has_label_false in H2. now rewrite H2.
Qed.

Lemma left_labels_length (on : label) (lcols rcols : list label) :
  length (left_labels on lcols rcols) = length lcols.
Proof. apply length_map. Qed.

Lemma right_labels_length (on : label) (lcols rcols : list label) :
  length (right_labels on lcols rcols) = length (drop_label on rcols).
Proof. apply length_map. Qed.

(** A label that carries no suffix and is not shared keeps its cells. *)
Lemma cells_left_labels (l on : label) (lcols rcols : list label) (row : list value) :
  ends_with "_x" l = false -> ~ In l (overlap on lcols rcols) ->
  cells l (left_labels on lcols rcols) row = cells l lcols row.
Proof.
  intros H1 H2. apply cells_map_labels. intros c _.
  now apply eqb_add_suffix_plain.
Qed.

Lemma count_left_labels (l on : label) (lcols rcols : list label) :
  ends_with "_x" l = false -> ~ In l (overlap on lcols rcols) ->
  count l (left_labels on lcols rcols) = count l lcols.
Proof.
  intros H1 H2. apply count_map. intros c _. now apply eqb_add_suffix_plain.
Qed.

Lemma cells_right_labels (l on : label) (lcols rcols : list label) (row : list value) :
  ends_with "_y" l = false -> ~ In l (overlap on lcols rcols) ->
  cells l (right_labels on lcols rcols) row = cells l (drop_label on rcols) row.
Proof.
  intros H1 H2. apply cells_map_labels. intros c _.
  now apply eqb_add_suffix_plain.
Qed.

Lemma count_right_labels (l on : label) (lcols rcols : list label) :
  ends_with "_y" l = false -> ~ In l (overlap on lcols rcols) ->
  count l (right_labels on lcols rcols) = count l (drop_label on rcols).
Proof.
  intros H1 H2. apply count_map. intros c _. now apply eqb_add_suffix_plain.
Qed.

Lemma count_drop_label (l on : label) (cols : list label) :
  count l (drop_label on cols) = if String.eqb on l then 0%nat else count l cols.
Proof.
  unfold count, drop_label. induction cols as [|c cols IH]; simpl.
  - now destruct (String.eqb on l).
  - destruct (String.eqb_spec on c) as [->|N]; simpl.
    + rewrite IH. destruct (String.eqb_spec c l) as [->|N'].
      * reflexivity.
      * destruct (String.eqb_spec l c); [congruence | reflexivity].
    + destruct (String.eqb_spec l c) as [->|N']; simpl; rewrite IH.
      * destruct (String.eqb_spec on c); [congruence | reflexivity].
      * reflexivity.
Qed.

Lemma cells_drop_label (l on : label) (cols : list label) (row : list value) :
  l <> on -> cells l (drop_label on cols) (drop_cells on cols row) = cells l cols row.
Proof.
  intros N. unfold cells, drop_label, drop_cells. revert row.
  induction cols as [|c cols IH]; intros [|v row]; simpl; try reflexivity.
  - now rewrite combine_nil.
  - destruct (String.eqb_spec on c) as [->|N']; simpl.
    + destruct (String.eqb_spec l c); [congruence|]. apply IH.
    + destruct (String.eqb l c); simpl; now rewrite IH.
Qed.

(** ** Left join: rows *)

Lemma merge_left_Ok (left right : DataFrame) (on : label) (out : DataFrame) :
  merge_left left right on = Ok out ->
  count on (columns left) = 1%nat /\ count on (columns right) = 1%nat /\
  suffix_dups (columns left) (left_labels on (columns left) (columns right)) = false /\
  suffix_dups (drop_label on (columns right))
              (right_labels on (columns left) (columns right)) = false /\
  columns out = left_labels on (columns left) (columns right)
                ++ right_labels on (columns left) (columns right) /\
  rows out = flat_map (join_row on (columns left) (columns right) (rows right))
                      (rows left).
Proof.
  unfold merge_left. intros H. inv_ok.
  destruct (suffix_dups (columns left) _) eqn:E1; [discriminate|].
  destruct (suffix_dups (drop_label on (columns right)) _) eqn:E2; [discriminate|].
  simpl in H. inv_ok. subst. simpl. tauto.
Qed.

Lemma merge_left_total (left right : DataFrame) (on : label) :
  count on (columns left) = 1%nat -> count on (columns right) = 1%nat ->
  suffix_dups (columns left) (left_labels on (columns left) (columns right)) = false ->
  suffix_dups (drop_label on (columns right))
              (right_labels on (columns left) (columns right)) = false ->
  merge_left left right on
  = Ok {| columns := left_labels on (columns left) (columns right)
                     ++ right_labels on (columns left) (columns right);
          rows := flat_map (join_row on (columns left) (columns right) (rows right))
                           (rows left) |}.
Proof.
  intros H1 H2 H3 H4. unfold merge_left.
  apply (require_one_Ok _ _ ValueError tt) in H1, H2. rewrite H1, H2. simpl.
  now rewrite H3, H4.
Qed.

Lemma join_row_In (on : label) (lcols rcols : list label)
      (right_rows : list (list value)) (l r : list value) :
  In r (join_row on lcols rcols right_rows l) ->
  (matches on lcols rcols right_rows l = [] /\
   r = l ++ repeat NA (length (drop_label on rcols)))
  \/ (exists a, In a right_rows /\ cell on rcols a = cell on lcols l /\
                r = l ++ drop_cells on rcols a).
Proof.
  unfold join_row. destruct (matches on lcols rcols right_rows l) as [|m ms] eqn:E.
  - intros [<-|[]]. now left.
  - intros H. right. apply in_map_iff in H as (a & <- & Ha).
    rewrite <- E in Ha. apply filter_In in Ha as [Ha Hk].
    apply value_eqb_eq in Hk. eauto.
Qed.

Lemma merge_left_row (left right : DataFrame) (on : label) (out : DataFrame)
      (r : list value) :
  merge_left left right on = Ok out -> In r (rows out) ->
  exists l t, In l (rows left) /\ r = l ++ t /\
              In r (join_row on (columns left) (columns right) (rows right) l).
Proof.
  intros H Hr. apply merge_left_Ok in H as (_ & _ & _ & _ & _ & Hrows).
  rewrite Hrows in Hr. apply in_flat_map in Hr as (l & Hl & Hr).
  destruct (join_row_In _ _ _ _ _ _ Hr) as [[_ E]|(a & _ & _ & E)]; eauto.
Qed.

(** ** The joined table, row by row *)

Lemma merged_cell_left (l on : label) (lcols rcols : list label) (lrow t : list value) :
  length lrow = length lcols -> ends_with "_x" l = false ->
  ~ In l (overlap on lcols rcols) -> In l lcols ->
  cell l (left_labels on lcols rcols ++ right_labels on lcols rcols) (lrow ++ t)
  = cell l lcols lrow.
Proof.
  intros H1 H2 H3 H4. rewrite cell_app_l.
  - unfold cell. now rewrite cells_left_labels.
  - now rewrite left_labels_length.
  - apply count_In. rewrite count_left_labels by assumption. now apply count_In.
Qed.

Lemma merge_referendum_and_areas_Ok (referendum areas out : DataFrame) :
  merge_referendum_and_areas referendum areas = Ok out ->
  exists filtered derived joined,
    referendum_filtered referendum = Ok filtered /\
    with_code_dep filtered = Ok derived /\
    merge_left derived areas "code_dep" = Ok joined /\
    out = dropna joined.
Proof.
  unfold merge_referendum_and_areas. intros H. inv_ok. subst. eauto 8.
Qed.

Lemma rectangular_filtered (referendum filtered : DataFrame) :
  rectangular referendum -> referendum_filtered referendum = Ok filtered ->
  rectangular filtered.
Proof.
  intros R H. apply referendum_filtered_Ok in H as (_ & Hc & Hr).
  unfold rectangular in *. rewrite Hc, Hr.
  apply Forall_forall. intros r Hin. apply filter_In in Hin as [Hin _].
  now apply (proj1 (Forall_forall _ _) R).
Qed.

Lemma rectangular_derived (filtered derived : DataFrame) :
  rectangular filtered -> with_code_dep filtered = Ok derived -> rectangular derived.
Proof.
  intros R H. apply with_code_dep_Ok in H as (_ & Hc & Hr).
  unfold rectangular in *. rewrite Hc, Hr.
  apply Forall_forall. intros r Hin. apply in_map_iff in Hin as (r0 & <- & Hin).
  apply derive_row_length. now apply (proj1 (Forall_forall _ _) R).
Qed.

(** Every row of the joined table starts with a derived referendum row
    that passed the filter. *)
Lemma joined_row_origin (referendum areas out : DataFrame) (r : list value) :
  rectangular referendum ->
  merge_referendum_and_areas referendum areas = Ok out -> In r (rows out) ->
  exists r0 t,
    In r0 (rows referendum) /\ keeps (columns referendum) r0 = true /\
    r = derive_row (columns referendum) r0 ++ t /\
    cell "code_dep" (columns out) r = code_dep_of (columns referendum) r0.
Proof.
  intros R H Hr.
  apply merge_referendum_and_areas_Ok in H as (filtered & derived & joined & Hf & Hd & Hm & ->).
  simpl in Hr. apply filter_In in Hr as [Hr _].
  destruct (merge_left_row _ _ _ _ _ Hm Hr) as (l & t & Hl & -> & _).
  pose proof (rectangular_filtered _ _ R Hf) as Rf.
  apply referendum_filtered_Ok in Hf as (_ & Hfc & Hfr).
  apply with_code_dep_Ok in Hd as (_ & Hdc & Hdr).
  rewrite Hdr in Hl. apply in_map_iff in Hl as (r0 & <- & Hr0).
  assert (Hlen : length r0 = length (columns filtered))
    by now apply (proj1 (Forall_forall _ _) Rf).
  rewrite Hfr in Hr0. apply filter_In in Hr0 as [Hr0 Hk].
  exists r0, t. rewrite Hfc in *. repeat split; try assumption.
  apply merge_left_Ok in Hm as (_ & _ & _ & _ & Hcols & _).
  simpl. rewrite Hcols, Hdc.
  rewrite merged_cell_left.
  - now apply derive_row_cell_code_dep.
  - now apply derive_row_length.
  - reflexivity.
  - apply key_not_overlap.
  - apply derived_columns_In.
Qed.

(** ** Missing cells *)

Lemma forallb_notna (r : list value) :
  forallb notna r = true <-> (forall v, In v r -> v <> NA).
Proof.
  rewrite forallb_forall. split; intros H v Hv.
  - intros ->. specialize (H NA Hv). discriminate.
  - specialize (H v Hv). now destruct v.
Qed.

Lemma forallb_notna_false (r : list value) : In NA r -> forallb notna r = false.
Proof.
  intros H. destruct (forallb notna r) eqn:E; [|reflexivity].
  exfalso. now apply (proj1 (forallb_notna r) E NA).
Qed.

Lemma filter_none (A : Type) (f : A -> bool) (l : list A) :
  (forall a, In a l -> f a = false) -> filter f l = [].
Proof.
  induction l as [|a l IH]; simpl; intros H; [reflexivity|].
  rewrite (H a) by now left. apply IH. intros; apply H; now right.
Qed.

Lemma filter_all (A : Type) (f : A -> bool) (l : list A) :
  (forall a, In a l -> f a = true) -> filter f l = l.
Proof.
  induction l as [|a l IH]; simpl; intros H; [reflexivity|].
  rewrite (H a) by now left. f_equal. apply IH. intros; apply H; now right.
Qed.

Lemma flat_map_filter (A B : Type) (f : A -> list B) (p : B -> bool) (l : list A) :
  filter p (flat_map f l) = flat_map (fun a => filter p (f a)) l.
Proof.
  induction l as [|a l IH]; simpl; [reflexivity|].
  now rewrite filter_app, IH.
Qed.

Lemma map_flat_map (A B C : Type) (f : B -> C) (g : A -> list B) (l : list A) :
  map f (flat_map g l) = flat_map (fun a => map f (g a)) l.
Proof.
  induction l as [|a l IH]; simpl; [reflexivity|]. now rewrite map_app, IH.
Qed.

Lemma flat_map_ext_in (A B : Type) (f g : A -> list B) (l : list A) :
  (forall a, In a l -> f a = g a) -> flat_map f l = flat_map g l.
Proof.
  induction l as [|a l IH]; simpl; intros H; [reflexivity|].
  rewrite (H a) by now left. f_equal. apply IH. intros; apply H; now right.
Qed.

Lemma flat_map_map_in (A B C : Type) (g : A -> B) (f : B -> list C) (l : list A) :
  flat_map f (map g l) = flat_map (fun a => f (g a)) l.
Proof. induction l as [|a l IH]; simpl; [reflexivity | now rewrite IH]. Qed.

(** The joined table is the concatenation of the blocks of the rows
    that passed the filter. *)
Lemma joined_rows_blocks (referendum areas out : DataFrame) :
  merge_referendum_and_areas referendum areas = Ok out ->
  rows out = flat_map (joined_block (columns referendum) areas)
                      (filter (keeps (columns referendum)) (rows referendum)).
Proof.
  intros H.
  apply merge_referendum_and_areas_Ok in H as (filtered & derived & joined & Hf & Hd & Hm & ->).
  apply referendum_filtered_Ok in Hf as (_ & Hfc & Hfr).
  apply with_code_dep_Ok in Hd as (_ & Hdc & Hdr).
  apply merge_left_Ok in Hm as (_ & _ & _ & _ & _ & Hrows).
  simpl. rewrite Hrows, flat_map_filter, Hdr, flat_map_map_in, Hdc, Hfr, Hfc.
  reflexivity.
Qed.

Lemma join_row_unmatched_dropped (on : label) (lcols rcols : list label)
      (right_rows : list (list value)) (l : list value) :
  (forall a, In a right_rows -> cell on rcols a <> cell on lcols l) ->
  drop_label on rcols <> [] ->
  filter (forallb notna) (join_row on lcols rcols right_rows l) = [].
Proof.
  intros Hno Hcols. unfold join_row.
  assert (E : matches on lcols rcols right_rows l = []).
  { apply filter_none. intros a Ha. apply value_eqb_neq. intros E.
    now apply (Hno a Ha). }
  rewrite E. simpl. rewrite forallb_notna_false; [reflexivity|].
  apply in_or_app. right. destruct (drop_label on rcols); [congruence | now left].
Qed.

Lemma join_row_missing_dropped (on : label) (lcols rcols : list label)
      (right_rows : list (list value)) (l : list value) :
  In NA l -> filter (forallb notna) (join_row on lcols rcols right_rows l) = [].
Proof.
  intros H. apply filter_none. intros r Hr. apply forallb_notna_false.
  destruct (join_row_In _ _ _ _ _ _ Hr) as [[_ ->]|(a & _ & _ & ->)];
    apply in_or_app; now left.
Qed.

(** A referendum row whose department code is missing contributes no
    row to the joined table. *)
Lemma joined_block_missing_code (referendum areas : DataFrame) (r0 : list value) :
  rectangular referendum ->
  count "Department code" (columns referendum) = 1%nat ->
  In r0 (rows referendum) ->
  cell "Department code" (columns referendum) r0 = NA ->
  In NA (derive_row (columns referendum) r0) /\
  joined_block (columns referendum) areas r0 = [].
Proof.
  intros R C Hr0 Hna.
  assert (L : length r0 = length (columns referendum))
    by now apply (proj1 (Forall_forall _ _) R).
  assert (Hin : In NA (derive_row (columns referendum) r0)).
  { apply cells_In with (l := "Department code")
                        (cols := derived_columns (columns referendum)).
    rewrite derive_row_cells_other by (assumption || discriminate).
    rewrite (cells_one _ _ _ L C), Hna. now left. }
  split; [exact Hin|]. unfold joined_block. now apply join_row_missing_dropped.
Qed.

(** C1 (amended).  The first statement of [merge_referendum_and_areas]
    keeps exactly the rows whose department code, as text, has no [Z];
    a row whose department code is missing is therefore kept by that
    filter (its text is [nan]).  Such a row is removed later, by the
    drop of the rows with a missing value: the final table is made of
    the blocks of the rows that passed the filter, the block of a row
    without department code is empty, and every row of the final table
    starts with the derived row of a referendum row that has a
    department code.  No row of the final table has a [Z] in its
    [code_dep]. *)
Theorem filter_drops_Z_and_keeps_missing (referendum areas : DataFrame) :
  rectangular referendum ->
  (forall filtered, referendum_filtered referendum = Ok filtered ->
     (forall r, In r (rows filtered) <->
                In r (rows referendum) /\
                ~ has_Z (text (cell "Department code" (columns referendum) r))) /\
     (forall r, In r (rows referendum) ->
                cell "Department code" (columns referendum) r = NA ->
                In r (rows filtered))) /\
  (forall out, merge_referendum_and_areas referendum areas = Ok out ->
     forall r, In r (rows out) ->
               exists s, cell "code_dep" (columns out) r = Str s /\ ~ has_Z s) /\
  (forall out, merge_referendum_and_areas referendum areas = Ok out ->
     rows out = flat_map (joined_block (columns referendum) areas)
                         (filter (keeps (columns referendum)) (rows referendum)) /\
     (forall r0, In r0 (rows referendum) ->
                 cell "Department code" (columns referendum) r0 = NA ->
                 keeps (columns referendum) r0 = true /\
                 joined_block (columns referendum) areas r0 = []) /\
     (forall r, In r (rows out) ->
                exists r0 t,
                  In r0 (rows referendum) /\
                  cell "Department code" (columns referendum) r0 <> NA /\
                  r = derive_row (columns referendum) r0 ++ t)).
Proof.
  intros R. split; [|split].
  - intros filtered Hf. apply referendum_filtered_Ok in Hf as (_ & _ & Hr).
    assert (Hiff : forall r, In r (rows filtered) <->
                In r (rows referendum) /\
                ~ has_Z (text (cell "Department code" (columns referendum) r))).
    { intros r. rewrite Hr, filter_In. unfold keeps.
      rewrite negb_true_iff, contains_Z_false. tauto. }
    split; [exact Hiff|].
    intros r Hin Hna. apply Hiff. split; [assumption|].
    rewrite Hna. unfold has_Z. simpl. intuition discriminate.
  - intros out H r Hr.
    destruct (joined_row_origin _ _ _ _ R H Hr) as (r0 & t & _ & Hk & _ & Hc).
    eexists. split; [exact Hc|].
    apply zfill_no_Z. apply contains_Z_false.
    unfold keeps in Hk. now apply negb_true_iff in Hk.
  - intros out H.
    assert (C : count "Department code" (columns referendum) = 1%nat).
    { pose proof H as H'.
      apply merge_referendum_and_areas_Ok in H' as (filtered & _ & _ & Hf & _).
      now apply referendum_filtered_Ok in Hf. }
    split; [now apply joined_rows_blocks|]. split.
    + intros r0 Hr0 Hna. split.
      * unfold keeps. now rewrite Hna.
      * now apply (joined_block_missing_code referendum areas r0 R C Hr0 Hna).
    + intros r Hr.
      destruct (joined_row_origin _ _ _ _ R H Hr) as (r0 & t & Hr0 & _ & E & _).
      exists r0, t. split; [assumption|]. split; [|assumption].
      intros Hna.
      destruct (joined_block_missing_code referendum areas r0 R C Hr0 Hna) as [Hin _].
      apply merge_referendum_and_areas_Ok in H as (filtered & derived & joined & _ & _ & _ & ->).
      simpl in Hr. apply filter_In in Hr as [_ Hr].
      apply (proj1 (forallb_notna r) Hr NA); [|reflexivity].
      rewrite E. apply in_or_app. now left.
Qed.

Lemma filter_drops_Z_and_keeps_missing_witness :
  rectangular sample_referendum /\
  merge_referendum_and_areas sample_referendum sample_areas = Ok sample_joined /\
  (forall filtered, referendum_filtered sample_referendum = Ok filtered ->
     (forall r, In r (rows filtered) <->
                In r (rows sample_referendum) /\
                ~ has_Z (text (cell "Department code" (columns sample_referendum) r))) /\
     (forall r, In r (rows sample_referendum) ->
                cell "Department code" (columns sample_referendum) r = NA ->
                In r (rows filtered))) /\
  (forall out, merge_referendum_and_areas sample_referendum sample_areas = Ok out ->
     forall r, In r (rows out) ->
               exists s, cell "code_dep" (columns out) r = Str s /\ ~ has_Z s) /\
  (forall out, merge_referendum_and_areas sample_referendum sample_areas = Ok out ->
     rows out = flat_map (joined_block (columns sample_referendum) sample_areas)
                         (filter (keeps (columns sample_referendum))
                                 (rows sample_referendum)) /\
     (forall r0, In r0 (rows sample_referendum) ->
                 cell "Department code" (columns sample_referendum) r0 = NA ->
                 keeps (columns sample_referendum) r0 = true /\
                 joined_block (columns sample_referendum) sample_areas r0 = []) /\
     (forall r, In r (rows out) ->
                exists r0 t,
                  In r0 (rows sample_referendum) /\
                  cell "Department code" (columns sample_referendum) r0 <> NA /\
                  r = derive_row (columns sample_referendum) r0 ++ t)).
Proof.
  assert (R : rectangular sample_referendum) by (repeat constructor).
  split; [exact R|]. split; [reflexivity|].
  exact (filter_drops_Z_and_keeps_missing sample_referendum sample_areas R).
Defined.

(** C1 (as stated) fails: a row without department code is not
    excluded by the first filter; the filter returns it. *)
Lemma missing_code_passes_filter :
  cell "Department code" (columns missing_code_table) [NA; Int 30] = NA /\
  referendum_filtered missing_code_table = Ok missing_code_table /\
  In [NA; Int 30] (rows missing_code_table).
Proof. repeat split. now left. Qed.

(** C4.  No row of the joined table holds a missing cell: the table is
    made of the blocks of the referendum rows that passed the filter,
    and a block is empty when the derived department code matches no
    area (the areas having a column besides the key) or when the
    referendum row has a missing cell. *)
Theorem joined_table_has_no_missing_cell (referendum areas out : DataFrame) :
  rectangular referendum ->
  merge_referendum_and_areas referendum areas = Ok out ->
  (forall r, In r (rows out) -> forall v, In v r -> v <> NA) /\
  rows out = flat_map (joined_block (columns referendum) areas)
                      (filter (keeps (columns referendum)) (rows referendum)) /\
  (forall r0, In r0 (rows referendum) ->
     (forall a, In a (rows areas) ->
        cell "code_dep" (columns areas) a <> code_dep_of (columns referendum) r0) ->
     (2 <= length (columns areas))%nat ->
     joined_block (columns referendum) areas r0 = []) /\
  (forall r0 l, In r0 (rows referendum) -> l <> "code_dep" ->
     In NA (cells l (columns referendum) r0) ->
     joined_block (columns referendum) areas r0 = []).
Proof.
  intros R H. split; [|split; [|split]].
  - intros r Hr.
    apply merge_referendum_and_areas_Ok in H as (filtered & derived & joined & _ & _ & _ & ->).
    simpl in Hr. apply filter_In in Hr as [_ Hr]. now apply forallb_notna.
  - now apply joined_rows_blocks.
  - intros r0 Hr0 Hno Hlen. unfold joined_block.
    assert (L : length r0 = length (columns referendum))
      by now apply (proj1 (Forall_forall _ _) R).
    apply join_row_unmatched_dropped.
    + intros a Ha. rewrite derive_row_cell_code_dep by assumption. now apply Hno.
    + apply merge_referendum_and_areas_Ok in H as (filtered & derived & joined & _ & _ & Hm & _).
      apply merge_left_Ok in Hm as (_ & Hc & _).
      pose proof (drop_label_length "code_dep" (columns areas)) as Hd.
      intros E. rewrite E in Hd. simpl in Hd. lia.
  - intros r0 l Hr0 Hl Hna. unfold joined_block.
    assert (L : length r0 = length (columns referendum))
      by now apply (proj1 (Forall_forall _ _) R).
    apply join_row_missing_dropped.
    apply cells_In with (l := l) (cols := derived_columns (columns referendum)).
    now rewrite derive_row_cells_other.
Qed.

Lemma joined_table_has_no_missing_cell_witness :
  rectangular sample_referendum /\
  merge_referendum_and_areas sample_referendum sample_areas = Ok sample_joined /\
  (forall r, In r (rows sample_joined) -> forall v, In v r -> v <> NA) /\
  rows sample_joined
  = flat_map (joined_block (columns sample_referendum) sample_areas)
             (filter (keeps (columns sample_referendum)) (rows sample_referendum)) /\
  (forall r0, In r0 (rows sample_referendum) ->
     (forall a, In a (rows sample_areas) ->
        cell "code_dep" (columns sample_areas) a
        <> code_dep_of (columns sample_referendum) r0) ->
     (2 <= length (columns sample_areas))%nat ->
     joined_block (columns sample_referendum) sample_areas r0 = []) /\
  (forall r0 l, In r0 (rows sample_referendum) -> l <> "code_dep" ->
     In NA (cells l (columns sample_referendum) r0) ->
     joined_block (columns sample_referendum) sample_areas r0 = []).
Proof.
  assert (R : rectangular sample_referendum) by (repeat constructor).
  assert (E : merge_referendum_and_areas sample_referendum sample_areas
              = Ok sample_joined) by reflexivity.
  split; [exact R|]. split; [exact E|].
  exact (joined_table_has_no_missing_cell sample_referendum sample_areas sample_joined R E).
Defined.

(** ** Zero filling *)

Lemma Forall2_map_in (A B : Type) (P : A -> B -> Prop) (f : A -> B) (l : list A) :
  (forall a, In a l -> P a (f a)) -> Forall2 P l (map f l).
Proof.
  induction l as [|a l IH]; simpl; intros H; constructor.
  - apply H. now left.
  - apply IH. intros; apply H; now right.
Qed.

(** [zfill] to width 2 is the plain left padding, except on a lone sign. *)
Lemma zfill_2 (t : string) :
  zfill 2 t = if lone_sign t then String.append t "0" else pad_left "0" 2 t.
Proof.
  destruct t as [|c [|d t]].
  - reflexivity.
  - unfold zfill, lone_sign, pad_left. cbn [String.length Nat.leb Nat.sub string_repeat].
    cbn [String.eqb]. rewrite !andb_true_r || idtac.
    destruct (Ascii.eqb c "+") eqn:E1; destruct (Ascii.eqb c "-") eqn:E2; cbn;
      try reflexivity.
  - unfold zfill, lone_sign, pad_left. cbn [String.length Nat.leb Nat.sub string_repeat].
    cbn [String.eqb]. destruct (Ascii.eqb c "+"), (Ascii.eqb c "-"); reflexivity.
Qed.

Lemma zfill_wide (w : nat) (t : string) :
  (w <= String.length t)%nat -> zfill w t = t.
Proof.
  intros H. unfold zfill. apply Nat.leb_le in H. now rewrite H.
Qed.

(** C5 (amended).  For every row that survived the filter, [code_dep]
    is the text of the department code filled with [0] on the left up
    to width 2 (so [1] becomes [01] and a text of length 2 or more is
    unchanged), except that a lone sign keeps its place and the zero
    follows it. *)
Theorem code_dep_is_zero_filled (referendum filtered derived : DataFrame) :
  rectangular referendum ->
  referendum_filtered referendum = Ok filtered ->
  with_code_dep filtered = Ok derived ->
  Forall2 (fun r r' =>
             let t := text (cell "Department code" (columns filtered) r) in
             cell "code_dep" (columns derived) r'
             = Str (if lone_sign t then String.append t "0" else pad_left "0" 2 t) /\
             ((2 <= String.length t)%nat -> cell "code_dep" (columns derived) r' = Str t))
          (rows filtered) (rows derived) /\
  pad_left "0" 2 "1" = "01".
Proof.
  intros R Hf Hd. split; [|reflexivity].
  pose proof (rectangular_filtered _ _ R Hf) as Rf.
  apply with_code_dep_Ok in Hd as (_ & Hc & Hr). rewrite Hc, Hr.
  apply Forall2_map_in. intros r Hin.
  assert (L : length r = length (columns filtered))
    by now apply (proj1 (Forall_forall _ _) Rf).
  cbv zeta. rewrite derive_row_cell_code_dep by assumption. unfold code_dep_of.
  split.
  - now rewrite zfill_2.
  - intros Hw. now rewrite zfill_wide.
Qed.

Lemma code_dep_is_zero_filled_witness :
  rectangular sample_filtered /\
  referendum_filtered sample_filtered = Ok sample_filtered /\
  with_code_dep sample_filtered = Ok sample_derived /\
  Forall2 (fun r r' =>
             let t := text (cell "Department code" (columns sample_filtered) r) in
             cell "code_dep" (columns sample_derived) r'
             = Str (if lone_sign t then String.append t "0" else pad_left "0" 2 t) /\
             ((2 <= String.length t)%nat ->
              cell "code_dep" (columns sample_derived) r' = Str t))
          (rows sample_filtered) (rows sample_derived) /\
  pad_left "0" 2 "1" = "01".
Proof.
  assert (R : rectangular sample_filtered) by (repeat constructor).
  assert (E1 : referendum_filtered sample_filtered = Ok sample_filtered) by reflexivity.
  assert (E2 : with_code_dep sample_filtered = Ok sample_derived) by reflexivity.
  split; [exact R|]. split; [exact E1|]. split; [exact E2|].
  exact (code_dep_is_zero_filled sample_filtered sample_filtered sample_derived R E1 E2).
Defined.

(** C5 (as stated) fails: the department code [-] survives the filter
    and its [code_dep] is [-0], whereas left padding gives [0-]. *)
Lemma lone_sign_is_not_left_padded :
  referendum_filtered sign_table = Ok sign_table /\
  with_code_dep sign_table = Ok sign_table_derived /\
  cell "code_dep" (columns sign_table_derived) [Str "-"; Int 30; Str "-0"] = Str "-0" /\
  pad_left "0" 2 (text (cell "Department code" (columns sign_table) [Str "-"; Int 30]))
  = "0-" /\
  Str "-0" <> Str (pad_left "0" 2 (text (Str "-"))).
Proof. repeat split. discriminate. Qed.

(** ** Renaming the labels of the regions and of the departments *)

Ltac label_cases :=
  repeat match goal with
    | |- context [String.eqb ?a ?b] => destruct (String.eqb_spec a b)
    | H : context [String.eqb ?a ?b] |- _ => destruct (String.eqb_spec a b)
    end;
  subst; try congruence; try reflexivity; try discriminate.

Lemma input_label_neq (c : label) :
  input_label c ->
  c <> "code_reg" /\ c <> "name_reg" /\ c <> "code_dep" /\ c <> "name_dep".
Proof.
  intros [H _]. unfold derived_label in H. apply has_label_false in H.
  repeat split; intros ->; apply H; simpl; tauto.
Qed.

Lemma input_label_plain (c : label) :
  input_label c -> ends_with "_x" c = false /\ ends_with "_y" c = false.
Proof. intros [_ H]. unfold suffixed in H. now apply orb_false_iff in H. Qed.

Lemma ren_r_cases (c : label) :
  ren_r c = if String.eqb c "code" then "code_reg"
            else if String.eqb c "name" then "name_reg" else c.
Proof.
  unfold ren_r, rename_label. cbn [lookup_label].
  destruct (String.eqb c "code"); [reflexivity|].
  destruct (String.eqb c "name"); reflexivity.
Qed.

Lemma ren_d_cases (c : label) :
  ren_d c = if String.eqb c "region_code" then "code_reg"
            else if String.eqb c "code" then "code_dep"
            else if String.eqb c "name" then "name_dep" else c.
Proof.
  unfold ren_d, rename_label. cbn [lookup_label].
  destruct (String.eqb c "region_code"); [reflexivity|].
  destruct (String.eqb c "code"); [reflexivity|].
  destruct (String.eqb c "name"); reflexivity.
Qed.

Lemma eqb_ren_r (c : label) :
  input_label c ->
  String.eqb "code_reg" (ren_r c) = String.eqb "code" c /\
  String.eqb "name_reg" (ren_r c) = String.eqb "name" c /\
  String.eqb "code_dep" (ren_r c) = false /\
  String.eqb "name_dep" (ren_r c) = false.
Proof.
  intros H. apply input_label_neq in H as (N1 & N2 & N3 & N4).
  rewrite ren_r_cases. repeat split; label_cases.
Qed.

Lemma eqb_ren_d (c : label) :
  input_label c ->
  String.eqb "code_reg" (ren_d c) = String.eqb "region_code" c /\
  String.eqb "code_dep" (ren_d c) = String.eqb "code" c /\
  String.eqb "name_dep" (ren_d c) = String.eqb "name" c /\
  String.eqb "name_reg" (ren_d c) = false.
Proof.
  intros H. apply input_label_neq in H as (N1 & N2 & N3 & N4).
  rewrite ren_d_cases. repeat split; label_cases.
Qed.

Lemma ren_r_inj (c c' : label) :
  input_label c -> input_label c' -> ren_r c = ren_r c' -> c = c'.
Proof.
  intros H H'. apply input_label_neq in H as (N1 & N2 & N3 & N4).
  apply input_label_neq in H' as (N1' & N2' & N3' & N4').
  rewrite !ren_r_cases. label_cases.
Qed.

Lemma ren_d_inj (c c' : label) :
  input_label c -> input_label c' -> ren_d c = ren_d c' -> c = c'.
Proof.
  intros H H'. apply input_label_neq in H as (N1 & N2 & N3 & N4).
  apply input_label_neq in H' as (N1' & N2' & N3' & N4').
  rewrite !ren_d_cases. label_cases.
Qed.

Lemma ren_r_plain (c : label) :
  input_label c -> ends_with "_x" (ren_r c) = false /\ ends_with "_y" (ren_r c) = false.
Proof.
  intros H. apply input_label_plain in H as [H1 H2].
  rewrite ren_r_cases. destruct (String.eqb c "code"); [split; reflexivity|].
  destruct (String.eqb c "name"); [split; reflexivity | now split].
Qed.

Lemma ren_d_plain (c : label) :
  input_label c -> ends_with "_x" (ren_d c) = false /\ ends_with "_y" (ren_d c) = false.
Proof.
  intros H. apply input_label_plain in H as [H1 H2].
  rewrite ren_d_cases. destruct (String.eqb c "region_code"); [split; reflexivity|].
  destruct (String.eqb c "code"); [split; reflexivity|].
  destruct (String.eqb c "name"); [split; reflexivity | now split].
Qed.

Lemma NoDup_map_inj_in (A B : Type) (f : A -> B) (l : list A) :
  (forall x y, In x l -> In y l -> f x = f y -> x = y) ->
  NoDup l -> NoDup (map f l).
Proof.
  intros Hinj H. induction H as [|a l Ha _ IH]; simpl; constructor.
  - intros Hin. apply in_map_iff in Hin as (y & E & Hy).
    apply Hinj in E; [subst; contradiction | now right | now left].
  - apply IH. intros x y Hx Hy. apply Hinj; now right.
Qed.

(** ** Suffixes never clash on plain labels *)

Lemma string_length_append (a b : string) :
  String.length (String.append a b) = (String.length a + String.length b)%nat.
Proof. induction a as [|c a IH]; simpl; [reflexivity | now rewrite IH]. Qed.

Lemma append_inj_r (a b s : string) :
  String.append a s = String.append b s -> a = b.
Proof.
  revert b. induction a as [|c a IH]; intros [|d b] H; simpl in H.
  - reflexivity.
  - apply (f_equal String.length) in H. simpl in H.
    rewrite string_length_append in H. lia.
  - apply (f_equal String.length) in H. simpl in H.
    rewrite string_length_append in H. lia.
  - injection H as -> H. f_equal. now apply IH.
Qed.

Lemma add_suffix_inj (ov : list label) (suf : string) (c c' : label) :
  ends_with suf c = false -> ends_with suf c' = false ->
  add_suffix ov suf c = add_suffix ov suf c' -> c = c'.
Proof.
  intros H H' E. unfold add_suffix in E.
  destruct (has_label c ov), (has_label c' ov).
  - now apply append_inj_r in E.
  - subst c'. now rewrite ends_with_append in H'.
  - subst c. now rewrite ends_with_append in H.
  - assumption.
Qed.

Lemma duplicated_NoDup (seen l : list label) :
  NoDup l -> (forall x, In x l -> ~ In x seen) ->
  Forall (fun b => b = false) (duplicated seen l).
Proof.
  intros H. revert seen. induction H as [|a l Ha _ IH]; intros seen Hs; simpl;
    constructor.
  - apply has_label_false. apply Hs. now left.
  - apply IH. intros x Hx [<-|Hin]; [contradiction|].
    apply (Hs x); [now right | assumption].
Qed.

Lemma suffix_dups_NoDup (orig renamed : list label) :
  NoDup renamed -> suffix_dups orig renamed = false.
Proof.
  intros H. unfold suffix_dups.
  pose proof (duplicated_NoDup [] renamed H (fun _ _ F => F)) as F.
  revert F. generalize (duplicated [] renamed) as B.
  generalize (duplicated [] orig) as A.
  induction A as [|a A IH]; intros [|b B] F; simpl; try reflexivity.
  inversion F; subst. simpl. now apply IH.
Qed.

Lemma left_labels_NoDup (on : label) (lcols rcols : list label) :
  NoDup lcols -> Forall (fun c => ends_with "_x" c = false) lcols ->
  NoDup (left_labels on lcols rcols).
Proof.
  intros H F. apply NoDup_map_inj_in; [|assumption].
  intros x y Hx Hy. apply add_suffix_inj; now apply (proj1 (Forall_forall _ _) F).
Qed.

Lemma right_labels_NoDup (on : label) (lcols rcols : list label) :
  NoDup rcols -> Forall (fun c => ends_with "_y" c = false) rcols ->
  NoDup (right_labels on lcols rcols).
Proof.
  intros H F. apply NoDup_map_inj_in; [|now apply drop_label_NoDup].
  intros x y Hx Hy. apply drop_label_In in Hx as [Hx _], Hy as [Hy _].
  apply add_suffix_inj; now apply (proj1 (Forall_forall _ _) F).
Qed.

(** A join of two frames with distinct plain labels that share the key
    succeeds. *)
Lemma merge_left_plain (left right : DataFrame) (on : label) :
  NoDup (columns left) -> NoDup (columns right) ->
  In on (columns left) -> In on (columns right) ->
  Forall (fun c => ends_with "_x" c = false) (columns left) ->
  Forall (fun c => ends_with "_y" c = false) (columns right) ->
  merge_left left right on
  = Ok {| columns := left_labels on (columns left) (columns right)
                     ++ right_labels on (columns left) (columns right);
          rows := flat_map (join_row on (columns left) (columns right) (rows right))
                           (rows left) |}.
Proof.
  intros N1 N2 I1 I2 F1 F2. apply merge_left_total.
  - now apply count_one.
  - now apply count_one.
  - apply suffix_dups_NoDup. now apply left_labels_NoDup.
  - apply suffix_dups_NoDup. now apply right_labels_NoDup.
Qed.

(** ** The merged table of regions and departments *)

Lemma cells_repeat (l : label) (cols : list label) (v : value) :
  cells l cols (repeat v (length cols)) = repeat v (count l cols).
Proof.
  unfold cells, count. induction cols as [|c cols IH]; simpl; [reflexivity|].
  destruct (String.eqb l c); simpl; now rewrite IH.
Qed.

Section AreaMerger.

Variables regions departments : DataFrame.
Hypothesis HR : region_table regions.
Hypothesis HD : department_table departments.

Let Rc := columns regions.
Let Dc := columns departments.
Let R' := map ren_r Rc.
Let D' := map ren_d Dc.

Lemma regions_labels : Forall input_label Rc.
Proof. apply HR. Qed.

Lemma departments_labels : Forall input_label Dc.
Proof. apply HD. Qed.

Lemma renamed_regions_NoDup : NoDup R'.
Proof.
  apply NoDup_map_inj_in; [|apply HR].
  intros x y Hx Hy.
  apply ren_r_inj; now apply (proj1 (Forall_forall _ _) regions_labels).
Qed.

Lemma renamed_departments_NoDup : NoDup D'.
Proof.
  apply NoDup_map_inj_in; [|apply HD].
  intros x y Hx Hy.
  apply ren_d_inj; now apply (proj1 (Forall_forall _ _) departments_labels).
Qed.

Lemma renamed_regions_plain : Forall (fun c => ends_with "_y" c = false) R'.
Proof.
  apply Forall_forall. intros c Hc. apply in_map_iff in Hc as (c0 & <- & Hc).
  apply ren_r_plain. now apply (proj1 (Forall_forall _ _) regions_labels).
Qed.

Lemma renamed_departments_plain : Forall (fun c => ends_with "_x" c = false) D'.
Proof.
  apply Forall_forall. intros c Hc. apply in_map_iff in Hc as (c0 & <- & Hc).
  apply ren_d_plain. now apply (proj1 (Forall_forall _ _) departments_labels).
Qed.

Lemma regions_count (l : label) :
  In l Rc -> count l Rc = 1%nat.
Proof. apply count_one, HR. Qed.

Lemma departments_count (l : label) :
  In l Dc -> count l Dc = 1%nat.
Proof. apply count_one, HD. Qed.

Lemma count_renamed_regions :
  count "code_reg" R' = 1%nat /\ count "name_reg" R' = 1%nat /\
  count "code_dep" R' = 0%nat /\ count "name_dep" R' = 0%nat.
Proof.
  pose proof regions_labels as F. rewrite Forall_forall in F.
  repeat split.
  - unfold R'. rewrite count_map with (l' := "code").
    + apply regions_count, HR.
    + intros c Hc. apply (eqb_ren_r c (F c Hc)).
  - unfold R'. rewrite count_map with (l' := "name").
    + apply regions_count, HR.
    + intros c Hc. apply (eqb_ren_r c (F c Hc)).
  - apply count_zero. intros H. apply in_map_iff in H as (c & E & Hc).
    destruct (eqb_ren_r c (F c Hc)) as (_ & _ & N & _).
    rewrite E, String.eqb_refl in N. discriminate.
  - apply count_zero. intros H. apply in_map_iff in H as (c & E & Hc).
    destruct (eqb_ren_r c (F c Hc)) as (_ & _ & _ & N).
    rewrite E, String.eqb_refl in N. discriminate.
Qed.

Lemma count_renamed_departments :
  count "code_reg" D' = 1%nat /\ count "code_dep" D' = 1%nat /\
  count "name_dep" D' = 1%nat /\ count "name_reg" D' = 0%nat.
Proof.
  pose proof departments_labels as F. rewrite Forall_forall in F.
  repeat split.
  - unfold D'. rewrite count_map with (l' := "region_code").
    + apply departments_count, HD.
    + intros c Hc. apply (eqb_ren_d c (F c Hc)).
  - unfold D'. rewrite count_map with (l' := "code").
    + apply departments_count, HD.
    + intros c Hc. apply (eqb_ren_d c (F c Hc)).
  - unfold D'. rewrite count_map with (l' := "name").
    + apply departments_count, HD.
    + intros c Hc. apply (eqb_ren_d c (F c Hc)).
  - apply count_zero. intros H. apply in_map_iff in H as (c & E & Hc).
    destruct (eqb_ren_d c (F c Hc)) as (_ & _ & _ & N).
    rewrite E, String.eqb_refl in N. discriminate.
Qed.

(** None of the four output labels is shared by the two renamed tables. *)
Lemma area_labels_not_shared (l : label) :
  In l area_columns -> ~ In l (overlap "code_reg" D' R').
Proof.
  destruct count_renamed_regions as (_ & _ & R3 & R4).
  destruct count_renamed_departments as (_ & _ & _ & D4).
  intros Hl Hov. apply overlap_In in Hov as (H1 & H2 & H3).
  simpl in Hl. destruct Hl as [<-|[<-|[<-|[<-|[]]]]].
  - congruence.
  - apply count_zero in D4. contradiction.
  - apply count_zero in R3. contradiction.
  - apply count_zero in R4. contradiction.
Qed.

Lemma merged_counts :
  let LL := left_labels "code_reg" D' R' in
  let RL := right_labels "code_reg" D' R' in
  (count "code_reg" LL = 1 /\ count "code_reg" RL = 0)%nat /\
  (count "name_reg" LL = 0 /\ count "name_reg" RL = 1)%nat /\
  (count "code_dep" LL = 1 /\ count "code_dep" RL = 0)%nat /\
  (count "name_dep" LL = 1 /\ count "name_dep" RL = 0)%nat.
Proof.
  destruct count_renamed_regions as (R1 & R2 & R3 & R4).
  destruct count_renamed_departments as (D1 & D2 & D3 & D4).
  cbv zeta.
  rewrite !count_left_labels, !count_right_labels, !count_drop_label;
    try reflexivity; try (apply area_labels_not_shared; simpl; tauto).
  cbn [String.eqb Ascii.eqb Bool.eqb]. cbn. tauto.
Qed.

Lemma department_row_cells (d : list value) :
  length d = length Dc ->
  cells "code_reg" D' d = [cell "region_code" Dc d] /\
  cells "code_dep" D' d = [cell "code" Dc d] /\
  cells "name_dep" D' d = [cell "name" Dc d] /\
  cells "name_reg" D' d = [].
Proof.
  intros L. pose proof departments_labels as F. rewrite Forall_forall in F.
  destruct HD as (_ & I1 & I2 & I3 & _).
  repeat split.
  - unfold D'. rewrite cells_map_labels with (l' := "region_code").
    + apply cells_one; [assumption | now apply departments_count].
    + intros c Hc. apply (eqb_ren_d c (F c Hc)).
  - unfold D'. rewrite cells_map_labels with (l' := "code").
    + apply cells_one; [assumption | now apply departments_count].
    + intros c Hc. apply (eqb_ren_d c (F c Hc)).
  - unfold D'. rewrite cells_map_labels with (l' := "name").
    + apply cells_one; [assumption | now apply departments_count].
    + intros c Hc. apply (eqb_ren_d c (F c Hc)).
  - apply cells_none, count_zero, count_renamed_departments.
Qed.

Lemma region_row_cells (a : list value) :
  length a = length Rc ->
  cells "name_reg" R' a = [cell "name" Rc a] /\
  cells "code_dep" R' a = [] /\
  cells "name_dep" R' a = [].
Proof.
  intros L. pose proof regions_labels as F. rewrite Forall_forall in F.
  destruct HR as (_ & I1 & I2 & _).
  repeat split.
  - unfold R'. rewrite cells_map_labels with (l' := "name").
    + apply cells_one; [assumption | now apply regions_count].
    + intros c Hc. apply (eqb_ren_r c (F c Hc)).
  - apply cells_none, count_zero, count_renamed_regions.
  - apply cells_none, count_zero, count_renamed_regions.
Qed.

Lemma renamed_keys (d a : list value) :
  cell "code_reg" D' d = cell "region_code" Dc d /\
  cell "code_reg" R' a = cell "code" Rc a.
Proof.
  pose proof departments_labels as FD. rewrite Forall_forall in FD.
  pose proof regions_labels as FR. rewrite Forall_forall in FR.
  unfold cell, D', R'. split.
  - rewrite cells_map_labels with (l' := "region_code"); [reflexivity|].
    intros c Hc. apply (eqb_ren_d c (FD c Hc)).
  - rewrite cells_map_labels with (l' := "code"); [reflexivity|].
    intros c Hc. apply (eqb_ren_r c (FR c Hc)).
Qed.

(** The selection of the four columns, on one row. *)
Let project (r : list value) : list value :=
  flat_map (fun l => cells l (left_labels "code_reg" D' R'
                              ++ right_labels "code_reg" D' R') r)
           area_columns.

Lemma project_row (d t : list value) (nr : value) :
  length d = length Dc ->
  cells "code_reg" (drop_label "code_reg" R') t = [] ->
  cells "name_reg" (drop_label "code_reg" R') t = [nr] ->
  cells "code_dep" (drop_label "code_reg" R') t = [] ->
  cells "name_dep" (drop_label "code_reg" R') t = [] ->
  project (d ++ t) = area_row Dc d nr.
Proof.
  intros L T1 T2 T3 T4.
  destruct (department_row_cells d L) as (C1 & C2 & C3 & C4).
  assert (LL : length (left_labels "code_reg" D' R') = length d).
  { rewrite left_labels_length. unfold D'. now rewrite length_map. }
  unfold project, area_columns, area_row. cbn [flat_map].
  rewrite !cells_app by exact LL.
  rewrite !cells_left_labels, !cells_right_labels;
    try reflexivity; try (apply area_labels_not_shared; simpl; tauto).
  rewrite C1, C2, C3, C4, T1, T2, T3, T4. reflexivity.
Qed.

Lemma project_unmatched (d : list value) :
  length d = length Dc ->
  project (d ++ repeat NA (length (drop_label "code_reg" R'))) = area_row Dc d NA.
Proof.
  destruct count_renamed_regions as (R1 & R2 & R3 & R4).
  intros L. apply project_row; try assumption;
    rewrite cells_repeat, count_drop_label; cbn [String.eqb Ascii.eqb Bool.eqb];
    cbn; rewrite ?R2, ?R3, ?R4; reflexivity.
Qed.

Lemma project_matched (d a : list value) :
  length d = length Dc -> length a = length Rc ->
  project (d ++ drop_cells "code_reg" R' a) = area_row Dc d (cell "name" Rc a).
Proof.
  intros L La. destruct (region_row_cells a La) as (A1 & A2 & A3).
  apply project_row; try assumption.
  - apply cells_none. intros H. apply drop_label_In in H. tauto.
  - rewrite cells_drop_label by discriminate. exact A1.
  - rewrite cells_drop_label by discriminate. exact A2.
  - rewrite cells_drop_label by discriminate. exact A3.
Qed.

Lemma project_block (d : list value) :
  length d = length Dc ->
  map project (join_row "code_reg" D' R' (rows regions) d)
  = area_block regions Dc d.
Proof.
  intros L. unfold join_row, area_block.
  assert (E : matches "code_reg" D' R' (rows regions) d = region_matches regions Dc d).
  { unfold matches, region_matches. apply filter_ext. intros a.
    destruct (renamed_keys d a) as [-> ->]. reflexivity. }
  rewrite E.
  destruct (region_matches regions Dc d) as [|m ms] eqn:Em.
  - cbn [map]. now rewrite project_unmatched.
  - rewrite map_map. apply map_ext_in. intros a Ha.
    apply project_matched; [assumption|].
    rewrite <- Em in Ha. apply filter_In in Ha as [Ha _].
    destruct HR as ((_ & Rect) & _).
    now apply (proj1 (Forall_forall _ _) Rect).
Qed.

(** What [merge_regions_and_departments] returns on the tables of the
    data model. *)
Lemma merge_regions_and_departments_rows :
  merge_regions_and_departments regions departments
  = Ok {| columns := area_columns;
          rows := flat_map (area_block regions Dc) (rows departments) |}.
Proof.
  unfold merge_regions_and_departments.
  destruct count_renamed_regions as (R1 & _).
  destruct count_renamed_departments as (D1 & _).
  rewrite merge_left_plain.
  - cbn [bind]. unfold getitem_list. cbn [columns rows rename].
    fold ren_r ren_d. fold Rc Dc. fold R' D'.
    destruct merged_counts as ((L1 & L1') & (L2 & L2') & (L3 & L3') & (L4 & L4')).
    assert (C : forall l, In l area_columns ->
              count l (left_labels "code_reg" D' R' ++ right_labels "code_reg" D' R')
              = 1%nat).
    { intros l Hl. rewrite count_app. simpl in Hl.
      destruct Hl as [<-|[<-|[<-|[<-|[]]]]]; lia. }
    assert (Hfind : find (fun l => negb (has_label l (left_labels "code_reg" D' R'
                                   ++ right_labels "code_reg" D' R'))) area_columns = None).
    { destruct (find _ area_columns) eqn:E; [|reflexivity].
      apply find_some in E as [Hin E]. apply negb_true_iff, has_label_false in E.
      exfalso. apply E, count_In. rewrite C by assumption. lia. }
    fold area_columns. rewrite Hfind. f_equal. f_equal.
    + unfold area_columns. cbn [flat_map].
      rewrite !filter_eqb_one by (apply C; simpl; tauto). reflexivity.
    + fold project. rewrite map_flat_map. apply flat_map_ext_in. intros d Hd.
      apply project_block. destruct HD as ((_ & Rect) & _).
      now apply (proj1 (Forall_forall _ _) Rect).
  - apply renamed_departments_NoDup.
  - apply renamed_regions_NoDup.
  - apply count_In. change (0 < count "code_reg" D')%nat. lia.
  - apply count_In. change (0 < count "code_reg" R')%nat. lia.
  - apply renamed_departments_plain.
  - apply renamed_regions_plain.
Qed.

End AreaMerger.

Lemma matches_unique (A : Type) (key : A -> value) (k : value) (l : list A) :
  NoDup (map key l) ->
  (length (filter (fun a => value_eqb k (key a)) l) <= 1)%nat.
Proof.
  induction l as [|a l IH]; simpl; intros H; [lia|].
  inversion H as [|? ? Hn Hd]; subst.
  destruct (value_eqb k (key a)) eqn:E; simpl.
  - apply value_eqb_eq in E. subst k.
    rewrite filter_none; [simpl; lia|].
    intros b Hb. apply value_eqb_neq. intros E. apply Hn. rewrite E.
    now apply in_map.
  - now apply IH.
Qed.

Lemma area_block_unique (regions : DataFrame) (dcols : list label) (d : list value) :
  NoDup (map (cell "code" (columns regions)) (rows regions)) ->
  area_block regions dcols d = [area_row dcols d (region_name regions dcols d)].
Proof.
  intros H. unfold area_block, region_name.
  pose proof (matches_unique _ (cell "code" (columns regions))
                (cell "region_code" dcols d) (rows regions) H) as L.
  fold (region_matches regions dcols d) in L.
  destruct (region_matches regions dcols d) as [|a [|b t]]; simpl in *;
    try reflexivity. lia.
Qed.

Lemma area_block_length (regions : DataFrame) (dcols : list label) (d : list value) :
  (1 <= length (area_block regions dcols d))%nat.
Proof.
  unfold area_block. destruct (region_matches regions dcols d); simpl; lia.
Qed.

Lemma flat_map_length_ge (A B : Type) (f : A -> list B) (l : list A) :
  (forall a, 1 <= length (f a))%nat -> (length l <= length (flat_map f l))%nat.
Proof.
  intros H. induction l as [|a l IH]; simpl; [lia|].
  rewrite length_app. specialize (H a). lia.
Qed.

Lemma flat_map_singleton (A B : Type) (f : A -> list B) (g : A -> B) (l : list A) :
  (forall a, f a = [g a]) -> flat_map f l = map g l.
Proof.
  intros H. induction l as [|a l IH]; simpl; [reflexivity|].
  now rewrite H, IH.
Qed.

(** C2 (amended).  On Region and Department tables the merged table
    has exactly the columns [code_reg], [name_reg], [code_dep],
    [name_dep].  Nothing is deduplicated: its rows are the blocks of
    the department rows, in the order of the Department table, and the
    block of a department row holds one row per region row that carries
    its region code (a single row with a missing [name_reg] when there
    is none); so that it never has fewer rows than the Department
    table.  It has exactly as many rows, one per department row and in
    the same order, when no region code occurs twice. *)
Theorem merged_areas_shape (regions departments : DataFrame) :
  region_table regions -> department_table departments ->
  exists out,
    merge_regions_and_departments regions departments = Ok out /\
    columns out = ["code_reg"; "name_reg"; "code_dep"; "name_dep"] /\
    rows out = flat_map (area_block regions (columns departments)) (rows departments) /\
    (forall d,
       (region_matches regions (columns departments) d = [] ->
        area_block regions (columns departments) d
        = [area_row (columns departments) d NA]) /\
       (region_matches regions (columns departments) d <> [] ->
        area_block regions (columns departments) d
        = map (fun a => area_row (columns departments) d
                                 (cell "name" (columns regions) a))
              (region_matches regions (columns departments) d)) /\
       length (area_block regions (columns departments) d)
       = Nat.max 1 (length (region_matches regions (columns departments) d))) /\
    (length (rows departments) <= length (rows out))%nat /\
    (NoDup (map (cell "code" (columns regions)) (rows regions)) ->
     length (rows out) = length (rows departments) /\
     rows out = map (fun d => area_row (columns departments) d
                                       (region_name regions (columns departments) d))
                    (rows departments)).
Proof.
  intros HR HD. eexists. split; [now apply merge_regions_and_departments_rows|].
  cbn [columns rows]. split; [reflexivity|]. split; [reflexivity|]. split; [|split].
  - intros d. unfold area_block.
    destruct (region_matches regions (columns departments) d) as [|m ms].
    + repeat split; congruence.
    + repeat split; try congruence. cbn [length]. now rewrite length_map.
  - apply flat_map_length_ge. intros d. apply area_block_length.
  - intros H.
    assert (E : flat_map (area_block regions (columns departments)) (rows departments)
                = map (fun d => area_row (columns departments) d
                                  (region_name regions (columns departments) d))
                      (rows departments)).
    { apply flat_map_singleton. intros d. now apply area_block_unique. }
    rewrite E, length_map. split; reflexivity.
Qed.

Ltac each_row H :=
  simpl in H; repeat (destruct H as [<-|H]; [eexists; reflexivity|]); contradiction.

Lemma region_table_sample : region_table sample_regions.
Proof.
  split; [split|split; [|split; [|split]]]; simpl; try tauto.
  - repeat constructor; simpl; intuition discriminate.
  - repeat constructor.
  - repeat constructor.
  - intros r H. each_row H.
Qed.

Lemma department_table_sample : department_table sample_departments.
Proof.
  split; [split|split; [|split; [|split; [|split]]]]; simpl; try tauto.
  - repeat constructor; simpl; intuition discriminate.
  - repeat constructor.
  - repeat constructor.
  - intros r H. each_row H.
Qed.

Lemma merged_areas_shape_witness :
  region_table sample_regions /\ department_table sample_departments /\
  merge_regions_and_departments sample_regions sample_departments = Ok sample_areas /\
  exists out,
    merge_regions_and_departments sample_regions sample_departments = Ok out /\
    columns out = ["code_reg"; "name_reg"; "code_dep"; "name_dep"] /\
    rows out = flat_map (area_block sample_regions (columns sample_departments))
                        (rows sample_departments) /\
    (forall d,
       (region_matches sample_regions (columns sample_departments) d = [] ->
        area_block sample_regions (columns sample_departments) d
        = [area_row (columns sample_departments) d NA]) /\
       (region_matches sample_regions (columns sample_departments) d <> [] ->
        area_block sample_regions (columns sample_departments) d
        = map (fun a => area_row (columns sample_departments) d
                                 (cell "name" (columns sample_regions) a))
              (region_matches sample_regions (columns sample_departments) d)) /\
       length (area_block sample_regions (columns sample_departments) d)
       = Nat.max 1 (length (region_matches sample_regions (columns sample_departments) d))) /\
    (length (rows sample_departments) <= length (rows out))%nat /\
    (NoDup (map (cell "code" (columns sample_regions)) (rows sample_regions)) ->
     length (rows out) = length (rows sample_departments) /\
     rows out = map (fun d => area_row (columns sample_departments) d
                                (region_name sample_regions (columns sample_departments) d))
                    (rows sample_departments)).
Proof.
  split; [exact region_table_sample|]. split; [exact department_table_sample|].
  split; [reflexivity|].
  exact (merged_areas_shape sample_regions sample_departments
           region_table_sample department_table_sample).
Defined.

(** C2 (as stated) fails: with two regions that share a code, the one
    department comes out twice. *)
Lemma shared_region_code_repeats_department :
  merge_regions_and_departments twin_regions one_department = Ok twin_areas /\
  length (rows one_department) = 1%nat /\
  length (rows twin_areas) = 2%nat.
Proof. repeat split. Qed.

(** C7.  On Region and Department tables [merge_regions_and_departments]
    raises nothing.  Its rows are the blocks of the department rows,
    in the order of the Department table; no block is empty, every row
    of a block carries the region code, the code and the name of its
    department; and the block of a department whose region code
    matches no region is the single row with a missing [name_reg]. *)
Theorem unmatched_departments_are_kept (regions departments : DataFrame) :
  region_table regions -> department_table departments ->
  exists out,
    merge_regions_and_departments regions departments = Ok out /\
    rows out = flat_map (area_block regions (columns departments)) (rows departments) /\
    (forall d, area_block regions (columns departments) d <> [] /\
               forall r, In r (area_block regions (columns departments) d) ->
                         exists nr, r = area_row (columns departments) d nr) /\
    (forall d, (forall a, In a (rows regions) ->
                  cell "code" (columns regions) a
                  <> cell "region_code" (columns departments) d) ->
               area_block regions (columns departments) d
               = [area_row (columns departments) d NA]).
Proof.
  intros HR HD. eexists. split; [now apply merge_regions_and_departments_rows|].
  cbn [rows]. split; [reflexivity|]. split.
  - intros d. unfold area_block.
    destruct (region_matches regions (columns departments) d) as [|m ms]; split;
      try discriminate.
    + intros r [<-|[]]. eauto.
    + intros r Hr. apply in_map_iff in Hr as (a & <- & _). eauto.
  - intros d Hno. unfold area_block.
    assert (E : region_matches regions (columns departments) d = []).
    { apply filter_none. intros a Ha. apply value_eqb_neq. intros E.
      now apply (Hno a Ha). }
    now rewrite E.
Qed.

Lemma unmatched_departments_are_kept_witness :
  region_table sample_regions /\ department_table sample_departments /\
  merge_regions_and_departments sample_regions sample_departments = Ok sample_areas /\
  exists out,
    merge_regions_and_departments sample_regions sample_departments = Ok out /\
    rows out = flat_map (area_block sample_regions (columns sample_departments))
                        (rows sample_departments) /\
    (forall d, area_block sample_regions (columns sample_departments) d <> [] /\
               forall r, In r (area_block sample_regions (columns sample_departments) d) ->
                         exists nr, r = area_row (columns sample_departments) d nr) /\
    (forall d, (forall a, In a (rows sample_regions) ->
                  cell "code" (columns sample_regions) a
                  <> cell "region_code" (columns sample_departments) d) ->
               area_block sample_regions (columns sample_departments) d
               = [area_row (columns sample_departments) d NA]).
Proof.
  split; [exact region_table_sample|]. split; [exact department_table_sample|].
  split; [reflexivity|].
  exact (unmatched_departments_are_kept sample_regions sample_departments
           region_table_sample department_table_sample).
Defined.

(** ** The order of the group keys *)

Lemma ascii_compare_lt (a b : ascii) :
  Ascii.compare a b = Lt <-> (N_of_ascii a < N_of_ascii b)%N.
Proof. unfold Ascii.compare. apply N.compare_lt_iff. Qed.

Lemma ascii_compare_eq (a b : ascii) : Ascii.compare a b = Eq <-> a = b.
Proof.
  split.
  - apply Ascii.compare_eq_iff.
  - intros ->. unfold Ascii.compare. apply N.compare_refl.
Qed.

Lemma string_compare_eq (s t : string) : String.compare s t = Eq <-> s = t.
Proof.
  split; [apply String.compare_eq_iff|]. intros <-.
  induction s as [|a s IH]; simpl; [reflexivity|].
  now rewrite (proj2 (ascii_compare_eq a a) eq_refl).
Qed.

Lemma string_compare_lt_trans (s t u : string) :
  String.compare s t = Lt -> String.compare t u = Lt -> String.compare s u = Lt.
Proof.
  revert t u. induction s as [|a s IH]; intros [|b t] [|c u]; simpl;
    try discriminate; try reflexivity.
  destruct (Ascii.compare a b) eqn:Eab; try discriminate;
    destruct (Ascii.compare b c) eqn:Ebc; try discriminate; intros H1 H2.
  - apply ascii_compare_eq in Eab, Ebc. subst.
    rewrite (proj2 (ascii_compare_eq c c) eq_refl). now apply IH with (t := t).
  - apply ascii_compare_eq in Eab. subst. now rewrite Ebc.
  - apply ascii_compare_eq in Ebc. subst. now rewrite Eab.
  - apply ascii_compare_lt in Eab. apply ascii_compare_lt in Ebc.
    assert (E : Ascii.compare a c = Lt).
    { apply ascii_compare_lt. now apply N.lt_trans with (m := N_of_ascii b). }
    now rewrite E.
Qed.

Lemma value_compare_eq (a b : value) : value_compare a b = Eq <-> a = b.
Proof.
  destruct a, b; simpl; split; intros H; try discriminate; try reflexivity.
  - apply string_compare_eq in H. now subst.
  - injection H as ->. now apply string_compare_eq.
  - apply Z.compare_eq in H. now subst.
  - injection H as ->. apply Z.compare_refl.
Qed.

Lemma value_compare_antisym (a b : value) :
  value_compare b a = CompOpp (value_compare a b).
Proof.
  destruct a, b; simpl; try reflexivity.
  - apply String.compare_antisym.
  - apply Z.compare_antisym.
Qed.

Lemma value_lt_trans (a b c : value) : value_lt a b -> value_lt b c -> value_lt a c.
Proof.
  unfold value_lt. destruct a, b, c; simpl; try discriminate; try reflexivity.
  - apply string_compare_lt_trans.
  - intros H1 H2. apply Z.compare_lt_iff in H1. apply Z.compare_lt_iff in H2.
    apply Z.compare_lt_iff. now apply Z.lt_trans with (m := z0).
Qed.

Lemma value_lt_irrefl (a : value) : ~ value_lt a a.
Proof.
  unfold value_lt. rewrite (proj2 (value_compare_eq a a) eq_refl). discriminate.
Qed.

Lemma value_compare_gt (a b : value) : value_compare a b = Gt -> value_lt b a.
Proof.
  intros H. unfold value_lt. rewrite value_compare_antisym, H. reflexivity.
Qed.

Lemma insert_key_In (k x : value) (l : list value) :
  In x (insert_key k l) <-> x = k \/ In x l.
Proof.
  induction l as [|y l IH]; simpl.
  - intuition.
  - destruct (value_compare k y) eqn:E; simpl.
    + apply value_compare_eq in E. subst. intuition.
    + intuition.
    + rewrite IH. intuition.
Qed.

Lemma insert_key_sorted (k : value) (l : list value) :
  StronglySorted value_lt l -> StronglySorted value_lt (insert_key k l).
Proof.
  induction 1 as [|y l Hs IH Hy]; simpl.
  - repeat constructor.
  - destruct (value_compare k y) eqn:E.
    + now constructor.
    + constructor; [now constructor|].
      constructor; [exact E|].
      apply Forall_forall. intros z Hz.
      apply value_lt_trans with (b := y); [exact E|].
      now apply (proj1 (Forall_forall _ _) Hy).
    + constructor; [assumption|].
      apply Forall_forall. intros z Hz. apply insert_key_In in Hz as [->|Hz].
      * now apply value_compare_gt.
      * now apply (proj1 (Forall_forall _ _) Hy).
Qed.

Lemma sort_unique_sorted (l : list value) : StronglySorted value_lt (sort_unique l).
Proof.
  induction l as [|k l IH]; simpl; [constructor | now apply insert_key_sorted].
Qed.

Lemma sort_unique_In (x : value) (l : list value) :
  In x (sort_unique l) <-> In x l.
Proof.
  induction l as [|k l IH]; simpl; [tauto|].
  rewrite insert_key_In, IH. intuition.
Qed.

Lemma sorted_NoDup (l : list value) : StronglySorted value_lt l -> NoDup l.
Proof.
  induction 1 as [|y l Hs IH Hy]; constructor; [|assumption].
  intros Hin. apply (proj1 (Forall_forall _ _) Hy) in Hin.
  now apply value_lt_irrefl in Hin.
Qed.

Lemma group_keys_In (key : label) (df : DataFrame) (k : value) :
  In k (group_keys key df) <->
  k <> NA /\ exists r, In r (rows df) /\ cell key (columns df) r = k.
Proof.
  unfold group_keys. rewrite sort_unique_In, filter_In, in_map_iff.
  split.
  - intros ((r & E & Hr) & Hk). split; [|eauto]. intros ->. discriminate.
  - intros (Hk & r & Hr & E). split; [eauto|]. now destruct k.
Qed.

(** ** Grouping and aggregation *)

Lemma mapM_require (spec : list (label * aggfunc)) (cols : list label) (us : list unit) :
  mapM (fun p => require_one (fst p) cols ValueError) spec = Ok us ->
  forall p, In p spec -> count (fst p) cols = 1%nat.
Proof.
  intros H p Hp. apply mapM_Ok_inv in H.
  revert Hp. induction H as [|q u spec us Hq _ IH]; simpl; [tauto|].
  intros [<-|Hp]; [|now apply IH]. now apply require_one_Ok in Hq.
Qed.

Lemma groupby_agg_Ok (df : DataFrame) (key : label) (spec : list (label * aggfunc))
      (out : IndexedFrame) :
  groupby_agg df key spec = Ok out ->
  count key (columns df) = 1%nat /\
  (forall p, In p spec -> count (fst p) (columns df) = 1%nat) /\
  index_name out = key /\
  index out = group_keys key df /\
  columns (body out) = map fst spec /\
  Forall2 (fun k row => agg_row df spec (group_of key df k) = Ok row)
          (index out) (rows (body out)).
Proof.
  unfold groupby_agg. intros H. inv_ok. subst. simpl.
  repeat split; try assumption.
  - now apply mapM_require with (us := a0).
  - now apply mapM_Ok_inv.
Qed.

Lemma groupby_agg_total (df : DataFrame) (key : label) (spec : list (label * aggfunc))
      (f : value -> list value) :
  count key (columns df) = 1%nat ->
  (forall p, In p spec -> count (fst p) (columns df) = 1%nat) ->
  (forall k, In k (group_keys key df) ->
             agg_row df spec (group_of key df k) = Ok (f k)) ->
  groupby_agg df key spec
  = Ok {| index_name := key;
          index := group_keys key df;
          body := {| columns := map fst spec;
                     rows := map f (group_keys key df) |} |}.
Proof.
  intros H1 H2 H3. unfold groupby_agg.
  apply (require_one_Ok _ _ ValueError tt) in H1. rewrite H1. cbn [bind].
  rewrite (mapM_Ok_map _ _ (fun p => require_one (fst p) (columns df) ValueError)
             (fun _ => tt) spec).
  - cbn [bind]. rewrite (mapM_Ok_map _ _ _ f) by exact H3. reflexivity.
  - intros p Hp. now apply require_one_Ok, H2.
Qed.

Lemma drop_cells_absent (l : label) (cols : list label) (row : list value) :
  ~ In l cols -> length row = length cols -> drop_cells l cols row = row.
Proof.
  unfold drop_cells. revert row.
  induction cols as [|c cols IH]; intros [|v row] H L; simpl in *; try discriminate;
    try reflexivity.
  destruct (String.eqb_spec l c) as [->|N]; simpl.
  - exfalso. apply H. now left.
  - f_equal. apply IH; [tauto | lia].
Qed.

Lemma agg_row_length (df : DataFrame) (spec : list (label * aggfunc))
      (g : list (list value)) (row : list value) :
  agg_row df spec g = Ok row -> length row = length spec.
Proof. apply mapM_length. Qed.

(** Moving the index to a column and back changes nothing. *)
Lemma reset_then_set_index (g : IndexedFrame) :
  ~ In (index_name g) (columns (body g)) ->
  Forall2 (fun _ row => length row = length (columns (body g)))
          (index g) (rows (body g)) ->
  (flat <- reset_index g ;; set_index flat (index_name g)) = Ok g.
Proof.
  destruct g as [n i [cols rs]]. cbn [index_name index body columns rows].
  intros Hn F. unfold reset_index. cbn [index_name index body columns rows].
  apply has_label_false in Hn. rewrite Hn. cbn [bind].
  unfold set_index, require_one, count. cbn [columns rows filter].
  rewrite String.eqb_refl. cbn [length].
  apply has_label_false in Hn.
  assert (C : filter (String.eqb n) cols = []).
  { apply filter_none. intros c Hc. apply String.eqb_neq. intros ->. contradiction. }
  rewrite C. cbn [length bind]. f_equal. f_equal.
  - induction F as [|k row i rs _ _ IH]; cbn [combine map]; [reflexivity|].
    rewrite IH. unfold cell, cells. cbn [combine filter fst].
    now rewrite String.eqb_refl.
  - f_equal.
    + unfold drop_label. cbn [filter]. rewrite String.eqb_refl. cbn [negb].
      apply filter_all. intros c Hc. apply negb_true_iff, String.eqb_neq.
      intros ->. contradiction.
    + induction F as [|k row i rs L _ IH]; cbn [combine map]; [reflexivity|].
      rewrite IH. f_equal. unfold drop_cells. cbn [combine filter fst].
      rewrite String.eqb_refl. cbn [negb].
      now apply (drop_cells_absent n cols row).
Qed.

Lemma compute_is_groupby (df : DataFrame) :
  compute_referendum_result_by_regions df = groupby_agg df "code_reg" region_agg.
Proof.
  unfold compute_referendum_result_by_regions.
  destruct (groupby_agg df "code_reg" region_agg) as [g|e] eqn:E; [|reflexivity].
  cbn [bind].
  apply groupby_agg_Ok in E as (_ & _ & Hn & _ & Hc & F).
  rewrite <- Hn. apply reset_then_set_index.
  - rewrite Hn, Hc. simpl. intuition discriminate.
  - rewrite Hc. clear - F. induction F as [|k row i rs Hr _ IH]; constructor; auto.
    apply agg_row_length in Hr. now rewrite length_map.
Qed.

(** X2.  In [compute_referendum_result_by_regions] the calls
    [reset_index()] and [set_index("code_reg")] undo each other: the
    function returns what the grouping and aggregation return, table
    or exception. *)
Theorem reset_and_set_index_cancel (df : DataFrame) :
  compute_referendum_result_by_regions df = groupby_agg df "code_reg" region_agg.
Proof. apply compute_is_groupby. Qed.

(** C10.  The table returned by [compute_referendum_result_by_regions]
    is indexed by [code_reg]; its index holds each region code of the
    input once, in ascending order, and the rows follow the index. *)
Theorem regions_index_sorted_unique (df : DataFrame) (out : IndexedFrame) :
  compute_referendum_result_by_regions df = Ok out ->
  index_name out = "code_reg" /\
  NoDup (index out) /\
  StronglySorted value_lt (index out) /\
  length (rows (body out)) = length (index out) /\
  (forall k, In k (index out) <->
             k <> NA /\ exists r, In r (rows df) /\ cell "code_reg" (columns df) r = k).
Proof.
  rewrite compute_is_groupby. intros H.
  apply groupby_agg_Ok in H as (_ & _ & Hn & Hi & _ & F).
  assert (S : StronglySorted value_lt (index out))
    by (rewrite Hi; apply sort_unique_sorted).
  repeat split; try assumption.
  - now apply sorted_NoDup.
  - symmetry. now apply Forall2_length in F.
  - rewrite Hi in H. now apply group_keys_In in H.
  - rewrite Hi in H. now apply group_keys_In in H.
  - intros (Hk & Hr). rewrite Hi. now apply group_keys_In.
Qed.

Lemma regions_index_sorted_unique_witness :
  compute_referendum_result_by_regions sample_joined = Ok sample_result /\
  index_name sample_result = "code_reg" /\
  NoDup (index sample_result) /\
  StronglySorted value_lt (index sample_result) /\
  length (rows (body sample_result)) = length (index sample_result) /\
  (forall k, In k (index sample_result) <->
             k <> NA /\
             exists r, In r (rows sample_joined) /\
                       cell "code_reg" (columns sample_joined) r = k).
Proof.
  assert (E : compute_referendum_result_by_regions sample_joined = Ok sample_result)
    by reflexivity.
  split; [exact E|].
  exact (regions_index_sorted_unique sample_joined sample_result E).
Defined.

(** ** Sums over groups *)

Lemma int64_small (z : Z) : - 2 ^ 63 <= z < 2 ^ 63 -> int64 z = z.
Proof. intros H. unfold int64. rewrite Z.mod_small; lia. Qed.


Lemma sum_abs_nonneg (zs : list Z) : 0 <= fold_right Z.add 0 (map Z.abs zs).
Proof. induction zs as [|z zs IH]; simpl; lia. Qed.

(** Within the range of the 64-bit integers the additions are exact. *)
Lemma fold_int64_exact (zs : list Z) (a : Z) :
  Z.abs a + fold_right Z.add 0 (map Z.abs zs) < 2 ^ 63 ->
  fold_left (fun a y => int64 (a + y)) zs a = a + fold_right Z.add 0 zs.
Proof.
  revert a. induction zs as [|z zs IH]; intros a H; simpl in *.
  - lia.
  - pose proof (sum_abs_nonneg zs).
    rewrite int64_small by lia. rewrite IH; lia.
Qed.

Lemma sum_int64_exact (zs : list Z) :
  fold_right Z.add 0 (map Z.abs zs) < 2 ^ 63 ->
  sum_int64 zs = fold_right Z.add 0 zs.
Proof.
  destruct zs as [|z zs]; [reflexivity|]. intros H. unfold sum_int64.
  simpl in H. now rewrite fold_int64_exact by lia.
Qed.





Lemma add_values_ints (z : Z) (zs : list Z) :
  add_values (Int z) (map Int zs)
  = Ok (Int (fold_left (fun a y => int64 (a + y)) zs z)).
Proof.
  revert z. induction zs as [|y zs IH]; intros z; simpl; [reflexivity | apply IH].
Qed.

Lemma numeric_notna (s : Series) :
  Forall numeric s -> filter notna s = map Int (map int_of (filter notna s)).
Proof.
  induction 1 as [|v s [->|(z & ->)] _ IH]; simpl; [reflexivity | assumption |].
  now f_equal.
Qed.

Lemma agg_sum_numeric (s : Series) :
  Forall numeric s ->
  agg_sum s = Ok (Int (sum_int64 (map int_of (filter notna s)))).
Proof.
  intros F. unfold agg_sum. pose proof (numeric_notna s F) as E.
  set (zs := map int_of (filter notna s)) in *. rewrite E.
  destruct zs as [|z zs]; [reflexivity|].
  cbn [map sum_int64]. apply add_values_ints.
Qed.

Lemma agg_sum_numeric_column (l : label) (cols : list label) (g : list (list value)) :
  (forall r, In r g -> numeric (cell l cols r)) ->
  agg_sum (map (cell l cols) g) = Ok (Int (sum_int64 (counts_of l cols g))).
Proof.
  intros H. apply agg_sum_numeric.
  apply Forall_forall. intros v Hv. apply in_map_iff in Hv as (r & <- & Hr).
  now apply H.
Qed.

Lemma counts_of_total (l : label) (cols : list label) (g : list (list value)) :
  fold_right Z.add 0 (counts_of l cols g) = column_total l cols g.
Proof.
  unfold counts_of, column_total. induction g as [|r g IH]; [reflexivity|].
  cbn [map filter fold_right].
  destruct (cell l cols r); cbn [notna is_na negb map fold_right int_of];
    rewrite IH; reflexivity.
Qed.

Lemma counts_of_abs (l : label) (cols : list label) (g : list (list value)) :
  fold_right Z.add 0 (map Z.abs (counts_of l cols g)) = column_abs_total l cols g.
Proof.
  unfold counts_of, column_abs_total. induction g as [|r g IH]; [reflexivity|].
  cbn [map filter fold_right].
  destruct (cell l cols r); cbn [notna is_na negb map fold_right int_of];
    rewrite IH; reflexivity.
Qed.

Lemma column_abs_total_nonneg (l : label) (cols : list label) (rs : list (list value)) :
  0 <= column_abs_total l cols rs.
Proof. unfold column_abs_total. induction rs as [|r rs IH]; simpl; lia. Qed.

Lemma column_abs_total_filter_le (l : label) (cols : list label)
      (f : list value -> bool) (rs : list (list value)) :
  column_abs_total l cols (filter f rs) <= column_abs_total l cols rs.
Proof.
  unfold column_abs_total. induction rs as [|r rs IH]; [simpl; lia|].
  cbn [filter]. destruct (f r); cbn [map fold_right]; lia.
Qed.

Lemma column_total_abs_le (l : label) (cols : list label) (rs : list (list value)) :
  Z.abs (column_total l cols rs) <= column_abs_total l cols rs.
Proof.
  unfold column_total, column_abs_total.
  induction rs as [|r rs IH]; cbn [map fold_right]; lia.
Qed.

(** The sum of a group whose absolute values stay within the 64-bit
    integers is the arithmetic sum. *)
Lemma sum_int64_column (l : label) (cols : list label) (g : list (list value)) :
  column_abs_total l cols g < 2 ^ 63 ->
  sum_int64 (counts_of l cols g) = column_total l cols g.
Proof.
  intros H. rewrite sum_int64_exact, counts_of_total; [reflexivity|].
  now rewrite counts_of_abs.
Qed.

Lemma agg_first_column (l : label) (cols : list label) (g : list (list value)) :
  g <> [] -> cell l cols (hd [] g) <> NA ->
  agg_first (map (cell l cols) g) = cell l cols (hd [] g).
Proof.
  destruct g as [|r g]; [congruence|]. simpl. intros _ H.
  unfold agg_first. simpl. destruct (cell l cols r); simpl; congruence.
Qed.

Lemma sum_indicator (k : value) (v : Z) (keys : list value) :
  NoDup keys -> In k keys ->
  fold_right Z.add 0 (map (fun k' => if value_eqb k k' then v else 0) keys) = v.
Proof.
  induction 1 as [|x keys Hx Hnd IH]; simpl; [tauto|].
  intros [->|Hin].
  - rewrite value_eqb_refl.
    assert (E : fold_right Z.add 0 (map (fun k' => if value_eqb k k' then v else 0) keys)
                = 0).
    { clear IH Hnd. induction keys as [|y keys IH]; simpl; [reflexivity|].
      destruct (value_eqb k y) eqn:E.
      - apply value_eqb_eq in E. subst. exfalso. apply Hx. now left.
      - rewrite IH; [reflexivity|]. intros H. apply Hx. now right. }
    rewrite E. lia.
  - destruct (value_eqb k x) eqn:E.
    + apply value_eqb_eq in E. subst. contradiction.
    + now rewrite IH.
Qed.

Lemma sum_map_add (A : Type) (f g : A -> Z) (l : list A) :
  fold_right Z.add 0 (map (fun a => f a + g a) l)
  = fold_right Z.add 0 (map f l) + fold_right Z.add 0 (map g l).
Proof. induction l as [|a l IH]; simpl; [reflexivity | rewrite IH; lia]. Qed.

(** Summing the sums of the groups gives the sum of the whole column. *)
Lemma total_by_groups (key l : label) (cols : list label) (rs : list (list value))
      (keys : list value) :
  NoDup keys -> (forall r, In r rs -> In (cell key cols r) keys) ->
  fold_right Z.add 0
    (map (fun k => column_total l cols
                     (filter (fun r => value_eqb (cell key cols r) k) rs)) keys)
  = column_total l cols rs.
Proof.
  intros Hnd. induction rs as [|r rs IH]; intros Hin.
  - simpl. unfold column_total. simpl.
    induction keys as [|k keys IHk]; simpl; [reflexivity|].
    inversion Hnd; subst. now rewrite IHk.
  - transitivity
      (fold_right Z.add 0
         (map (fun k => (if value_eqb (cell key cols r) k
                         then int_of (cell l cols r) else 0)
                        + column_total l cols
                            (filter (fun r => value_eqb (cell key cols r) k) rs)) keys)).
    + f_equal. apply map_ext. intros k. simpl.
      destruct (value_eqb (cell key cols r) k); reflexivity.
    + rewrite sum_map_add, sum_indicator, IH.
      * reflexivity.
      * intros r' Hr'. apply Hin. now right.
      * assumption.
      * apply Hin. now left.
Qed.

Lemma group_of_In (key : label) (df : DataFrame) (k : value) (r : list value) :
  In r (group_of key df k) <-> In r (rows df) /\ cell key (columns df) r = k.
Proof.
  unfold group_of. rewrite filter_In. now rewrite value_eqb_eq.
Qed.


Lemma region_row_skipna_cell (df : DataFrame) (l : label) (k : value) :
  In l count_labels ->
  cell l ("name_reg" :: count_labels) (region_row_skipna df k)
  = Int (column_total l (columns df) (group_of "code_reg" df k)).
Proof.
  unfold count_labels. simpl.
  intros [<-|[<-|[<-|[<-|[<-|[]]]]]]; reflexivity.
Qed.

(** With small counts the 64-bit sums of a region are the arithmetic
    sums. *)
Lemma region_row_int64_small (df : DataFrame) (k : value) :
  small_counts df -> region_row_int64 df k = region_row_skipna df k.
Proof.
  intros H. unfold region_row_int64, region_row_skipna. cbv zeta. f_equal.
  apply map_ext_in. intros l Hl. f_equal. apply sum_int64_column.
  pose proof (column_abs_total_filter_le l (columns df)
                (fun r => value_eqb (cell "code_reg" (columns df) r) k) (rows df)) as L.
  fold (group_of "code_reg" df k) in L. specialize (H l Hl). lia.
Qed.

Lemma group_of_has_region (df : DataFrame) (k : value) :
  k <> NA ->
  filter (fun r => value_eqb (cell "code_reg" (columns df) r) k)
         (filter (has_region df) (rows df))
  = group_of "code_reg" df k.
Proof.
  intros Hk. unfold group_of. induction (rows df) as [|r rs IH]; [reflexivity|].
  cbn [filter]. unfold has_region at 1.
  destruct (cell "code_reg" (columns df) r) eqn:E; cbn [notna is_na negb filter];
    rewrite ?E, IH; try reflexivity.
  destruct k; [congruence | reflexivity | reflexivity].
Qed.

Section CountTable.

Variable df : DataFrame.
Hypothesis Hdf : region_count_table df.

Lemma count_table_count (l : label) :
  In l ("code_reg" :: "name_reg" :: count_labels) -> count l (columns df) = 1%nat.
Proof.
  intros Hl. destruct Hdf as (N & Hc & _). apply count_one; [assumption | now apply Hc].
Qed.

Lemma agg_row_int64 (k : value) :
  agg_row df region_agg (group_of "code_reg" df k) = Ok (region_row_int64 df k).
Proof.
  destruct Hdf as (_ & _ & Hnum).
  assert (Hsum : forall l, In l count_labels ->
            agg_sum (map (cell l (columns df)) (group_of "code_reg" df k))
            = Ok (Int (sum_int64 (counts_of l (columns df) (group_of "code_reg" df k))))).
  { intros l Hl. apply agg_sum_numeric_column. intros r Hr.
    apply group_of_In in Hr as [Hr _]. now apply Hnum. }
  unfold agg_row, region_agg, region_row_int64, count_labels.
  cbn [mapM fst snd aggregate map bind].
  rewrite !Hsum by (unfold count_labels; simpl; tauto). reflexivity.
Qed.

(** The aggregation of a table whose counts are integers or missing,
    whatever the counts. *)
Lemma compute_on_count_table :
  compute_referendum_result_by_regions df
  = Ok {| index_name := "code_reg";
          index := group_keys "code_reg" df;
          body := {| columns := "name_reg" :: count_labels;
                     rows := map (region_row_int64 df) (group_keys "code_reg" df) |} |}.
Proof.
  rewrite compute_is_groupby.
  rewrite (groupby_agg_total df "code_reg" region_agg (region_row_int64 df)).
  - reflexivity.
  - apply count_table_count. simpl. tauto.
  - intros p Hp. apply count_table_count. right.
    change ("name_reg" :: count_labels) with (map fst region_agg). now apply in_map.
  - intros k _. apply agg_row_int64.
Qed.

(** The same with small counts: the sums are the arithmetic sums. *)
Lemma compute_on_small_count_table :
  small_counts df ->
  compute_referendum_result_by_regions df
  = Ok {| index_name := "code_reg";
          index := group_keys "code_reg" df;
          body := {| columns := "name_reg" :: count_labels;
                     rows := map (region_row_skipna df) (group_keys "code_reg" df) |} |}.
Proof.
  intros H. rewrite compute_on_count_table. do 3 f_equal.
  apply map_ext. intros k. now apply region_row_int64_small.
Qed.

Lemma totals_of_regions (l : label) :
  In l count_labels ->
  column_total l ("name_reg" :: count_labels)
               (map (region_row_skipna df) (group_keys "code_reg" df))
  = column_total l (columns df) (filter (has_region df) (rows df)).
Proof.
  intros Hl. unfold column_total at 1. rewrite map_map.
  rewrite <- (total_by_groups "code_reg" l (columns df) (filter (has_region df) (rows df))
                              (group_keys "code_reg" df)).
  - f_equal. apply map_ext_in. intros k Hk.
    rewrite region_row_skipna_cell by assumption. cbn [int_of].
    apply group_keys_In in Hk as [Hk _]. now rewrite group_of_has_region.
  - apply sorted_NoDup, sort_unique_sorted.
  - intros r Hr. apply filter_In in Hr as [Hr Hn]. apply group_keys_In.
    split; [|eauto]. unfold has_region in Hn. intros E. rewrite E in Hn. discriminate.
Qed.

End CountTable.

Section Aggregation.

Variable df : DataFrame.
Hypothesis Hdf : referendum_area_table df.

Lemma area_table_count (l : label) :
  In l ("code_reg" :: "name_reg" :: count_labels) -> count l (columns df) = 1%nat.
Proof.
  destruct Hdf as ((Hnd & _) & Hcols & _). intros Hl.
  apply count_one; [assumption | now apply Hcols].
Qed.

Lemma area_table_row_length (r : list value) :
  In r (rows df) -> length r = length (columns df).
Proof.
  destruct Hdf as ((_ & Rect) & _). intros Hr.
  now apply (proj1 (Forall_forall _ _) Rect).
Qed.

Lemma area_table_cell_notna (l : label) (r : list value) :
  In l ("code_reg" :: "name_reg" :: count_labels) -> In r (rows df) ->
  cell l (columns df) r <> NA.
Proof.
  destruct Hdf as (_ & Hcols & Hna & _). intros Hl Hr.
  apply (Hna r Hr). apply cell_In; [now apply area_table_row_length | now apply Hcols].
Qed.

Lemma area_count_table : region_count_table df.
Proof.
  destruct Hdf as ((N & _) & Hcols & _ & Hint).
  split; [assumption|]. split; [assumption|].
  intros r l Hr Hl. right. now apply Hint.
Qed.

Lemma group_rows (k : value) (r : list value) :
  In r (group_of "code_reg" df k) -> In r (rows df).
Proof. unfold group_of. intros H. now apply filter_In in H. Qed.

Lemma group_nonempty (k : value) :
  In k (group_keys "code_reg" df) -> group_of "code_reg" df k <> [].
Proof.
  intros H. apply group_keys_In in H as (_ & r & Hr & E).
  assert (Hin : In r (group_of "code_reg" df k)).
  { unfold group_of. apply filter_In. split; [assumption|]. now apply value_eqb_eq. }
  intros E'. now rewrite E' in Hin.
Qed.

(** The region name of a group is that of its first row. *)
Lemma group_first_name (k : value) :
  In k (group_keys "code_reg" df) ->
  agg_first (map (cell "name_reg" (columns df)) (group_of "code_reg" df k))
  = cell "name_reg" (columns df) (hd [] (group_of "code_reg" df k)).
Proof.
  intros Hk. pose proof (group_nonempty k Hk) as Hne.
  apply agg_first_column; [assumption|].
  apply area_table_cell_notna; [simpl; tauto|].
  apply (group_rows k). destruct (group_of "code_reg" df k); [congruence | now left].
Qed.

Lemma region_row_skipna_area (k : value) :
  In k (group_keys "code_reg" df) -> region_row_skipna df k = region_row df k.
Proof.
  intros Hk. unfold region_row_skipna, region_row. cbv zeta.
  now rewrite group_first_name.
Qed.

(** The aggregation of a table handed over by the join, whatever the
    counts. *)
Lemma compute_on_area_table :
  compute_referendum_result_by_regions df
  = Ok {| index_name := "code_reg";
          index := group_keys "code_reg" df;
          body := {| columns := "name_reg" :: count_labels;
                     rows := map (region_row_int64 df) (group_keys "code_reg" df) |} |}.
Proof. apply compute_on_count_table, area_count_table. Qed.

(** The same with small counts: the sums are the arithmetic sums. *)
Lemma compute_on_small_area_table :
  small_counts df ->
  compute_referendum_result_by_regions df
  = Ok {| index_name := "code_reg";
          index := group_keys "code_reg" df;
          body := {| columns := "name_reg" :: count_labels;
                     rows := map (region_row df) (group_keys "code_reg" df) |} |}.
Proof.
  intros H. rewrite (compute_on_small_count_table df area_count_table H).
  do 3 f_equal. apply map_ext_in. intros k Hk. now apply region_row_skipna_area.
Qed.

Lemma region_row_cell (l : label) (k : value) :
  In l count_labels ->
  cell l ("name_reg" :: count_labels) (region_row df k)
  = Int (column_total l (columns df) (group_of "code_reg" df k)).
Proof.
  unfold count_labels. simpl.
  intros [<-|[<-|[<-|[<-|[<-|[]]]]]]; reflexivity.
Qed.

Lemma totals_preserved (l : label) :
  In l count_labels ->
  column_total l ("name_reg" :: count_labels)
               (map (region_row df) (group_keys "code_reg" df))
  = column_total l (columns df) (rows df).
Proof.
  intros Hl. unfold column_total at 1. rewrite map_map.
  rewrite (map_ext _ (fun k => column_total l (columns df)
                                 (filter (fun r => value_eqb (cell "code_reg" (columns df) r) k)
                                         (rows df)))).
  - apply total_by_groups.
    + apply sorted_NoDup, sort_unique_sorted.
    + intros r Hr. apply group_keys_In. split; [|eauto].
      apply area_table_cell_notna; [simpl; tauto | assumption].
  - intros k. now rewrite region_row_cell.
Qed.

End Aggregation.

(** C3.  On a table handed over by [merge_referendum_and_areas], with
    counts whose absolute values add up to less than [2^53] in each
    count column, the aggregation returns one row per distinct
    [code_reg]: the region name of the first row of the group, then the
    arithmetic sums of [Registered], [Abstentions], [Null], [Choice A]
    and [Choice B] over the group; and each of these columns has the
    same total in the output as in the input. *)
Theorem regions_result_sums_groups (df : DataFrame) :
  referendum_area_table df -> small_counts df ->
  exists out,
    compute_referendum_result_by_regions df = Ok out /\
    index_name out = "code_reg" /\
    columns (body out)
    = ["name_reg"; "Registered"; "Abstentions"; "Null"; "Choice A"; "Choice B"] /\
    NoDup (index out) /\
    (forall k, In k (index out) <->
               exists r, In r (rows df) /\ cell "code_reg" (columns df) r = k) /\
    rows (body out) = map (region_row df) (index out) /\
    (forall l, In l count_labels ->
       column_total l (columns (body out)) (rows (body out))
       = column_total l (columns df) (rows df)).
Proof.
  intros H Hs. eexists. split; [now apply compute_on_small_area_table|].
  cbn [index_name index body columns rows].
  split; [reflexivity|]. split; [reflexivity|]. split; [|split; [|split]].
  - apply sorted_NoDup, sort_unique_sorted.
  - intros k. rewrite group_keys_In. split; [tauto|].
    intros (r & Hr & E). split; [|eauto]. subst k.
    apply area_table_cell_notna; [assumption | simpl; tauto | assumption].
  - reflexivity.
  - intros l Hl. now apply totals_preserved.
Qed.

Lemma referendum_area_table_sample : referendum_area_table sample_joined.
Proof.
  split; [|split; [|split]].
  - split; [|repeat constructor].
    repeat constructor; simpl; intuition discriminate.
  - intros l Hl. unfold count_labels in Hl. simpl in *. intuition (subst; tauto).
  - intros r Hr v Hv. simpl in Hr.
    repeat (destruct Hr as [<-|Hr];
            [simpl in Hv; intuition (subst; discriminate)|]).
    contradiction.
  - intros r l Hr Hl. unfold count_labels in Hl. simpl in Hr, Hl.
    repeat (destruct Hr as [<-|Hr];
            [repeat (destruct Hl as [<-|Hl]; [eexists; reflexivity|]); contradiction|]).
    contradiction.
Qed.

Ltac small_table :=
  intros l Hl; unfold count_labels in Hl; simpl in Hl;
  repeat (destruct Hl as [<-|Hl]; [reflexivity|]); contradiction.

Lemma small_counts_sample : small_counts sample_joined.
Proof. small_table. Qed.

Lemma regions_result_sums_groups_witness :
  referendum_area_table sample_joined /\ small_counts sample_joined /\
  compute_referendum_result_by_regions sample_joined = Ok sample_result /\
  exists out,
    compute_referendum_result_by_regions sample_joined = Ok out /\
    index_name out = "code_reg" /\
    columns (body out)
    = ["name_reg"; "Registered"; "Abstentions"; "Null"; "Choice A"; "Choice B"] /\
    NoDup (index out) /\
    (forall k, In k (index out) <->
               exists r, In r (rows sample_joined) /\
                         cell "code_reg" (columns sample_joined) r = k) /\
    rows (body out) = map (region_row sample_joined) (index out) /\
    (forall l, In l count_labels ->
       column_total l (columns (body out)) (rows (body out))
       = column_total l (columns sample_joined) (rows sample_joined)).
Proof.
  split; [exact referendum_area_table_sample|].
  split; [exact small_counts_sample|]. split; [reflexivity|].
  exact (regions_result_sums_groups sample_joined referendum_area_table_sample
           small_counts_sample).
Defined.

(** Outside that range the sums are those of the 64-bit integers: two
    counts of [2^62] add up to [-2^63]. *)
Lemma sums_wrap_around :
  referendum_area_table wide_counts /\
  compute_referendum_result_by_regions wide_counts = Ok wide_counts_result /\
  column_total "Registered" (columns wide_counts) (rows wide_counts) = 2 ^ 63 /\
  column_total "Registered" (columns (body wide_counts_result))
               (rows (body wide_counts_result)) = - 2 ^ 63.
Proof.
  split; [|repeat split].
  split; [|split; [|split]].
  - split; [|repeat constructor].
    repeat constructor; simpl; intuition discriminate.
  - intros l Hl. unfold count_labels in Hl. simpl in *. intuition (subst; tauto).
  - intros r Hr v Hv. simpl in Hr.
    repeat (destruct Hr as [<-|Hr];
            [simpl in Hv; intuition (subst; discriminate)|]).
    contradiction.
  - intros r l Hr Hl. unfold count_labels in Hl. simpl in Hr, Hl.
    repeat (destruct Hr as [<-|Hr];
            [repeat (destruct Hl as [<-|Hl]; [eexists; reflexivity|]); contradiction|]).
    contradiction.
Qed.

(** ** Running the join again *)

Lemma frame_eta (df : DataFrame) :
  {| columns := columns df; rows := rows df |} = df.
Proof. now destruct df. Qed.

Lemma referendum_filtered_eq (df : DataFrame) :
  count "Department code" (columns df) = 1%nat ->
  referendum_filtered df
  = Ok {| columns := columns df; rows := filter (keeps (columns df)) (rows df) |}.
Proof.
  intros H. destruct (referendum_filtered_total df H) as (f & Hf). rewrite Hf.
  apply referendum_filtered_Ok in Hf as (_ & Hc & Hr).
  destruct f as [c r]. simpl in *. now subst.
Qed.

Lemma with_code_dep_eq (df : DataFrame) :
  count "Department code" (columns df) = 1%nat ->
  with_code_dep df
  = Ok {| columns := derived_columns (columns df);
          rows := map (derive_row (columns df)) (rows df) |}.
Proof.
  intros H. destruct (with_code_dep_total df H) as (f & Hf). rewrite Hf.
  apply with_code_dep_Ok in Hf as (_ & Hc & Hr).
  destruct f as [c r]. simpl in *. now subst.
Qed.

Lemma add_suffix_none (suf : string) (cols : list label) :
  map (add_suffix [] suf) cols = cols.
Proof. induction cols as [|c cols IH]; simpl; [reflexivity | now rewrite IH]. Qed.

Lemma suffix_dups_same (cols : list label) : suffix_dups cols cols = false.
Proof.
  unfold suffix_dups. generalize (duplicated [] cols) as B.
  induction B as [|b B IH]; simpl; [reflexivity|].
  rewrite IH. now destruct b.
Qed.

Lemma identity_match (k : value) (keys : list value) :
  NoDup keys -> In k keys ->
  filter (fun a => value_eqb k (cell "code_dep" ["code_dep"] a))
         (map (fun k' => [k']) keys)
  = [[k]].
Proof.
  induction 1 as [|x keys Hx _ IH]; simpl; [tauto|].
  unfold cell at 1. simpl. intros [->|Hin].
  - rewrite value_eqb_refl. f_equal. apply filter_none.
    intros a Ha. apply in_map_iff in Ha as (y & <- & Hy). unfold cell. simpl.
    apply value_eqb_neq. intros ->. contradiction.
  - destruct (value_eqb k x) eqn:E.
    + apply value_eqb_eq in E. subst. contradiction.
    + now apply IH.
Qed.

Lemma drop_label_single (on : label) : drop_label on [on] = [].
Proof. unfold drop_label. simpl. now rewrite String.eqb_refl. Qed.

Lemma overlap_single (on : label) (cols : list label) : overlap on cols [on] = [].
Proof.
  unfold overlap. rewrite drop_label_single. now apply filter_none.
Qed.

Lemma left_labels_single (on : label) (cols : list label) :
  left_labels on cols [on] = cols.
Proof. unfold left_labels. rewrite overlap_single. apply add_suffix_none. Qed.

Lemma right_labels_single (on : label) (cols : list label) :
  right_labels on cols [on] = [].
Proof. unfold right_labels. now rewrite drop_label_single. Qed.

Lemma join_row_identity (cols : list label) (keys : list value) (r : list value) :
  NoDup keys -> In (cell "code_dep" cols r) keys ->
  join_row "code_dep" cols ["code_dep"] (map (fun k => [k]) keys) r = [r].
Proof.
  intros Hn Hin. unfold join_row, matches. rewrite identity_match by assumption.
  cbn [map]. unfold drop_cells. cbn [combine filter fst]. rewrite String.eqb_refl.
  cbn [negb map]. now rewrite app_nil_r.
Qed.

Lemma rerun_fixed_point (out : DataFrame) :
  count "Department code" (columns out) = 1%nat ->
  count "code_dep" (columns out) = 1%nat ->
  rectangular out ->
  (forall r, In r (rows out) -> keeps (columns out) r = true) ->
  (forall r, In r (rows out) ->
             cell "code_dep" (columns out) r = code_dep_of (columns out) r) ->
  (forall r, In r (rows out) -> forallb notna r = true) ->
  merge_referendum_and_areas out (identity_areas out) = Ok out.
Proof.
  intros H1 H2 R H4 H5 H6. unfold merge_referendum_and_areas.
  rewrite referendum_filtered_eq by assumption. cbn [bind].
  rewrite filter_all by assumption. rewrite frame_eta.
  rewrite with_code_dep_eq by assumption. cbn [bind].
  assert (E : has_label "code_dep" (columns out) = true)
    by (apply has_label_In, count_In; lia).
  assert (Hd : derived_columns (columns out) = columns out).
  { unfold derived_columns. now rewrite E. }
  assert (Hr : map (derive_row (columns out)) (rows out) = rows out).
  { rewrite <- map_id. apply map_ext_in. intros r Hin.
    unfold derive_row. rewrite E.
    assert (L : length r = length (columns out))
      by now apply (proj1 (Forall_forall _ _) R).
    apply set_cells_same; [assumption|].
    rewrite cells_one by assumption. intros w [<-|[]]. now apply H5. }
  rewrite Hd, Hr, frame_eta.
  rewrite merge_left_total.
  - cbn [bind]. f_equal. unfold dropna. cbn [columns rows identity_areas].
    rewrite left_labels_single, right_labels_single, app_nil_r.
    rewrite (flat_map_ext_in _ _ _ (fun r => [r])).
    + rewrite (flat_map_singleton _ _ _ (fun r => r)) by reflexivity.
      rewrite map_id, filter_all by assumption. apply frame_eta.
    + intros r Hin. apply join_row_identity.
      * apply sorted_NoDup, sort_unique_sorted.
      * apply sort_unique_In. now apply in_map.
  - assumption.
  - reflexivity.
  - cbn [columns identity_areas]. rewrite left_labels_single. apply suffix_dups_same.
  - cbn [columns identity_areas]. now rewrite right_labels_single.
Qed.

Lemma rectangular_joined (left right joined : DataFrame) (on : label) :
  rectangular left -> rectangular right ->
  merge_left left right on = Ok joined -> rectangular joined.
Proof.
  intros Rl Rr H. unfold rectangular.
  pose proof H as H'. apply merge_left_Ok in H' as (_ & _ & _ & _ & Hc & _).
  apply Forall_forall. intros r Hr.
  destruct (merge_left_row _ _ _ _ _ H Hr) as (l & t & Hl & _ & Hj).
  assert (L : length l = length (columns left))
    by now apply (proj1 (Forall_forall _ _) Rl).
  rewrite Hc, length_app, left_labels_length, right_labels_length.
  destruct (join_row_In _ _ _ _ _ _ Hj) as [[_ ->]|(a & Ha & _ & ->)];
    rewrite length_app.
  - rewrite repeat_length. lia.
  - rewrite drop_cells_length; [lia|].
    now apply (proj1 (Forall_forall _ _) Rr).
Qed.

(** The department code and the derived code of a row of the joined
    table are those of the referendum row it comes from. *)
Lemma joined_row_codes (referendum areas out : DataFrame) (r : list value) :
  rectangular referendum -> ~ In "Department code" (columns areas) ->
  merge_referendum_and_areas referendum areas = Ok out -> In r (rows out) ->
  keeps (columns out) r = true /\
  cell "code_dep" (columns out) r = code_dep_of (columns out) r.
Proof.
  intros R Hn H Hr.
  destruct (joined_row_origin _ _ _ _ R H Hr) as (r0 & t & Hr0 & Hk & -> & Hc).
  assert (L : length r0 = length (columns referendum))
    by now apply (proj1 (Forall_forall _ _) R).
  apply merge_referendum_and_areas_Ok in H as (filtered & derived & joined & Hf & Hd & Hm & ->).
  apply referendum_filtered_Ok in Hf as (C1 & Hfc & _).
  apply with_code_dep_Ok in Hd as (_ & Hdc & _).
  apply merge_left_Ok in Hm as (_ & _ & _ & _ & Hcols & _).
  cbn [columns dropna] in *. rewrite Hcols, Hdc, Hfc in *.
  assert (E : cell "Department code"
                (left_labels "code_dep" (derived_columns (columns referendum))
                             (columns areas)
                 ++ right_labels "code_dep" (derived_columns (columns referendum))
                                 (columns areas))
                (derive_row (columns referendum) r0 ++ t)
              = cell "Department code" (columns referendum) r0).
  { rewrite merged_cell_left.
    - unfold cell. now rewrite derive_row_cells_other by (assumption || discriminate).
    - now apply derive_row_length.
    - reflexivity.
    - intros Ho. apply overlap_In in Ho. tauto.
    - apply count_In. rewrite derived_columns_count by discriminate. lia. }
  split.
  - unfold keeps in *. now rewrite E.
  - rewrite Hc. unfold code_dep_of. now rewrite E.
Qed.

(** X1.  On a referendum table and an area table with distinct labels
    that carry no join suffix, the one with a column [Department code],
    the other with a text column [code_dep],
    [merge_referendum_and_areas] returns a table: it raises nothing. *)
Theorem joiner_returns_a_table (referendum areas : DataFrame) :
  NoDup (columns referendum) -> In "Department code" (columns referendum) ->
  Forall (fun c => ends_with "_x" c = false) (columns referendum) ->
  NoDup (columns areas) -> In "code_dep" (columns areas) ->
  Forall (fun c => ends_with "_y" c = false) (columns areas) ->
  text_column "code_dep" areas ->
  exists out, merge_referendum_and_areas referendum areas = Ok out.
Proof.
  intros N1 I1 F1 N2 I2 F2 _. unfold merge_referendum_and_areas.
  rewrite referendum_filtered_eq by now apply count_one. cbn [bind].
  rewrite with_code_dep_eq by (cbn [columns]; now apply count_one). cbn [bind].
  rewrite merge_left_plain; cbn [columns bind]; eauto.
  - unfold derived_columns. destruct (has_label "code_dep" (columns referendum)) eqn:E;
      [assumption|].
    apply NoDup_app; [assumption | repeat constructor; simpl; tauto|].
    intros c Hc [<-|[]]. apply has_label_false in E. contradiction.
  - apply derived_columns_In.
  - unfold derived_columns. destruct (has_label "code_dep" (columns referendum));
      [assumption|].
    apply Forall_app. split; [assumption | repeat constructor].
Qed.

Lemma joiner_returns_a_table_witness :
  NoDup (columns sample_referendum) /\
  In "Department code" (columns sample_referendum) /\
  Forall (fun c => ends_with "_x" c = false) (columns sample_referendum) /\
  NoDup (columns sample_areas) /\ In "code_dep" (columns sample_areas) /\
  Forall (fun c => ends_with "_y" c = false) (columns sample_areas) /\
  text_column "code_dep" sample_areas /\
  exists out, merge_referendum_and_areas sample_referendum sample_areas = Ok out.
Proof.
  assert (N1 : NoDup (columns sample_referendum))
    by (repeat constructor; simpl; intuition discriminate).
  assert (I1 : In "Department code" (columns sample_referendum))
    by (simpl; tauto).
  assert (F1 : Forall (fun c => ends_with "_x" c = false) (columns sample_referendum))
    by (repeat constructor).
  assert (N2 : NoDup (columns sample_areas))
    by (repeat constructor; simpl; intuition discriminate).
  assert (I2 : In "code_dep" (columns sample_areas)) by (simpl; tauto).
  assert (F2 : Forall (fun c => ends_with "_y" c = false) (columns sample_areas))
    by (repeat constructor).
  assert (T : text_column "code_dep" sample_areas)
    by (intros r H; each_row H).
  repeat (split; [assumption|]).
  exact (joiner_returns_a_table sample_referendum sample_areas N1 I1 F1 N2 I2 F2 T).
Defined.

(** C6.  Joining the table returned by [merge_referendum_and_areas]
    to its identity area table (the single column [code_dep], each code
    once) returns the same columns and the same rows. *)
Theorem joiner_is_idempotent (referendum areas out : DataFrame) :
  rectangular referendum -> rectangular areas ->
  ~ In "Department code" (columns areas) ->
  merge_referendum_and_areas referendum areas = Ok out ->
  merge_referendum_and_areas out (identity_areas out) = Ok out.
Proof.
  intros R Ra Hn H.
  pose proof H as H0.
  apply merge_referendum_and_areas_Ok in H0
    as (filtered & derived & joined & Hf & Hd & Hm & ->).
  pose proof (rectangular_filtered _ _ R Hf) as Rf.
  pose proof (rectangular_derived _ _ Rf Hd) as Rd.
  pose proof (rectangular_joined _ _ _ _ Rd Ra Hm) as Rj.
  pose proof Hf as Hf'. apply referendum_filtered_Ok in Hf' as (C1 & Hfc & _).
  pose proof Hd as Hd'. apply with_code_dep_Ok in Hd' as (_ & Hdc & _).
  pose proof Hm as Hm'. apply merge_left_Ok in Hm' as (K1 & K2 & _ & _ & Hcols & _).
  apply rerun_fixed_point.
  - cbn [columns dropna]. rewrite Hcols, count_app.
    rewrite count_left_labels, count_right_labels, count_drop_label;
      try reflexivity; try (intros Ho; apply overlap_In in Ho; tauto).
    cbn [String.eqb Ascii.eqb Bool.eqb]. cbn.
    rewrite Hdc, derived_columns_count, Hfc, C1 by discriminate.
    apply count_zero in Hn. rewrite Hn. reflexivity.
  - cbn [columns dropna]. rewrite Hcols, count_app.
    rewrite count_left_labels, count_right_labels, count_drop_label;
      try reflexivity; try apply key_not_overlap.
    rewrite String.eqb_refl. lia.
  - unfold rectangular in *. cbn [columns rows dropna].
    apply Forall_forall. intros r Hr. apply filter_In in Hr as [Hr _].
    now apply (proj1 (Forall_forall _ _) Rj).
  - intros r Hr. now apply (joined_row_codes referendum areas _ r R Hn H Hr).
  - intros r Hr. now apply (joined_row_codes referendum areas _ r R Hn H Hr).
  - intros r Hr. cbn [rows dropna] in Hr. now apply filter_In in Hr.
Qed.

Lemma joiner_is_idempotent_witness :
  rectangular sample_referendum /\ rectangular sample_areas /\
  ~ In "Department code" (columns sample_areas) /\
  merge_referendum_and_areas sample_referendum sample_areas = Ok sample_joined /\
  merge_referendum_and_areas sample_joined (identity_areas sample_joined)
  = Ok sample_joined.
Proof.
  assert (R : rectangular sample_referendum) by (repeat constructor).
  assert (Ra : rectangular sample_areas) by (repeat constructor).
  assert (Hn : ~ In "Department code" (columns sample_areas))
    by (simpl; intuition discriminate).
  assert (E : merge_referendum_and_areas sample_referendum sample_areas
              = Ok sample_joined) by reflexivity.
  split; [exact R|]. split; [exact Ra|]. split; [exact Hn|]. split; [exact E|].
  exact (joiner_is_idempotent sample_referendum sample_areas sample_joined R Ra Hn E).
Defined.

(** ** The ratio *)

Lemma series_ratio (rs : list (list value)) (fa fb : list value -> value)
      (s : Series) (qs : list float) :
  series_add (map fa rs) (map fb rs) = Ok s ->
  series_div (map fa rs) s = Ok qs ->
  Forall2 (fun r q => ratio_cell (fa r) (fb r) = Ok q) rs qs.
Proof.
  unfold series_add, series_div. revert s qs.
  induction rs as [|r rs IH]; intros s qs Hs Hq.
  - simpl in Hs. injection Hs as <-. simpl in Hq. injection Hq as <-. constructor.
  - cbn [map combine mapM fst snd] in Hs.
    apply bind_Ok in Hs as (x & Hx & Hs). apply bind_Ok in Hs as (s' & Hs' & Hs).
    injection Hs as <-.
    cbn [map combine mapM fst snd] in Hq.
    apply bind_Ok in Hq as (q & Hq1 & Hq). apply bind_Ok in Hq as (qs' & Hq' & Hq).
    injection Hq as <-.
    constructor.
    + unfold ratio_cell. rewrite Hx. exact Hq1.
    + now apply IH with (s := s').
Qed.

Lemma ratio_column_Ok (gdf : DataFrame) (qs : list float) :
  ratio_column gdf = Ok qs ->
  Forall2 (fun r q => ratio_cell (cell "Choice A" (columns gdf) r)
                                 (cell "Choice B" (columns gdf) r) = Ok q)
          (rows gdf) qs.
Proof.
  unfold ratio_column, getitem. intros H.
  apply bind_Ok in H as (a & Ha & H). apply bind_Ok in Ha as (u & _ & Ha).
  injection Ha as <-.
  apply bind_Ok in H as (b & Hb & H). apply bind_Ok in Hb as (u' & _ & Hb).
  injection Hb as <-.
  apply bind_Ok in H as (s & Hs & H).
  now apply series_ratio with (s := s).
Qed.

Lemma ratio_cell_numeric (a b : value) :
  numeric a -> numeric b -> exists q, ratio_cell a b = Ok q.
Proof.
  intros [->|(x & ->)] [->|(y & ->)]; unfold ratio_cell; simpl; eauto.
Qed.

Lemma series_ratio_total (rs : list (list value)) (fa fb : list value -> value) :
  (forall r, In r rs -> numeric (fa r) /\ numeric (fb r)) ->
  exists s qs, series_add (map fa rs) (map fb rs) = Ok s /\
               series_div (map fa rs) s = Ok qs.
Proof.
  unfold series_add, series_div. induction rs as [|r rs IH]; intros Hnum.
  - simpl. eauto.
  - destruct IH as (s & qs & Hs & Hq); [intros; apply Hnum; now right|].
    destruct (Hnum r (or_introl eq_refl)) as (Na & Nb).
    destruct (ratio_cell_numeric _ _ Na Nb) as (q & Hr).
    unfold ratio_cell in Hr. apply bind_Ok in Hr as (x & Hx & Hr).
    exists (x :: s), (q :: qs).
    cbn [map combine mapM fst snd]. rewrite Hx. cbn [bind]. rewrite Hs. cbn [bind].
    split; [reflexivity|].
    cbn [map combine mapM fst snd]. rewrite Hr. cbn [bind]. rewrite Hq. reflexivity.
Qed.

Lemma ratio_column_total (gdf : DataFrame) :
  count "Choice A" (columns gdf) = 1%nat -> count "Choice B" (columns gdf) = 1%nat ->
  (forall r, In r (rows gdf) ->
     numeric (cell "Choice A" (columns gdf) r) /\
     numeric (cell "Choice B" (columns gdf) r)) ->
  exists qs, ratio_column gdf = Ok qs.
Proof.
  intros HA HB Hnum. unfold ratio_column, getitem.
  apply (require_one_Ok _ _ AttributeError tt) in HA.
  apply (require_one_Ok _ _ AttributeError tt) in HB. rewrite HA, HB.
  cbn [bind].
  destruct (series_ratio_total (rows gdf) _ _ Hnum) as (s & qs & Hs & Hq).
  rewrite Hs. cbn [bind]. eauto.
Qed.


(** *** Integers as floats *)

Lemma digits2_iter_xO (p n : positive) :
  digits2_pos (Pos.iter xO p n) = (digits2_pos p + n)%positive.
Proof.
  induction n as [|n IH] using Pos.peano_ind.
  - simpl. now rewrite Pos.add_1_r.
  - rewrite Pos.iter_succ. simpl. rewrite IH. lia.
Qed.

Lemma iter_xO_value (p n : positive) :
  Zpos (Pos.iter xO p n) = Zpos p * 2 ^ Zpos n.
Proof.
  induction n as [|n IH] using Pos.peano_ind.
  - simpl. lia.
  - rewrite Pos.iter_succ, Pos2Z.inj_xO, IH, Pos2Z.inj_succ, Z.pow_succ_r; lia.
Qed.

Lemma digits2_pos_size (p : positive) : digits2_pos p = Pos.size p.
Proof. induction p; simpl; congruence. Qed.

Lemma digits2_bound (p : positive) :
  Zpos p < 2 ^ 53 -> Zpos (digits2_pos p) <= 53.
Proof.
  intros H. rewrite digits2_pos_size.
  pose proof (Pos.size_le p) as L.
  assert (L' : 2 ^ Zpos (Pos.size p) <= 2 * Zpos p).
  { change (2 * Zpos p) with (Zpos p~0). rewrite <- Pos2Z.inj_pow. lia. }
  destruct (Z.le_gt_cases (Zpos (Pos.size p)) 53) as [|G]; [assumption|].
  exfalso.
  assert (2 ^ 54 <= 2 ^ Zpos (Pos.size p)) by (apply Z.pow_le_mono_r; lia).
  change (2 ^ 54) with (2 * 2 ^ 53) in *. lia.
Qed.

(** A mantissa of 53 bits with an exponent in range is left as it is. *)
Lemma binary_round_aux_canonical (s : bool) (m : positive) (e : Z) :
  Zpos (digits2_pos m) = 53 -> -1074 <= e <= 971 ->
  binary_round_aux prec emax s (Zpos m) e loc_Exact = S754_finite s m e.
Proof.
  intros D He.
  assert (E : shr_fexp prec emax (Zpos m) e loc_Exact
              = ({| shr_m := Zpos m; shr_r := false; shr_s := false |}, e)).
  { unfold shr_fexp, Zdigits2. rewrite D.
    replace (fexp prec emax (53 + e) - e) with 0; [reflexivity|].
    unfold fexp, SpecFloat.emin, prec, emax. lia. }
  unfold binary_round_aux. rewrite E.
  cbn [shr_m loc_of_shr_record round_nearest_even]. rewrite E. cbn [shr_m].
  replace (e <=? emax - prec) with true; [reflexivity|].
  symmetry. apply Z.leb_le. unfold emax, prec. lia.
Qed.

(** Rounding an integer of at most 53 bits only shifts it to the left. *)
Lemma binary_round_small (s : bool) (p : positive) :
  Zpos (digits2_pos p) <= 53 ->
  exists m,
    binary_round prec emax s p 0 = S754_finite s m (Zpos (digits2_pos p) - 53) /\
    Zpos m = Zpos p * 2 ^ (53 - Zpos (digits2_pos p)) /\
    Zpos (digits2_pos m) = 53.
Proof.
  intros D. unfold binary_round.
  replace (fexp prec emax (Zpos (digits2_pos p) + 0)) with (Zpos (digits2_pos p) - 53)
    by (unfold fexp, SpecFloat.emin, prec, emax; lia).
  unfold shl_align.
  destruct (Zpos (digits2_pos p) - 53 - 0) as [|d|d] eqn:E; try lia.
  - exists p. rewrite binary_round_aux_canonical by lia.
    replace (Zpos (digits2_pos p) - 53) with 0 by lia.
    replace (53 - Zpos (digits2_pos p)) with 0 by lia.
    repeat split; lia.
  - exists (Pos.iter xO p d).
    assert (D' : Zpos (digits2_pos (Pos.iter xO p d)) = 53)
      by (rewrite digits2_iter_xO; lia).
    rewrite binary_round_aux_canonical by lia.
    repeat split; [|assumption].
    rewrite iter_xO_value. f_equal. f_equal. lia.
Qed.

(** The float of an integer below [2^53] in absolute value: its sign,
    and a mantissa and an exponent that give the integer back. *)
Lemma float_of_Z_finite (z : Z) :
  - 2 ^ 53 < z < 2 ^ 53 -> z <> 0 ->
  exists m e,
    Prim2SF (float_of_Z z) = S754_finite (z <? 0) m e /\
    -52 <= e <= 0 /\ Zpos m = Z.abs z * 2 ^ (- e).
Proof.
  intros R N. unfold float_of_Z.
  destruct z as [|p|p]; [congruence| |].
  - assert (Dp : Zpos (digits2_pos p) <= 53) by (apply digits2_bound; lia).
    destruct (binary_round_small false p Dp) as (m & E & V & D).
    exists m, (Zpos (digits2_pos p) - 53).
    cbn [binary_normalize]. rewrite E.
    rewrite Prim2SF_SF2Prim.
    + split; [reflexivity|]. split; [lia|].
      rewrite V. cbn [Z.abs]. f_equal. f_equal. lia.
    + cbn [valid_binary]. unfold bounded, canonical_mantissa. rewrite D.
      apply andb_true_intro. split.
      * apply Z.eqb_eq. unfold fexp, SpecFloat.emin, prec, emax. lia.
      * apply Z.leb_le. unfold prec, emax. lia.
  - assert (Dp : Zpos (digits2_pos p) <= 53) by (apply digits2_bound; lia).
    destruct (binary_round_small true p Dp) as (m & E & V & D).
    exists m, (Zpos (digits2_pos p) - 53).
    cbn [binary_normalize]. rewrite E.
    rewrite Prim2SF_SF2Prim.
    + split; [reflexivity|]. split; [lia|].
      rewrite V. cbn [Z.abs]. f_equal. f_equal. lia.
    + cbn [valid_binary]. unfold bounded, canonical_mantissa. rewrite D.
      apply andb_true_intro. split.
      * apply Z.eqb_eq. unfold fexp, SpecFloat.emin, prec, emax. lia.
      * apply Z.leb_le. unfold prec, emax. lia.
Qed.


(** Below [2^53] in absolute value an integer is held exactly. *)
Lemma float_of_Z_exact (z : Z) :
  - 2 ^ 53 < z < 2 ^ 53 -> float_is (float_of_Z z) z = true.
Proof.
  intros R. destruct (Z.eq_dec z 0) as [->|N]; [reflexivity|].
  destruct (float_of_Z_finite z R N) as (m & e & E & He & V).
  unfold float_is. rewrite E. apply andb_true_intro. split.
  - apply Z.leb_le. lia.
  - apply Z.eqb_eq. rewrite V. unfold cond_Zopp.
    destruct (Z.ltb_spec z 0); [rewrite Z.abs_neq | rewrite Z.abs_eq]; lia.
Qed.

(** *** Divisions that are not ordinary *)













(** *** The ratio of two integer cells *)

Lemma ratio_cell_ints (x y : Z) :
  Z.abs x + Z.abs y < 2 ^ 53 ->
  ratio_cell (Int x) (Int y)
  = Ok (PrimFloat.div (float_of_Z x) (float_of_Z (x + y))).
Proof.
  intros H. unfold ratio_cell. cbn [add_cells bind div_cells].
  now rewrite int64_small by lia.
Qed.

Lemma float_quotient_small (a b : Z) :
  - 2 ^ 53 < a < 2 ^ 53 -> - 2 ^ 53 < b < 2 ^ 53 ->
  float_quotient a b (PrimFloat.div (float_of_Z a) (float_of_Z b)).
Proof.
  intros Ha Hb. exists (float_of_Z a), (float_of_Z b).
  repeat split; now apply float_of_Z_exact.
Qed.







(** ** Tables that lack a column *)

Lemma require_one_absent (l : label) (cols : list label) (e : error) :
  ~ In l cols -> require_one l cols e = Raise (KeyError l).
Proof. intros H. unfold require_one. apply count_zero in H. now rewrite H. Qed.

Lemma require_one_present (l : label) (cols : list label) (e : error) :
  NoDup cols -> In l cols -> require_one l cols e = Ok tt.
Proof. intros N H. apply require_one_Ok. now apply count_one. Qed.

(** X3.  [merge_referendum_and_areas] on tables that lack a column:
    without a column [Department code] in the referendum table the
    first statement raises [KeyError] on that label; with it, and
    without a column [code_dep] in the area table, the join raises
    [KeyError] on [code_dep]; and the function returns a table only
    when each of the two labels names exactly one column. *)
Theorem joiner_raises_without_its_columns (referendum areas : DataFrame) :
  (~ In "Department code" (columns referendum) ->
   merge_referendum_and_areas referendum areas = Raise (KeyError "Department code")) /\
  (count "Department code" (columns referendum) = 1%nat ->
   ~ In "code_dep" (columns areas) ->
   merge_referendum_and_areas referendum areas = Raise (KeyError "code_dep")) /\
  (forall out, merge_referendum_and_areas referendum areas = Ok out ->
     count "Department code" (columns referendum) = 1%nat /\
     count "code_dep" (columns areas) = 1%nat).
Proof.
  repeat split.
  - intros H. unfold merge_referendum_and_areas, referendum_filtered, getitem.
    now rewrite require_one_absent.
  - intros H1 H2. unfold merge_referendum_and_areas.
    destruct (referendum_filtered_total referendum H1) as (f & Ef).
    rewrite Ef. cbn [bind].
    apply referendum_filtered_Ok in Ef as (_ & Ec & _).
    destruct (with_code_dep_total f) as (d & Ed); [now rewrite Ec|].
    rewrite Ed. cbn [bind]. unfold merge_left.
    now rewrite require_one_absent.
  - apply merge_referendum_and_areas_Ok in H as (f & d & j & Ef & _).
    now apply referendum_filtered_Ok in Ef.
  - apply merge_referendum_and_areas_Ok in H as (f & d & j & _ & _ & Ej & _).
    now apply merge_left_Ok in Ej.
Qed.

Lemma joiner_raises_without_its_columns_witness :
  merge_referendum_and_areas sample_areas sample_areas
  = Raise (KeyError "Department code") /\
  merge_referendum_and_areas sample_referendum sample_regions
  = Raise (KeyError "code_dep").
Proof.
  split.
  - apply (joiner_raises_without_its_columns sample_areas sample_areas).
    simpl. intuition discriminate.
  - apply (joiner_raises_without_its_columns sample_referendum sample_regions).
    + reflexivity.
    + simpl. intuition discriminate.
Defined.

Lemma mapM_require_absent (spec : list (label * aggfunc)) (cols : list label) :
  NoDup cols ->
  (exists l, In l (map fst spec) /\ ~ In l cols) ->
  exists l, In l (map fst spec) /\ ~ In l cols /\
            mapM (fun p => require_one (fst p) cols ValueError) spec
            = Raise (KeyError l).
Proof.
  intros N. induction spec as [|p spec IH]; intros (l & Hl & Ha).
  - destruct Hl.
  - cbn [mapM map].
    destruct (in_dec string_dec (fst p) cols) as [Hp|Hp].
    + rewrite require_one_present by assumption. cbn [bind].
      destruct IH as (l' & Hl' & Ha' & E).
      * destruct Hl as [<-|Hl]; [contradiction|]. now exists l.
      * exists l'. rewrite E. repeat split; [now right | assumption].
    + exists (fst p). rewrite require_one_absent by assumption.
      repeat split; [now left | assumption].
Qed.

(** X4.  [compute_referendum_result_by_regions] on tables that lack a
    column: without a column [code_reg] the grouping raises [KeyError]
    on that label; with it, and without one of the six aggregated
    columns, the aggregation raises [KeyError]; and the function
    returns a table only when each of the seven labels names exactly
    one column. *)
Theorem aggregator_raises_without_its_columns (df : DataFrame) :
  (~ In "code_reg" (columns df) ->
   compute_referendum_result_by_regions df = Raise (KeyError "code_reg")) /\
  (NoDup (columns df) -> In "code_reg" (columns df) ->
   (exists l, In l ("name_reg" :: count_labels) /\ ~ In l (columns df)) ->
   exists l, In l ("name_reg" :: count_labels) /\ ~ In l (columns df) /\
             compute_referendum_result_by_regions df = Raise (KeyError l)) /\
  (forall out, compute_referendum_result_by_regions df = Ok out ->
     forall l, In l ("code_reg" :: "name_reg" :: count_labels) ->
               count l (columns df) = 1%nat).
Proof.
  rewrite compute_is_groupby. repeat split.
  - intros H. unfold groupby_agg. now rewrite require_one_absent.
  - intros N H Hl. unfold groupby_agg.
    rewrite require_one_present by assumption. cbn [bind].
    destruct (mapM_require_absent region_agg (columns df) N Hl) as (l & H1 & H2 & E).
    exists l. rewrite E. now repeat split.
  - intros out H l Hl. apply groupby_agg_Ok in H as (Hk & Hs & _).
    destruct Hl as [<-|Hl]; [assumption|].
    change ("name_reg" :: count_labels) with (map fst region_agg) in Hl.
    apply in_map_iff in Hl as (p & <- & Hp). now apply Hs.
Qed.

Lemma aggregator_raises_without_its_columns_witness :
  compute_referendum_result_by_regions sample_referendum = Raise (KeyError "code_reg") /\
  exists l, In l ("name_reg" :: count_labels) /\ ~ In l (columns sample_areas) /\
            compute_referendum_result_by_regions sample_areas = Raise (KeyError l).
Proof.
  split.
  - apply (aggregator_raises_without_its_columns sample_referendum).
    simpl. intuition discriminate.
  - apply (aggregator_raises_without_its_columns sample_areas).
    + repeat constructor; simpl; intuition discriminate.
    + simpl. tauto.
    + exists "Registered". split; [simpl; tauto|]. simpl. intuition discriminate.
Defined.

Lemma renamed_NoDup (f : label -> label) (cols : list label) :
  (forall c c', input_label c -> input_label c' -> f c = f c' -> c = c') ->
  NoDup cols -> Forall input_label cols -> NoDup (map f cols).
Proof.
  intros Hf N F. apply NoDup_map_inj_in; [|assumption].
  intros x y Hx Hy. apply Hf; now apply (proj1 (Forall_forall _ _) F).
Qed.

Lemma In_renamed_regions (l l0 : label) (cols : list label) :
  Forall input_label cols ->
  (forall c, input_label c -> String.eqb l (ren_r c) = String.eqb l0 c) ->
  In l (map ren_r cols) <-> In l0 cols.
Proof.
  intros F H. rewrite <- !count_In.
  rewrite (count_map l l0); [reflexivity|].
  intros c Hc. apply H. now apply (proj1 (Forall_forall _ _) F).
Qed.

Lemma In_renamed_departments (l l0 : label) (cols : list label) :
  Forall input_label cols ->
  (forall c, input_label c -> String.eqb l (ren_d c) = String.eqb l0 c) ->
  In l (map ren_d cols) <-> In l0 cols.
Proof.
  intros F H. rewrite <- !count_In.
  rewrite (count_map l l0); [reflexivity|].
  intros c Hc. apply H. now apply (proj1 (Forall_forall _ _) F).
Qed.

Lemma not_In_renamed (f : label -> label) (l : label) (cols : list label) :
  Forall input_label cols ->
  (forall c, input_label c -> String.eqb l (f c) = false) ->
  ~ In l (map f cols).
Proof.
  intros F H Hin. apply in_map_iff in Hin as (c & E & Hc).
  specialize (H c (proj1 (Forall_forall _ _) F c Hc)).
  rewrite E, String.eqb_refl in H. discriminate.
Qed.

(** A plain label is among the labels of a join when it is among the
    labels of one side. *)
Lemma In_merged_labels (l on : label) (lcols rcols : list label) :
  ends_with "_x" l = false -> ends_with "_y" l = false ->
  In l (left_labels on lcols rcols ++ right_labels on lcols rcols) ->
  In l lcols \/ In l rcols.
Proof.
  intros Hx Hy H. apply in_app_or in H as [H|H];
    apply in_map_iff in H as (c & E & Hc).
  - left. unfold add_suffix in E. destruct (has_label c _) eqn:Ho; [|now subst].
    subst l. now rewrite ends_with_append in Hx.
  - right. apply drop_label_In in Hc as [Hc _].
    unfold add_suffix in E. destruct (has_label c _) eqn:Ho; [|now subst].
    subst l. now rewrite ends_with_append in Hy.
Qed.

Lemma find_some_exists (A : Type) (f : A -> bool) (l : list A) (a : A) :
  In a l -> f a = true -> exists b, In b l /\ f b = true /\ find f l = Some b.
Proof.
  induction l as [|x l IH]; intros Hin Ha; [destruct Hin|].
  cbn [find]. destruct (f x) eqn:Ex.
  - exists x. repeat split; [now left | assumption].
  - destruct Hin as [->|Hin]; [congruence|].
    destruct (IH Hin Ha) as (b & Hb & Fb & E). exists b.
    repeat split; [now right | assumption | assumption].
Qed.

Lemma getitem_list_absent (df : DataFrame) (labels : list label) (l : label) :
  In l labels -> ~ In l (columns df) ->
  exists l', In l' labels /\ ~ In l' (columns df) /\
             getitem_list df labels = Raise (KeyError l').
Proof.
  intros Hl Ha. unfold getitem_list.
  destruct (find_some_exists _ (fun l => negb (has_label l (columns df))) labels l Hl)
    as (b & Hb & Fb & E).
  - apply negb_true_iff. now apply has_label_false.
  - exists b. rewrite E. repeat split; [assumption|].
    apply negb_true_iff in Fb. now apply has_label_false.
Qed.

Lemma getitem_list_Ok (df out : DataFrame) (labels : list label) :
  getitem_list df labels = Ok out -> forall l, In l labels -> In l (columns df).
Proof.
  unfold getitem_list. intros H l Hl.
  destruct (find _ labels) as [b|] eqn:E; [discriminate|].
  pose proof (find_none _ _ E l Hl) as Hn. cbn beta in Hn.
  apply negb_false_iff in Hn. now apply has_label_In.
Qed.

Section MergerColumns.

Variables regions departments : DataFrame.
Hypothesis NR : NoDup (columns regions).
Hypothesis ND : NoDup (columns departments).
Hypothesis FR : Forall input_label (columns regions).
Hypothesis FD : Forall input_label (columns departments).

Let Rc := columns regions.
Let Dc := columns departments.

Lemma In_code_reg_regions : In "code_reg" (map ren_r Rc) <-> In "code" Rc.
Proof. apply In_renamed_regions; [assumption|]. intros c H. apply eqb_ren_r, H. Qed.

Lemma In_name_reg_regions : In "name_reg" (map ren_r Rc) <-> In "name" Rc.
Proof. apply In_renamed_regions; [assumption|]. intros c H. apply eqb_ren_r, H. Qed.

Lemma In_code_reg_departments : In "code_reg" (map ren_d Dc) <-> In "region_code" Dc.
Proof. apply In_renamed_departments; [assumption|]. intros c H. apply eqb_ren_d, H. Qed.

Lemma In_code_dep_departments : In "code_dep" (map ren_d Dc) <-> In "code" Dc.
Proof. apply In_renamed_departments; [assumption|]. intros c H. apply eqb_ren_d, H. Qed.

Lemma In_name_dep_departments : In "name_dep" (map ren_d Dc) <-> In "name" Dc.
Proof. apply In_renamed_departments; [assumption|]. intros c H. apply eqb_ren_d, H. Qed.

Lemma merged_label_origin (l : label) :
  In l ["name_reg"; "code_dep"; "name_dep"] ->
  In l (left_labels "code_reg" (map ren_d Dc) (map ren_r Rc)
        ++ right_labels "code_reg" (map ren_d Dc) (map ren_r Rc)) ->
  (l = "name_reg" /\ In "name" Rc) \/ (l = "code_dep" /\ In "code" Dc)
  \/ (l = "name_dep" /\ In "name" Dc).
Proof.
  intros Hl H.
  assert (Hx : ends_with "_x" l = false)
    by (simpl in Hl; destruct Hl as [<-|[<-|[<-|[]]]]; reflexivity).
  assert (Hy : ends_with "_y" l = false)
    by (simpl in Hl; destruct Hl as [<-|[<-|[<-|[]]]]; reflexivity).
  apply In_merged_labels in H; [|assumption|assumption].
  simpl in Hl. destruct Hl as [<-|[<-|[<-|[]]]]; destruct H as [H|H].
  - exfalso. revert H. apply not_In_renamed; [assumption|].
    intros c Hc. apply eqb_ren_d, Hc.
  - left. split; [reflexivity|]. now apply In_name_reg_regions.
  - right. left. split; [reflexivity|]. now apply In_code_dep_departments.
  - exfalso. revert H. apply not_In_renamed; [assumption|].
    intros c Hc. apply eqb_ren_r, Hc.
  - right. right. split; [reflexivity|]. now apply In_name_dep_departments.
  - exfalso. revert H. apply not_In_renamed; [assumption|].
    intros c Hc. apply eqb_ren_r, Hc.
Qed.

Lemma merger_join_total :
  In "code" Rc -> In "region_code" Dc ->
  merge_left (rename departments
                [("region_code", "code_reg"); ("code", "code_dep"); ("name", "name_dep")])
             (rename regions [("code", "code_reg"); ("name", "name_reg")]) "code_reg"
  = Ok {| columns := left_labels "code_reg" (map ren_d Dc) (map ren_r Rc)
                     ++ right_labels "code_reg" (map ren_d Dc) (map ren_r Rc);
          rows := flat_map (join_row "code_reg" (map ren_d Dc) (map ren_r Rc)
                                     (rows regions))
                           (rows departments) |}.
Proof.
  intros H1 H2. apply (merge_left_plain (rename departments _) (rename regions _)).
  - apply renamed_NoDup; [exact ren_d_inj | assumption | assumption].
  - apply renamed_NoDup; [exact ren_r_inj | assumption | assumption].
  - now apply In_code_reg_departments.
  - now apply In_code_reg_regions.
  - apply Forall_forall. intros c Hc. apply in_map_iff in Hc as (c0 & <- & Hc).
    apply ren_d_plain. now apply (proj1 (Forall_forall _ _) FD).
  - apply Forall_forall. intros c Hc. apply in_map_iff in Hc as (c0 & <- & Hc).
    apply ren_r_plain. now apply (proj1 (Forall_forall _ _) FR).
Qed.

Lemma merger_without_key :
  ~ In "code" Rc \/ ~ In "region_code" Dc ->
  merge_regions_and_departments regions departments = Raise (KeyError "code_reg").
Proof.
  intros H. unfold merge_regions_and_departments, merge_left.
  destruct (in_dec string_dec "code" Rc) as [Hc|Hc].
  - destruct H as [H|H]; [contradiction|].
    rewrite require_one_present.
    + cbn [bind]. rewrite require_one_absent; [reflexivity|].
      intros Hin. now apply In_code_reg_departments in Hin.
    + apply renamed_NoDup; [exact ren_r_inj | assumption | assumption].
    + now apply In_code_reg_regions.
  - rewrite require_one_absent; [reflexivity|].
    intros Hin. now apply In_code_reg_regions in Hin.
Qed.

Lemma merger_without_column :
  In "code" Rc -> In "region_code" Dc ->
  ~ In "name" Rc \/ ~ In "code" Dc \/ ~ In "name" Dc ->
  exists l, In l ["name_reg"; "code_dep"; "name_dep"] /\
            merge_regions_and_departments regions departments = Raise (KeyError l).
Proof.
  intros H1 H2 H. unfold merge_regions_and_departments.
  rewrite merger_join_total by assumption. cbn [bind].
  match goal with |- context [getitem_list ?df _] => set (joined := df) end.
  assert (Ha : exists l, In l ["name_reg"; "code_dep"; "name_dep"] /\
                         ~ In l (columns joined)).
  { destruct H as [H|[H|H]];
      [exists "name_reg" | exists "code_dep" | exists "name_dep"];
      (split; [simpl; tauto|]); intros Hin;
      apply merged_label_origin in Hin; try (simpl; tauto);
      destruct Hin as [[E Hin]|[[E Hin]|[E Hin]]]; try discriminate E;
      contradiction. }
  destruct Ha as (l & Hl & Ha).
  destruct (getitem_list_absent joined ["code_reg"; "name_reg"; "code_dep"; "name_dep"] l)
    as (l' & Hl' & Ha' & E); [simpl in *; tauto | assumption |].
  exists l'. split; [|assumption].
  destruct Hl' as [<-|Hl']; [|exact Hl'].
  exfalso. apply Ha'. unfold joined. cbn [columns]. apply in_or_app. left.
  apply count_In. rewrite count_left_labels; [|reflexivity|apply key_not_overlap].
  apply count_In. now apply In_code_reg_departments.
Qed.

Lemma merger_Ok_columns (out : DataFrame) :
  merge_regions_and_departments regions departments = Ok out ->
  In "code" Rc /\ In "name" Rc /\
  In "region_code" Dc /\ In "code" Dc /\ In "name" Dc.
Proof.
  intros H.
  destruct (in_dec string_dec "code" Rc) as [H1|H1];
    [|rewrite merger_without_key in H by tauto; discriminate].
  destruct (in_dec string_dec "region_code" Dc) as [H2|H2];
    [|rewrite merger_without_key in H by tauto; discriminate].
  destruct (in_dec string_dec "name" Rc) as [H3|H3];
    [|destruct (merger_without_column H1 H2) as (l & _ & E); [tauto|congruence]].
  destruct (in_dec string_dec "code" Dc) as [H4|H4];
    [|destruct (merger_without_column H1 H2) as (l & _ & E); [tauto|congruence]].
  destruct (in_dec string_dec "name" Dc) as [H5|H5];
    [|destruct (merger_without_column H1 H2) as (l & _ & E); [tauto|congruence]].
  tauto.
Qed.

End MergerColumns.

(** X5.  [merge_regions_and_departments] on tables with distinct
    input labels that lack a column.  When the Region table has no
    column [code] or the Department table no column [region_code], the
    join raises [KeyError] on [code_reg].  When both are there (and hold
    texts) and one of [name] of the regions, [code] or [name] of the
    departments is not, the join is made and the selection of the four
    columns raises [KeyError].  The function returns a table only when
    the five columns are there. *)
Theorem merger_raises_without_its_columns (regions departments : DataFrame) :
  NoDup (columns regions) -> NoDup (columns departments) ->
  Forall input_label (columns regions) -> Forall input_label (columns departments) ->
  (~ In "code" (columns regions) \/ ~ In "region_code" (columns departments) ->
   merge_regions_and_departments regions departments = Raise (KeyError "code_reg")) /\
  (In "code" (columns regions) -> In "region_code" (columns departments) ->
   text_column "code" regions -> text_column "region_code" departments ->
   ~ In "name" (columns regions) \/ ~ In "code" (columns departments)
   \/ ~ In "name" (columns departments) ->
   exists l, In l ["name_reg"; "code_dep"; "name_dep"] /\
             merge_regions_and_departments regions departments = Raise (KeyError l)) /\
  (forall out, merge_regions_and_departments regions departments = Ok out ->
     In "code" (columns regions) /\ In "name" (columns regions) /\
     In "region_code" (columns departments) /\ In "code" (columns departments) /\
     In "name" (columns departments)).
Proof.
  intros NR ND FR FD. split; [|split].
  - now apply merger_without_key.
  - intros H1 H2 _ _. now apply merger_without_column.
  - intros out. now apply merger_Ok_columns.
Qed.

Lemma merger_raises_without_its_columns_witness :
  merge_regions_and_departments sample_regions regionless_departments
  = Raise (KeyError "code_reg") /\
  exists l, In l ["name_reg"; "code_dep"; "name_dep"] /\
            merge_regions_and_departments nameless_regions sample_departments
            = Raise (KeyError l).
Proof.
  assert (L : forall cols, Forall (fun c => derived_label c = false /\ suffixed c = false)
                             cols -> Forall input_label cols) by (intros; assumption).
  split.
  - apply (merger_raises_without_its_columns sample_regions regionless_departments).
    + repeat constructor; simpl; intuition discriminate.
    + repeat constructor; simpl; intuition discriminate.
    + apply L. repeat constructor.
    + apply L. repeat constructor.
    + right. simpl. intuition discriminate.
  - apply (merger_raises_without_its_columns nameless_regions sample_departments).
    + repeat constructor; simpl; intuition discriminate.
    + repeat constructor; simpl; intuition discriminate.
    + apply L. repeat constructor.
    + apply L. repeat constructor.
    + simpl. tauto.
    + simpl. tauto.
    + intros r H. each_row H.
    + intros r H. each_row H.
    + left. simpl. intuition discriminate.
Defined.

(** ** The columns and the rows of the joined table *)

Lemma overlap_disjoint (on : label) (lcols rcols : list label) :
  (forall c, In c lcols -> c <> on -> ~ In c rcols) -> overlap on lcols rcols = [].
Proof.
  intros H. unfold overlap. apply filter_none. intros c Hc.
  apply has_label_false. intros Hin. apply drop_label_In in Hin as [Hin Hne].
  now apply (H c).
Qed.

Lemma merge_left_disjoint (left right : DataFrame) (on : label) :
  count on (columns left) = 1%nat -> count on (columns right) = 1%nat ->
  (forall c, In c (columns left) -> c <> on -> ~ In c (columns right)) ->
  merge_left left right on
  = Ok {| columns := columns left ++ drop_label on (columns right);
          rows := flat_map (join_row on (columns left) (columns right) (rows right))
                           (rows left) |}.
Proof.
  intros H1 H2 Hd.
  assert (EL : left_labels on (columns left) (columns right) = columns left).
  { unfold left_labels. rewrite overlap_disjoint by assumption. apply add_suffix_none. }
  assert (ER : right_labels on (columns left) (columns right)
               = drop_label on (columns right)).
  { unfold right_labels. rewrite overlap_disjoint by assumption. apply add_suffix_none. }
  rewrite merge_left_total; try assumption.
  - now rewrite EL, ER.
  - rewrite EL. apply suffix_dups_same.
  - rewrite ER. apply suffix_dups_same.
Qed.

Lemma derived_columns_new (cols : list label) :
  ~ In "code_dep" cols -> derived_columns cols = cols ++ ["code_dep"].
Proof.
  intros H. unfold derived_columns. apply has_label_false in H. now rewrite H.
Qed.

Lemma derive_row_new (cols : list label) (r : list value) :
  ~ In "code_dep" cols -> derive_row cols r = r ++ [code_dep_of cols r].
Proof.
  intros H. unfold derive_row. apply has_label_false in H. now rewrite H.
Qed.

Section JoinedTable.

Variables referendum areas : DataFrame.
Hypothesis HW : well_formed referendum.
Hypothesis HD : In "Department code" (columns referendum).
Hypothesis HN : ~ In "code_dep" (columns referendum).
Hypothesis HA : NoDup (columns areas).
Hypothesis HK : In "code_dep" (columns areas).
Hypothesis Hdisj : forall c, In c (columns referendum) -> ~ In c (columns areas).

Let cols := columns referendum.
Let acols := columns areas.

Lemma joiner_runs :
  merge_referendum_and_areas referendum areas
  = Ok {| columns := cols ++ "code_dep" :: drop_label "code_dep" acols;
          rows := flat_map (joined_block cols areas) (filter (keeps cols) (rows referendum)) |}.
Proof.
  assert (C : count "Department code" cols = 1%nat) by (apply count_one; [apply HW | apply HD]).
  unfold merge_referendum_and_areas.
  rewrite referendum_filtered_eq by exact C. cbn [bind].
  rewrite with_code_dep_eq by exact C. cbn [bind columns rows].
  rewrite merge_left_disjoint; cbn [columns rows].
  - cbn [bind]. unfold dropna. cbn [columns rows]. fold cols. fold acols.
    rewrite flat_map_filter, flat_map_map_in.
    change (fun a => filter (forallb notna)
                       (join_row "code_dep" (derived_columns cols) acols (rows areas)
                                 (derive_row cols a)))
      with (joined_block cols areas).
    rewrite derived_columns_new by exact HN. now rewrite <- app_assoc.
  - fold cols. rewrite derived_columns_new by exact HN. rewrite count_app.
    replace (count "code_dep" cols) with 0%nat by (symmetry; now apply count_zero).
    reflexivity.
  - now apply count_one.
  - fold cols. rewrite derived_columns_new by exact HN.
    intros c Hc Hne Hin. apply in_app_or in Hc as [Hc|[<-|[]]]; [|congruence].
    now apply (Hdisj c).
Qed.

Lemma joined_block_rows (r0 r : list value) :
  length r0 = length cols -> (2 <= length acols)%nat ->
  In r (joined_block cols areas r0) ->
  (forall v, In v r -> v <> NA) /\
  exists a, In a (rows areas) /\
            cell "code_dep" acols a = code_dep_of cols r0 /\
            r = r0 ++ code_dep_of cols r0 :: drop_cells "code_dep" acols a.
Proof.
  intros Hlen H2 Hr. unfold joined_block in Hr. apply filter_In in Hr as [Hr Hna].
  split; [now apply forallb_notna|].
  destruct (join_row_In _ _ _ _ _ _ Hr) as [[_ E]|(a & Ha & Ek & E)].
  - exfalso. subst r. rewrite forallb_notna_false in Hna; [discriminate|].
    apply in_or_app. right. fold acols.
    pose proof (drop_label_length "code_dep" acols) as L.
    assert (count "code_dep" acols = 1%nat) by (now apply count_one).
    destruct (drop_label "code_dep" acols); simpl in *; [lia | now left].
  - exists a. split; [assumption|].
    fold acols in Ek. fold cols in Ek.
    rewrite derive_row_cell_code_dep in Ek by assumption.
    split; [assumption|]. subst r. rewrite derive_row_new by exact HN.
    now rewrite <- app_assoc.
Qed.

End JoinedTable.

(** X6.  The joined table, for a referendum table with distinct
    labels, a column [Department code] and no column [code_dep], and an
    area table with distinct labels of its own, among them the text
    column [code_dep] and at least one more.  The function returns a
    table whose columns are those of the referendum table, then
    [code_dep], then the other columns of the area table; each of its
    rows is a referendum row followed by its department code and by the
    other cells of an area row with that code, and holds no missing
    cell. *)
Theorem joiner_appends_area_columns (referendum areas : DataFrame) :
  well_formed referendum ->
  In "Department code" (columns referendum) ->
  ~ In "code_dep" (columns referendum) ->
  NoDup (columns areas) -> In "code_dep" (columns areas) ->
  (2 <= length (columns areas))%nat ->
  text_column "code_dep" areas ->
  (forall c, In c (columns referendum) -> ~ In c (columns areas)) ->
  exists out,
    merge_referendum_and_areas referendum areas = Ok out /\
    columns out
    = columns referendum ++ "code_dep" :: drop_label "code_dep" (columns areas) /\
    forall r, In r (rows out) ->
      (forall v, In v r -> v <> NA) /\
      exists r0 a,
        In r0 (rows referendum) /\ keeps (columns referendum) r0 = true /\
        In a (rows areas) /\
        cell "code_dep" (columns areas) a = code_dep_of (columns referendum) r0 /\
        r = r0 ++ code_dep_of (columns referendum) r0
               :: drop_cells "code_dep" (columns areas) a.
Proof.
  intros HW HD HN HA HK H2 _ Hdisj.
  eexists. split; [now apply joiner_runs|]. cbn [columns rows].
  split; [reflexivity|]. intros r Hr.
  apply in_flat_map in Hr as (r0 & Hr0 & Hr). apply filter_In in Hr0 as [Hr0 Hk].
  destruct (joined_block_rows referendum areas HN HA HK r0 r) as (Hna & a & Ha & Ea & E);
    try assumption.
  - now apply (proj1 (Forall_forall _ _) (proj2 HW)).
  - split; [assumption|]. exists r0, a. now repeat split.
Qed.

Lemma joiner_appends_area_columns_witness :
  merge_referendum_and_areas sample_referendum sample_areas = Ok sample_joined /\
  exists out,
    merge_referendum_and_areas sample_referendum sample_areas = Ok out /\
    columns out
    = columns sample_referendum
      ++ "code_dep" :: drop_label "code_dep" (columns sample_areas) /\
    forall r, In r (rows out) ->
      (forall v, In v r -> v <> NA) /\
      exists r0 a,
        In r0 (rows sample_referendum) /\ keeps (columns sample_referendum) r0 = true /\
        In a (rows sample_areas) /\
        cell "code_dep" (columns sample_areas) a
        = code_dep_of (columns sample_referendum) r0 /\
        r = r0 ++ code_dep_of (columns sample_referendum) r0
               :: drop_cells "code_dep" (columns sample_areas) a.
Proof.
  split; [reflexivity|].
  apply (joiner_appends_area_columns sample_referendum sample_areas).
  - split; [repeat constructor; simpl; intuition discriminate|].
    repeat constructor.
  - simpl. tauto.
  - simpl. intuition discriminate.
  - repeat constructor; simpl; intuition discriminate.
  - simpl. tauto.
  - simpl. lia.
  - intros r H. each_row H.
  - intros c Hc Ha. simpl in Hc, Ha.
    repeat (destruct Hc as [<-|Hc]; [intuition discriminate|]). contradiction.
Defined.

(** ** Referendum rows are neither repeated nor reordered *)

Lemma joined_block_at_most_one (cols : list label) (areas : DataFrame) (r0 : list value) :
  ~ In "code_dep" cols ->
  NoDup (map (cell "code_dep" (columns areas)) (rows areas)) ->
  joined_block cols areas r0 = [] \/ exists t, joined_block cols areas r0 = [r0 ++ t].
Proof.
  intros HN HU. unfold joined_block, join_row, matches.
  pose proof (matches_unique _ (cell "code_dep" (columns areas))
                (cell "code_dep" (derived_columns cols) (derive_row cols r0))
                (rows areas) HU) as L.
  rewrite derive_row_new by exact HN.
  rewrite derive_row_new in L by exact HN.
  destruct (filter _ (rows areas)) as [|a [|b t]]; [| |simpl in L; lia].
  - cbn [filter]. destruct (forallb notna _); [right|now left].
    rewrite <- app_assoc. eauto.
  - cbn [map filter]. destruct (forallb notna _); [right|now left].
    rewrite <- app_assoc. eauto.
Qed.

Lemma firstn_blocks (n : nat) (block : list value -> list (list value))
      (k : list value -> bool) (rs : list (list value)) :
  Forall (fun r => length r = n) rs ->
  (forall r0, block r0 = [] \/ exists t, block r0 = [r0 ++ t]) ->
  map (firstn n) (flat_map block (filter k rs))
  = filter (fun r0 => (k r0 && match block r0 with [] => false | _ => true end)%bool) rs.
Proof.
  intros F Hb. induction F as [|r0 rs Hlen _ IH]; [reflexivity|].
  cbn [filter]. destruct (k r0); cbn [andb]; [|exact IH].
  cbn [flat_map]. rewrite map_app, IH.
  destruct (Hb r0) as [E|(t & E)]; rewrite E; [reflexivity|].
  cbn [map app]. f_equal. rewrite firstn_app, <- Hlen, firstn_all, Nat.sub_diag.
  cbn [firstn]. apply app_nil_r.
Qed.

(** X7.  When no department code occurs twice in the area table, the
    join neither repeats nor reorders nor alters the referendum rows:
    the joined table cut down to the columns of the referendum table
    is the referendum table with some rows left out (it keeps those
    whose code holds no [Z] and that contribute a row), so that it has
    at most as many rows. *)
Theorem joiner_keeps_referendum_rows_once (referendum areas out : DataFrame) :
  rectangular referendum ->
  ~ In "code_dep" (columns referendum) ->
  NoDup (map (cell "code_dep" (columns areas)) (rows areas)) ->
  merge_referendum_and_areas referendum areas = Ok out ->
  map (firstn (length (columns referendum))) (rows out)
  = filter (counted (columns referendum) areas) (rows referendum) /\
  (length (rows out) <= length (rows referendum))%nat.
Proof.
  intros HR HN HU H.
  assert (E : map (firstn (length (columns referendum))) (rows out)
              = filter (counted (columns referendum) areas) (rows referendum)).
  { rewrite (joined_rows_blocks _ _ _ H). apply firstn_blocks; [exact HR|].
    intros r0. now apply joined_block_at_most_one. }
  split; [exact E|].
  rewrite <- (length_map (firstn (length (columns referendum)))), E.
  apply filter_length_le.
Qed.

Lemma joiner_keeps_referendum_rows_once_witness :
  map (firstn (length (columns sample_referendum))) (rows sample_joined)
  = filter (counted (columns sample_referendum) sample_areas) (rows sample_referendum) /\
  (length (rows sample_joined) <= length (rows sample_referendum))%nat.
Proof.
  apply (joiner_keeps_referendum_rows_once sample_referendum sample_areas sample_joined).
  - repeat constructor.
  - simpl. intuition discriminate.
  - repeat constructor; simpl; intuition discriminate.
  - reflexivity.
Defined.

(** ** Aggregating a table with missing cells *)

(** X8.  The aggregation on a table with missing cells (distinct
    labels, the seven columns present, counts that are integers or
    missing and whose absolute values add up to less than [2^53] in
    each count column).  It returns a table; the row of a region holds
    the first region name of its group that is not missing and, for
    each count column, the arithmetic sum of the counts of the group
    that are not missing (zero when all are); and the rows without a
    region code are left out of every sum: the total of a count column
    in the output is its total over the input rows that have a region
    code. *)
Theorem regions_result_skips_missing (df : DataFrame) :
  region_count_table df -> small_counts df ->
  exists out,
    compute_referendum_result_by_regions df = Ok out /\
    columns (body out)
    = ["name_reg"; "Registered"; "Abstentions"; "Null"; "Choice A"; "Choice B"] /\
    rows (body out) = map (region_row_skipna df) (index out) /\
    (forall k, In k (index out) <->
               k <> NA /\ exists r, In r (rows df) /\ cell "code_reg" (columns df) r = k) /\
    (forall l, In l count_labels ->
       column_total l (columns (body out)) (rows (body out))
       = column_total l (columns df) (filter (has_region df) (rows df))).
Proof.
  intros H Hs. eexists. split; [now apply compute_on_small_count_table|].
  cbn [body columns rows index].
  split; [reflexivity|]. split; [reflexivity|]. split.
  - intros k. apply group_keys_In.
  - intros l Hl. now apply totals_of_regions.
Qed.

Lemma region_count_table_sample : region_count_table sample_gaps.
Proof.
  split; [|split].
  - repeat constructor; simpl; intuition discriminate.
  - intros l Hl. unfold count_labels in Hl. simpl in *. intuition (subst; tauto).
  - intros r l Hr Hl. unfold count_labels in Hl. simpl in Hr, Hl.
    repeat (destruct Hr as [<-|Hr];
            [repeat (destruct Hl as [<-|Hl];
                     [first [left; reflexivity | right; eexists; reflexivity]|]);
             contradiction|]).
    contradiction.
Qed.

Lemma small_counts_gaps : small_counts sample_gaps.
Proof. small_table. Qed.

Lemma regions_result_skips_missing_witness :
  region_count_table sample_gaps /\ small_counts sample_gaps /\
  compute_referendum_result_by_regions sample_gaps = Ok sample_gaps_result /\
  exists out,
    compute_referendum_result_by_regions sample_gaps = Ok out /\
    columns (body out)
    = ["name_reg"; "Registered"; "Abstentions"; "Null"; "Choice A"; "Choice B"] /\
    rows (body out) = map (region_row_skipna sample_gaps) (index out) /\
    (forall k, In k (index out) <->
               k <> NA /\
               exists r, In r (rows sample_gaps) /\
                         cell "code_reg" (columns sample_gaps) r = k) /\
    (forall l, In l count_labels ->
       column_total l (columns (body out)) (rows (body out))
       = column_total l (columns sample_gaps)
                      (filter (has_region sample_gaps) (rows sample_gaps))).
Proof.
  split; [exact region_count_table_sample|].
  split; [exact small_counts_gaps|]. split; [reflexivity|].
  exact (regions_result_skips_missing sample_gaps region_count_table_sample
           small_counts_gaps).
Defined.

(** ** The order of the input rows *)





Section RowOrder.

Variables df df' : DataFrame.
Hypothesis Hdf : region_count_table df.
Hypothesis Hcols : columns df' = columns df.
Hypothesis Hperm : Permutation (rows df) (rows df').





End RowOrder.



(** ** The script, from the three tables to the result *)

Lemma cell_app_r (l : label) (a b : list label) (ra rb : list value) :
  length a = length ra -> ~ In l a -> cell l (a ++ b) (ra ++ rb) = cell l b rb.
Proof.
  intros Hlen Hn. unfold cell. rewrite cells_app by assumption.
  now rewrite cells_none.
Qed.

Lemma column_total_map (l : label) (cols cols' : list label) (f : list value -> list value)
      (rs : list (list value)) :
  (forall r, In r rs -> cell l cols r = cell l cols' (f r)) ->
  column_total l cols rs = column_total l cols' (map f rs).
Proof.
  intros H. unfold column_total. rewrite map_map. f_equal.
  apply map_ext_in. intros r Hr. now rewrite H.
Qed.

Lemma column_abs_total_map (l : label) (cols cols' : list label)
      (f : list value -> list value) (rs : list (list value)) :
  (forall r, In r rs -> cell l cols r = cell l cols' (f r)) ->
  column_abs_total l cols rs = column_abs_total l cols' (map f rs).
Proof.
  intros H. unfold column_abs_total. rewrite map_map. f_equal.
  apply map_ext_in. intros r Hr. now rewrite H.
Qed.

Lemma column_total_filter_le (l : label) (cols : list label) (f : list value -> bool)
      (rs : list (list value)) :
  (forall r, In r rs -> 0 <= int_of (cell l cols r)) ->
  column_total l cols (filter f rs) <= column_total l cols rs.
Proof.
  unfold column_total. induction rs as [|r rs IH]; intros H; [simpl; lia|].
  assert (H0 : 0 <= int_of (cell l cols r)) by (apply H; now left).
  assert (IH' := IH (fun r' Hr' => H r' (or_intror Hr'))).
  cbn [filter]. destruct (f r); cbn [map fold_right]; lia.
Qed.

Section Script.

Variables referendum df_reg df_dep : DataFrame.
Hypothesis HR : region_table df_reg.
Hypothesis HD : department_table df_dep.
Hypothesis HT : text_column "code" df_dep.
Hypothesis HF : referendum_table referendum.

Let cols := columns referendum.
Let Rc := columns df_reg.
Let Dc := columns df_dep.

Let areas : DataFrame :=
  {| columns := area_columns;
     rows := flat_map (area_block df_reg Dc) (rows df_dep) |}.

Let jcols : list label := cols ++ ["code_dep"; "code_reg"; "name_reg"; "name_dep"].

Let joined : DataFrame :=
  {| columns := jcols;
     rows := flat_map (joined_block cols areas) (filter (keeps cols) (rows referendum)) |}.

Lemma script_areas : merge_regions_and_departments df_reg df_dep = Ok areas.
Proof. now apply merge_regions_and_departments_rows. Qed.

Lemma referendum_labels (c : label) :
  In c cols -> ~ In c area_columns.
Proof.
  intros Hc. destruct HF as (_ & _ & _ & F & _).
  pose proof (proj1 (Forall_forall _ _) F c Hc) as Hi.
  apply input_label_neq in Hi. simpl. intuition congruence.
Qed.

Lemma referendum_no_code_dep : ~ In "code_dep" cols.
Proof. intros H. apply (referendum_labels _ H). simpl. tauto. Qed.

Lemma referendum_row_length (r0 : list value) :
  In r0 (rows referendum) -> length r0 = length cols.
Proof.
  intros H. destruct HF as ((_ & R) & _). now apply (proj1 (Forall_forall _ _) R).
Qed.

Lemma script_joined : merge_referendum_and_areas referendum areas = Ok joined.
Proof.
  destruct HF as (W & I & _).
  rewrite (joiner_runs referendum areas W I).
  - reflexivity.
  - exact referendum_no_code_dep.
  - repeat constructor; simpl; intuition discriminate.
  - simpl. tauto.
  - exact referendum_labels.
Qed.

Lemma areas_row_origin (a : list value) :
  In a (rows areas) ->
  exists d nr,
    In d (rows df_dep) /\ a = area_row Dc d nr /\
    (nr = NA \/
     exists ar, In ar (rows df_reg) /\
                cell "code" Rc ar = cell "region_code" Dc d /\
                nr = cell "name" Rc ar).
Proof.
  intros Ha. apply in_flat_map in Ha as (d & Hd & Ha). exists d.
  unfold area_block in Ha.
  destruct (region_matches df_reg Dc d) as [|m ms] eqn:E.
  - destruct Ha as [<-|[]]. exists NA. auto.
  - apply in_map_iff in Ha as (ar & <- & Har). exists (cell "name" Rc ar).
    repeat split; [assumption|]. right. exists ar.
    rewrite <- E in Har. apply filter_In in Har as [Har Hm].
    apply value_eqb_eq in Hm. auto.
Qed.

(** A row of the joined table: a referendum row, its department code,
    and the region code, region name and department name of a
    department with that code whose region is known by name. *)
Lemma script_joined_row (r : list value) :
  In r (rows joined) ->
  (forall v, In v r -> v <> NA) /\
  exists r0 d ar,
    In r0 (rows referendum) /\ keeps cols r0 = true /\
    In d (rows df_dep) /\ In ar (rows df_reg) /\
    cell "code" Dc d = code_dep_of cols r0 /\
    cell "code" Rc ar = cell "region_code" Dc d /\
    r = r0 ++ [code_dep_of cols r0; cell "region_code" Dc d;
               cell "name" Rc ar; cell "name" Dc d].
Proof.
  intros Hr. apply in_flat_map in Hr as (r0 & Hr0 & Hr).
  apply filter_In in Hr0 as [Hr0 Hk].
  destruct (joined_block_rows referendum areas) with (r0 := r0) (r := r)
    as (Hna & a & Ha & Ea & E).
  - exact referendum_no_code_dep.
  - repeat constructor; simpl; intuition discriminate.
  - simpl. tauto.
  - now apply referendum_row_length.
  - simpl. lia.
  - exact Hr.
  - split; [assumption|].
    destruct (areas_row_origin a Ha) as (d & nr & Hd & -> & Hnr).
    change (drop_cells "code_dep" (columns areas) (area_row Dc d nr))
      with [cell "region_code" Dc d; nr; cell "name" Dc d] in E.
    change (cell "code_dep" (columns areas) (area_row Dc d nr))
      with (cell "code" Dc d) in Ea.
    destruct Hnr as [->|(ar & Har & Ec & ->)].
    + exfalso. apply (Hna NA); [|reflexivity]. rewrite E.
      apply in_or_app. right. simpl. tauto.
    + exists r0, d, ar. now repeat split.
Qed.

Lemma script_joined_cell (l : label) (r0 t : list value) :
  In r0 (rows referendum) -> In l cols ->
  cell l jcols (r0 ++ t) = cell l cols r0.
Proof.
  intros Hr0 Hl. unfold jcols. apply cell_app_l; [|assumption].
  symmetry. now apply referendum_row_length.
Qed.

Lemma script_joined_table : referendum_area_table joined.
Proof.
  destruct HF as ((N & R) & I & Hc & F & Hnum & _).
  split; [split|split; [|split]].
  - cbn [joined columns]. unfold jcols. apply NoDup_app; [assumption | |].
    + repeat constructor; simpl; intuition discriminate.
    + intros c Hc' Hin. apply (referendum_labels c Hc'). simpl in *. tauto.
  - apply Forall_forall. intros r Hr.
    destruct (script_joined_row r Hr) as (_ & r0 & d & ar & Hr0 & _ & _ & _ & _ & _ & ->).
    cbn [joined columns]. unfold jcols. rewrite !length_app.
    rewrite (referendum_row_length r0 Hr0). reflexivity.
  - intros l Hl. cbn [joined columns]. unfold jcols. apply in_or_app.
    destruct Hl as [<-|[<-|Hl]]; [right; simpl; tauto | right; simpl; tauto |].
    left. now apply Hc.
  - intros r Hr. now apply script_joined_row.
  - intros r l Hr Hl.
    destruct (script_joined_row r Hr) as (Hna & r0 & d & ar & Hr0 & _ & _ & _ & _ & _ & E).
    subst r. cbn [joined columns].
    rewrite script_joined_cell by (try assumption; now apply Hc).
    destruct (Hnum r0 l Hr0 Hl) as [En|Hz]; [|assumption].
    exfalso. apply (Hna NA); [|reflexivity]. apply in_or_app. left.
    rewrite <- En. apply cell_In; [now apply referendum_row_length | now apply Hc].
Qed.

Lemma script_result :
  referendum_results referendum df_reg df_dep
  = Ok {| index_name := "code_reg";
          index := group_keys "code_reg" joined;
          body := {| columns := "name_reg" :: count_labels;
                     rows := map (region_row_int64 joined)
                                 (group_keys "code_reg" joined) |} |}.
Proof.
  unfold referendum_results. rewrite script_areas. cbn [bind].
  rewrite script_joined. cbn [bind].
  apply compute_on_area_table, script_joined_table.
Qed.

Lemma script_region_row (k : value) :
  In k (group_keys "code_reg" joined) ->
  exists ar d,
    In ar (rows df_reg) /\ cell "code" Rc ar = k /\ cell "name" Rc ar <> NA /\
    cell "name_reg" ("name_reg" :: count_labels) (region_row_int64 joined k)
    = cell "name" Rc ar /\
    In d (rows df_dep) /\ cell "region_code" Dc d = k.
Proof.
  intros Hk.
  pose proof (group_nonempty joined k Hk) as Hne.
  assert (Hin : In (hd [] (group_of "code_reg" joined k)) (group_of "code_reg" joined k))
    by (destruct (group_of "code_reg" joined k); [congruence | now left]).
  apply group_of_In in Hin as [Hr Ek].
  destruct (script_joined_row _ Hr)
    as (Hna & r0 & d & ar & Hr0 & _ & Hd & Har & _ & Ec & E).
  assert (Hlen : length cols = length r0) by (symmetry; now apply referendum_row_length).
  assert (Ecode : cell "code_reg" jcols (hd [] (group_of "code_reg" joined k))
                  = cell "region_code" Dc d).
  { rewrite E. unfold jcols. rewrite cell_app_r; [reflexivity | assumption |].
    intros H. apply (referendum_labels _ H). simpl. tauto. }
  assert (Ename : cell "name_reg" jcols (hd [] (group_of "code_reg" joined k))
                  = cell "name" Rc ar).
  { rewrite E. unfold jcols. rewrite cell_app_r; [reflexivity | assumption |].
    intros H. apply (referendum_labels _ H). simpl. tauto. }
  cbn [joined columns] in Ek. rewrite Ecode in Ek.
  exists ar, d. split; [assumption|]. split; [congruence|]. split.
  - apply Hna. rewrite E. apply in_or_app. right. simpl. tauto.
  - split; [|now split].
    change (agg_first (map (cell "name_reg" (columns joined))
                           (group_of "code_reg" joined k))
            = cell "name" Rc ar).
    rewrite (group_first_name joined script_joined_table k Hk). exact Ename.
Qed.

Lemma areas_codes_unique :
  NoDup (map (cell "code" Rc) (rows df_reg)) ->
  NoDup (map (cell "code" Dc) (rows df_dep)) ->
  NoDup (map (cell "code_dep" (columns areas)) (rows areas)).
Proof.
  intros UR UD. cbn [areas columns rows].
  rewrite (flat_map_singleton _ _ (area_block df_reg Dc)
             (fun d => area_row Dc d (region_name df_reg Dc d))).
  - rewrite map_map. exact UD.
  - intros d. now apply area_block_unique.
Qed.

(** Cut down to the columns of the referendum table, the joined table
    holds the referendum rows that are counted, each once. *)
Lemma script_counted_rows :
  NoDup (map (cell "code" Rc) (rows df_reg)) ->
  NoDup (map (cell "code" Dc) (rows df_dep)) ->
  map (firstn (length cols)) (rows joined)
  = filter (counted cols areas) (rows referendum).
Proof.
  intros UR UD. destruct HF as ((N & R) & _).
  cbn [joined rows]. apply firstn_blocks; [exact R|].
  intros r0. apply joined_block_at_most_one.
  - exact referendum_no_code_dep.
  - now apply areas_codes_unique.
Qed.

Lemma script_joined_count (l : label) (r : list value) :
  In l count_labels -> In r (rows joined) ->
  cell l jcols r = cell l cols (firstn (length cols) r).
Proof.
  intros Hl Hr. destruct HF as (_ & _ & Hc & _).
  destruct (script_joined_row r Hr) as (_ & r0 & d & ar & Hr0 & _ & _ & _ & _ & _ & ->).
  rewrite script_joined_cell by (try assumption; now apply Hc).
  rewrite firstn_app, <- (referendum_row_length r0 Hr0), firstn_all, Nat.sub_diag.
  cbn [firstn]. now rewrite app_nil_r.
Qed.

Lemma script_totals (l : label) :
  NoDup (map (cell "code" Rc) (rows df_reg)) ->
  NoDup (map (cell "code" Dc) (rows df_dep)) ->
  In l count_labels ->
  column_total l jcols (rows joined)
  = column_total l cols (filter (counted cols areas) (rows referendum)).
Proof.
  intros UR UD Hl.
  rewrite (column_total_map l jcols cols (firstn (length cols))).
  - now rewrite script_counted_rows.
  - intros r Hr. now apply script_joined_count.
Qed.

(** Small counts in the referendum table stay small in the joined
    table when no row is repeated. *)
Lemma script_small_counts :
  NoDup (map (cell "code" Rc) (rows df_reg)) ->
  NoDup (map (cell "code" Dc) (rows df_dep)) ->
  small_counts referendum -> small_counts joined.
Proof.
  intros UR UD Hs l Hl. specialize (Hs l Hl). cbn [joined columns].
  rewrite (column_abs_total_map l jcols cols (firstn (length cols)))
    by (intros r Hr; now apply script_joined_count).
  rewrite script_counted_rows by assumption.
  pose proof (column_abs_total_filter_le l cols (counted cols areas) (rows referendum)).
  fold cols in Hs. lia.
Qed.

Lemma script_small_result :
  NoDup (map (cell "code" Rc) (rows df_reg)) ->
  NoDup (map (cell "code" Dc) (rows df_dep)) ->
  small_counts referendum ->
  referendum_results referendum df_reg df_dep
  = Ok {| index_name := "code_reg";
          index := group_keys "code_reg" joined;
          body := {| columns := "name_reg" :: count_labels;
                     rows := map (region_row joined) (group_keys "code_reg" joined) |} |}.
Proof.
  intros UR UD Hs.
  unfold referendum_results. rewrite script_areas. cbn [bind].
  rewrite script_joined. cbn [bind].
  apply compute_on_small_area_table; [exact script_joined_table|].
  now apply script_small_counts.
Qed.

End Script.

(** X10.  The script as a whole.  On a Region table, a Department
    table whose codes are texts and a referendum table (distinct input
    labels, department codes that are texts or missing, counts that
    are integers or missing), the three functions run one after the
    other raise nothing and return the result of the aggregation.
    Every row of the result belongs to a region of the Region table:
    its index is the code of a region whose name is not missing, its
    [name_reg] is the name of that region, and its index is the region
    code of a department. *)
Theorem script_returns_known_regions (referendum df_reg df_dep : DataFrame) :
  region_table df_reg -> department_table df_dep -> text_column "code" df_dep ->
  referendum_table referendum ->
  exists areas joined out,
    merge_regions_and_departments df_reg df_dep = Ok areas /\
    merge_referendum_and_areas referendum areas = Ok joined /\
    compute_referendum_result_by_regions joined = Ok out /\
    referendum_results referendum df_reg df_dep = Ok out /\
    Forall2 (fun k row =>
               exists ar d,
                 In ar (rows df_reg) /\ cell "code" (columns df_reg) ar = k /\
                 cell "name" (columns df_reg) ar <> NA /\
                 cell "name_reg" (columns (body out)) row
                 = cell "name" (columns df_reg) ar /\
                 In d (rows df_dep) /\ cell "region_code" (columns df_dep) d = k)
            (index out) (rows (body out)).
Proof.
  intros HR HD HT HF.
  do 3 eexists. split; [now apply script_areas|].
  split; [now apply script_joined|].
  split; [now apply compute_on_area_table, script_joined_table|].
  split; [now apply script_result|].
  cbn [index body rows columns]. apply Forall2_map_in.
  intros k Hk. now apply (script_region_row referendum df_reg df_dep).
Qed.

Lemma referendum_table_sample : referendum_table sample_referendum.
Proof.
  split; [split|split; [|split; [|split; [|split]]]].
  - repeat constructor; simpl; intuition discriminate.
  - repeat constructor.
  - simpl. tauto.
  - intros l Hl. unfold count_labels in Hl. simpl in *. intuition (subst; tauto).
  - assert (L : forall cs, Forall (fun c => derived_label c = false /\ suffixed c = false)
                             cs -> Forall input_label cs) by (intros; assumption).
    apply L. repeat constructor.
  - intros r l Hr Hl. unfold count_labels in Hl. simpl in Hr, Hl.
    repeat (destruct Hr as [<-|Hr];
            [repeat (destruct Hl as [<-|Hl];
                     [first [left; reflexivity | right; eexists; reflexivity]|]);
             contradiction|]).
    contradiction.
  - intros r Hr. simpl in Hr.
    repeat (destruct Hr as [<-|Hr];
            [first [left; reflexivity | right; eexists; reflexivity]|]).
    contradiction.
Qed.

Lemma department_codes_sample : text_column "code" sample_departments.
Proof. intros r H. each_row H. Qed.

Lemma script_returns_known_regions_witness :
  referendum_results sample_referendum sample_regions sample_departments
  = Ok sample_result /\
  exists areas joined out,
    merge_regions_and_departments sample_regions sample_departments = Ok areas /\
    merge_referendum_and_areas sample_referendum areas = Ok joined /\
    compute_referendum_result_by_regions joined = Ok out /\
    referendum_results sample_referendum sample_regions sample_departments = Ok out /\
    Forall2 (fun k row =>
               exists ar d,
                 In ar (rows sample_regions) /\
                 cell "code" (columns sample_regions) ar = k /\
                 cell "name" (columns sample_regions) ar <> NA /\
                 cell "name_reg" (columns (body out)) row
                 = cell "name" (columns sample_regions) ar /\
                 In d (rows sample_departments) /\
                 cell "region_code" (columns sample_departments) d = k)
            (index out) (rows (body out)).
Proof.
  split; [reflexivity|].
  exact (script_returns_known_regions sample_referendum sample_regions sample_departments
           region_table_sample department_table_sample department_codes_sample
           referendum_table_sample).
Defined.

(** X11.  No vote is counted twice.  When no code occurs twice in the
    Region table nor in the Department table, and the absolute values
    of each count column of the referendum table add up to less than
    [2^53], each total of the result of the script (over all regions,
    for each of the five count columns) is the total of that column
    over the referendum rows that are counted, each taken once: the
    rows that pass the filter on [Z] and contribute a row to the joined
    table.  With counts that are not negative it is therefore at most
    the total of the whole column. *)
Theorem script_counts_votes_once (referendum df_reg df_dep : DataFrame) :
  region_table df_reg -> department_table df_dep -> text_column "code" df_dep ->
  referendum_table referendum -> small_counts referendum ->
  NoDup (map (cell "code" (columns df_reg)) (rows df_reg)) ->
  NoDup (map (cell "code" (columns df_dep)) (rows df_dep)) ->
  exists areas out,
    merge_regions_and_departments df_reg df_dep = Ok areas /\
    referendum_results referendum df_reg df_dep = Ok out /\
    forall l, In l count_labels ->
      column_total l (columns (body out)) (rows (body out))
      = column_total l (columns referendum)
                     (filter (counted (columns referendum) areas) (rows referendum)) /\
      ((forall r, In r (rows referendum) ->
                  0 <= int_of (cell l (columns referendum) r)) ->
       column_total l (columns (body out)) (rows (body out))
       <= column_total l (columns referendum) (rows referendum)).
Proof.
  intros HR HD HT HF Hs UR UD.
  do 2 eexists. split; [now apply script_areas|].
  split; [now apply script_small_result|].
  cbn [body columns rows]. intros l Hl.
  match goal with |- ?a = ?b /\ _ => assert (E : a = b) end.
  { rewrite totals_preserved; [|now apply script_joined_table | assumption].
    cbn [columns rows]. now apply script_totals. }
  split; [exact E|].
  intros Hpos. rewrite E. now apply column_total_filter_le.
Qed.

Lemma small_counts_referendum : small_counts sample_referendum.
Proof. small_table. Qed.

Lemma script_counts_votes_once_witness :
  small_counts sample_referendum /\
  referendum_results sample_referendum sample_regions sample_departments
  = Ok sample_result /\
  exists areas out,
    merge_regions_and_departments sample_regions sample_departments = Ok areas /\
    referendum_results sample_referendum sample_regions sample_departments = Ok out /\
    forall l, In l count_labels ->
      column_total l (columns (body out)) (rows (body out))
      = column_total l (columns sample_referendum)
                     (filter (counted (columns sample_referendum) areas)
                             (rows sample_referendum)) /\
      ((forall r, In r (rows sample_referendum) ->
                  0 <= int_of (cell l (columns sample_referendum) r)) ->
       column_total l (columns (body out)) (rows (body out))
       <= column_total l (columns sample_referendum) (rows sample_referendum)).
Proof.
  split; [exact small_counts_referendum|]. split; [reflexivity|].
  apply (script_counts_votes_once sample_referendum sample_regions sample_departments
           region_table_sample department_table_sample department_codes_sample
           referendum_table_sample small_counts_referendum).
  - repeat constructor; simpl; intuition discriminate.
  - repeat constructor; simpl; intuition discriminate.
Defined.

(** X15.  Codes stay unique.  When no code occurs twice in the
    Region table nor in the Department table, no department code
    occurs twice in the table that [merge_regions_and_departments]
    returns: it can serve as the area table of a join that repeats no
    referendum row. *)
Theorem merged_codes_stay_unique (regions departments : DataFrame) :
  region_table regions -> department_table departments ->
  NoDup (map (cell "code" (columns regions)) (rows regions)) ->
  NoDup (map (cell "code" (columns departments)) (rows departments)) ->
  exists out,
    merge_regions_and_departments regions departments = Ok out /\
    NoDup (map (cell "code_dep" (columns out)) (rows out)).
Proof.
  intros HR HD UR UD. eexists.
  split; [now apply merge_regions_and_departments_rows|].
  now apply areas_codes_unique.
Qed.

Lemma merged_codes_stay_unique_witness :
  merge_regions_and_departments sample_regions sample_departments = Ok sample_areas /\
  exists out,
    merge_regions_and_departments sample_regions sample_departments = Ok out /\
    NoDup (map (cell "code_dep" (columns out)) (rows out)).
Proof.
  split; [reflexivity|].
  apply (merged_codes_stay_unique sample_regions sample_departments
           region_table_sample department_table_sample).
  - repeat constructor; simpl; intuition discriminate.
  - repeat constructor; simpl; intuition discriminate.
Defined.

(** ** The rows of the map *)

Lemma join_row_unique (on : label) (lcols rcols : list label)
      (right_rows : list (list value)) (l : list value) :
  NoDup (map (cell on rcols) right_rows) ->
  join_row on lcols rcols right_rows l
  = [l ++ match matches on lcols rcols right_rows l with
          | [] => repeat NA (length (drop_label on rcols))
          | m :: _ => drop_cells on rcols m
          end].
Proof.
  intros HU. unfold join_row.
  pose proof (matches_unique _ (cell on rcols) (cell on lcols l) right_rows HU) as L.
  fold (matches on lcols rcols right_rows l) in L.
  destruct (matches on lcols rcols right_rows l) as [|m [|m' ms]];
    [reflexivity | reflexivity | simpl in L; lia].
Qed.

Lemma rename_code_cases (c : label) :
  rename_label [("code", "code_reg")] c = if String.eqb c "code" then "code_reg" else c.
Proof. unfold rename_label. cbn [lookup_label]. now destruct (String.eqb c "code"). Qed.

Section Map.

Variables shapes df : DataFrame.
Hypothesis HS : shape_table shapes.
Hypothesis Hdf : referendum_area_table df.
Hypothesis Hsmall : small_counts df.
Hypothesis Hvotes : small_votes df.

Let scols := columns shapes.
Let gcols := map (rename_label [("code", "code_reg")]) scols.
Let rcols := "code_reg" :: "name_reg" :: count_labels.
Let keys := group_keys "code_reg" df.

Let results : IndexedFrame :=
  {| index_name := "code_reg";
     index := keys;
     body := {| columns := "name_reg" :: count_labels;
                rows := map (region_row df) keys |} |}.

Let right_rows := map (fun k => k :: region_row df k) keys.

Let tail (s : list value) : list value :=
  match matches "code_reg" gcols rcols right_rows s with
  | [] => repeat NA (length (drop_label "code_reg" rcols))
  | m :: _ => drop_cells "code_reg" rcols m
  end.

Let merged : DataFrame :=
  {| columns := gcols ++ "name_reg" :: count_labels;
     rows := map (fun s => s ++ tail s) (rows shapes) |}.

Lemma map_results : compute_referendum_result_by_regions df = Ok results.
Proof. now apply compute_on_small_area_table. Qed.

(** The votes of a region are small when those of the table are. *)
Lemma group_votes_small (k : value) :
  Z.abs (column_total "Choice A" (columns df) (group_of "code_reg" df k))
  + Z.abs (column_total "Choice B" (columns df) (group_of "code_reg" df k)) < 2 ^ 53.
Proof.
  pose proof (column_total_abs_le "Choice A" (columns df) (group_of "code_reg" df k)).
  pose proof (column_total_abs_le "Choice B" (columns df) (group_of "code_reg" df k)).
  pose proof (column_abs_total_filter_le "Choice A" (columns df)
                (fun r => value_eqb (cell "code_reg" (columns df) r) k) (rows df)) as LA.
  pose proof (column_abs_total_filter_le "Choice B" (columns df)
                (fun r => value_eqb (cell "code_reg" (columns df) r) k) (rows df)) as LB.
  fold (group_of "code_reg" df k) in LA, LB. unfold small_votes in Hvotes. lia.
Qed.

Lemma map_reset_index :
  reset_index results = Ok {| columns := rcols; rows := right_rows |}.
Proof.
  unfold reset_index. cbn [results index_name body columns rows index has_label].
  change (existsb (String.eqb "code_reg") ("name_reg" :: count_labels)) with false.
  cbv iota. unfold right_rows. now rewrite map_combine_map.
Qed.

Lemma shape_labels (c : label) :
  In c gcols -> c = "code_reg" \/ (In c scols /\ c <> "code").
Proof.
  intros H. apply in_map_iff in H as (c0 & E & Hc0). rewrite rename_code_cases in E.
  destruct (String.eqb_spec c0 "code"); [now left | right; subst; auto].
Qed.

Lemma shape_key_label (c : label) :
  In c scols ->
  String.eqb "code_reg" (rename_label [("code", "code_reg")] c) = String.eqb "code" c.
Proof.
  intros Hc. rewrite rename_code_cases.
  destruct (String.eqb_spec c "code") as [->|Hn]; [reflexivity|].
  transitivity false; [|symmetry]; apply String.eqb_neq; [|congruence].
  intros <-. destruct HS as (_ & _ & _ & Hd). apply (Hd "code_reg" Hc). now left.
Qed.

Lemma shape_key_cell (s : list value) :
  cell "code_reg" gcols s = cell "code" scols s.
Proof.
  unfold cell. f_equal. apply cells_map_labels. exact shape_key_label.
Qed.

Lemma shape_count_key : count "code_reg" gcols = 1%nat.
Proof.
  destruct HS as ((N & _) & I & _).
  unfold gcols. rewrite (count_map "code_reg" "code").
  - now apply count_one.
  - exact shape_key_label.
Qed.

Lemma shape_count_other (l : label) :
  In l ("name_reg" :: count_labels) -> count l gcols = 0%nat.
Proof.
  intros Hl. apply count_zero. intros Hin.
  destruct HS as (_ & _ & _ & Hd).
  apply shape_labels in Hin as [->|[Hin _]].
  - unfold count_labels in Hl. simpl in Hl. intuition discriminate.
  - apply (Hd l Hin). now right.
Qed.

Lemma shape_row_length (s : list value) :
  In s (rows shapes) -> length s = length gcols.
Proof.
  intros H. destruct HS as ((_ & R) & _). unfold gcols. rewrite length_map.
  now apply (proj1 (Forall_forall _ _) R).
Qed.

Lemma map_keys_unique : NoDup (map (cell "code_reg" rcols) right_rows).
Proof.
  unfold right_rows. rewrite map_map.
  rewrite (map_ext _ (fun k => k)) by reflexivity. rewrite map_id.
  apply sorted_NoDup, sort_unique_sorted.
Qed.

Lemma map_merge :
  merge_left (rename shapes [("code", "code_reg")])
             {| columns := rcols; rows := right_rows |} "code_reg"
  = Ok merged.
Proof.
  rewrite merge_left_disjoint.
  - cbn [columns rows rename]. unfold merged. f_equal. f_equal.
    apply flat_map_singleton. intros s. apply join_row_unique. exact map_keys_unique.
  - exact shape_count_key.
  - reflexivity.
  - cbn [columns rename]. intros c Hc Hne Hin.
    apply shape_labels in Hc as [->|[Hc _]]; [congruence|].
    destruct HS as (_ & _ & _ & Hd). now apply (Hd c).
Qed.

Lemma map_tail (s : list value) :
  (matches "code_reg" gcols rcols right_rows s = [] /\ tail s = repeat NA 6) \/
  exists k, In k keys /\ k = cell "code" scols s /\ tail s = region_row df k.
Proof.
  unfold tail. destruct (matches "code_reg" gcols rcols right_rows s) as [|m ms] eqn:E.
  - now left.
  - right. assert (Hm : In m (matches "code_reg" gcols rcols right_rows s))
      by (rewrite E; now left).
    apply filter_In in Hm as [Hm He]. apply value_eqb_eq in He.
    apply in_map_iff in Hm as (k & <- & Hk). exists k.
    rewrite shape_key_cell in He. repeat split; [assumption | now symmetry].
Qed.

Lemma map_tail_unmatched (s : list value) :
  (forall r, In r (rows df) -> cell "code_reg" (columns df) r <> cell "code" scols s) ->
  tail s = repeat NA 6.
Proof.
  intros H. destruct (map_tail s) as [[_ E]|(k & Hk & Ek & _)]; [assumption|].
  apply group_keys_In in Hk as (_ & r & Hr & Er). exfalso.
  apply (H r Hr). congruence.
Qed.

Lemma map_tail_matched (s : list value) :
  (exists r, In r (rows df) /\ cell "code_reg" (columns df) r = cell "code" scols s) ->
  tail s = region_row df (cell "code" scols s).
Proof.
  intros (r & Hr & Er).
  destruct (map_tail s) as [[E _]|(k & _ & -> & E)]; [|assumption].
  exfalso.
  assert (Hk : In (cell "code" scols s) keys).
  { apply group_keys_In. split; [|eauto]. rewrite <- Er.
    apply (area_table_cell_notna df Hdf); [simpl; tauto | assumption]. }
  assert (Hm : In (cell "code" scols s :: region_row df (cell "code" scols s))
                  (matches "code_reg" gcols rcols right_rows s)).
  { apply filter_In. split.
    - unfold right_rows. apply in_map_iff. eauto.
    - rewrite shape_key_cell. apply value_eqb_refl. }
  rewrite E in Hm. destruct Hm.
Qed.

Lemma map_count_cells (l : label) (s : list value) :
  In s (rows shapes) -> In l count_labels ->
  cell l (columns merged) (s ++ tail s) = cell l ("name_reg" :: count_labels) (tail s).
Proof.
  intros Hs Hl. cbn [merged columns]. apply cell_app_r.
  - symmetry. now apply shape_row_length.
  - apply count_zero, shape_count_other. now right.
Qed.

Lemma map_cells_numeric (l : label) (s : list value) :
  In s (rows shapes) -> In l count_labels ->
  numeric (cell l (columns merged) (s ++ tail s)).
Proof.
  intros Hs Hl. rewrite map_count_cells by assumption.
  destruct (map_tail s) as [[_ ->]|(k & _ & _ & ->)].
  - left. unfold count_labels in Hl. simpl in Hl.
    destruct Hl as [<-|[<-|[<-|[<-|[<-|[]]]]]]; reflexivity.
  - right. rewrite (region_row_cell df) by assumption. eauto.
Qed.

Lemma map_ratio_total : exists qs, ratio_column merged = Ok qs.
Proof.
  apply ratio_column_total.
  - cbn [merged columns]. rewrite count_app, shape_count_other by (simpl; tauto).
    reflexivity.
  - cbn [merged columns]. rewrite count_app, shape_count_other by (simpl; tauto).
    reflexivity.
  - intros r Hr. cbn [merged rows] in Hr. apply in_map_iff in Hr as (s & <- & Hs).
    split; apply map_cells_numeric; try assumption; simpl; tauto.
Qed.

Lemma map_ratio_rows (qs : list float) :
  ratio_column merged = Ok qs ->
  Forall2 (fun s q =>
             ((forall r, In r (rows df) ->
                         cell "code_reg" (columns df) r <> cell "code" scols s) ->
              q = PrimFloat.nan) /\
             ((exists r, In r (rows df) /\
                         cell "code_reg" (columns df) r = cell "code" scols s) ->
              region_ratio df (cell "code" scols s) q))
          (rows shapes) qs.
Proof.
  intros H. apply ratio_column_Ok in H. cbn [merged rows] in H.
  assert (G : forall ss qs,
             (forall s, In s ss -> In s (rows shapes)) ->
             Forall2 (fun r q => ratio_cell (cell "Choice A" (columns merged) r)
                                            (cell "Choice B" (columns merged) r) = Ok q)
                     (map (fun s => s ++ tail s) ss) qs ->
             Forall2 (fun s q =>
                        ((forall r, In r (rows df) ->
                            cell "code_reg" (columns df) r <> cell "code" scols s) ->
                         q = PrimFloat.nan) /\
                        ((exists r, In r (rows df) /\
                            cell "code_reg" (columns df) r = cell "code" scols s) ->
                         region_ratio df (cell "code" scols s) q)) ss qs).
  { clear H qs. induction ss as [|s ss IH]; intros qs Hin F.
    - inversion F. constructor.
    - cbn [map] in F. inversion F as [|r q rs qs' Hq F' E1 E2]; subst.
      constructor.
      + rewrite !map_count_cells in Hq by (try (apply Hin; now left); simpl; tauto).
        split.
        * intros Hun. rewrite (map_tail_unmatched s Hun) in Hq.
          cbv in Hq. now injection Hq as <-.
        * intros Hm. rewrite (map_tail_matched s Hm) in Hq.
          rewrite !(region_row_cell df) in Hq by (simpl; tauto).
          pose proof (group_votes_small (cell "code" scols s)) as Hv.
          rewrite ratio_cell_ints in Hq by exact Hv.
          injection Hq as <-. unfold region_ratio. cbv zeta.
          apply float_quotient_small; lia.
      + apply IH; [|assumption]. intros s' Hs'. apply Hin. now right. }
  apply G; [auto | exact H].
Qed.

Lemma map_rows_shapes :
  map (firstn (length scols)) (rows merged) = rows shapes.
Proof.
  cbn [merged rows]. rewrite map_map.
  destruct HS as ((_ & R) & _).
  rewrite <- (map_id (rows shapes)) at 2. apply map_ext_in. intros s Hs.
  assert (L : length s = length scols) by now apply (proj1 (Forall_forall _ _) R).
  rewrite firstn_app, <- L, firstn_all, Nat.sub_diag. cbn [firstn].
  apply app_nil_r.
Qed.

End Map.

(** X12.  The map drawn from the result of the aggregation.  Given
    the table of shapes (distinct labels, a text column [code], no label
    of the result) and the result computed from a joined table whose
    region codes are texts and whose counts are small (the absolute
    values of each count column, and those of the two choices
    together, add up to less than [2^53]), [plot_referendum_map]
    raises nothing and its table has exactly one row per shape, in the
    order of the shapes: the shape's own cells come first, unchanged,
    followed by the columns of the result.  A shape whose code is the
    region code of no row of the joined table gets the ratio [nan]; any
    other shape gets the ratio of its own region: the binary64 quotient
    of the region's votes for choice A and its votes for either
    choice. *)
Theorem map_has_one_row_per_shape (shapes df : DataFrame) :
  shape_table shapes -> referendum_area_table df -> text_column "code_reg" df ->
  small_counts df -> small_votes df ->
  exists results out,
    compute_referendum_result_by_regions df = Ok results /\
    plot_referendum_map shapes results = Ok out /\
    columns (frame out)
    = columns (rename shapes [("code", "code_reg")]) ++ "name_reg" :: count_labels /\
    map (firstn (length (columns shapes))) (rows (frame out)) = rows shapes /\
    length (ratio out) = length (rows shapes) /\
    Forall2 (fun s q =>
               ((forall r, In r (rows df) ->
                   cell "code_reg" (columns df) r <> cell "code" (columns shapes) s) ->
                q = PrimFloat.nan) /\
               ((exists r, In r (rows df) /\
                   cell "code_reg" (columns df) r = cell "code" (columns shapes) s) ->
                region_ratio df (cell "code" (columns shapes) s) q))
            (rows shapes) (ratio out).
Proof.
  intros HS Hdf _ Hs Hv.
  destruct (map_ratio_total shapes df HS) as (qs & Hq).
  do 2 eexists. split; [now apply map_results|].
  unfold plot_referendum_map. rewrite map_reset_index. cbn [bind].
  rewrite (map_merge shapes df HS). cbn [bind]. rewrite Hq. cbn [bind].
  split; [reflexivity|]. cbn [frame ratio].
  split; [reflexivity|].
  split; [now apply map_rows_shapes|].
  pose proof (map_ratio_rows shapes df HS Hdf Hv qs Hq) as F.
  split; [|exact F].
  symmetry. exact (Forall2_length F).
Qed.

Lemma shape_table_sample : shape_table sample_shapes.
Proof.
  split; [split|split; [|split]].
  - repeat constructor; simpl; intuition discriminate.
  - repeat constructor.
  - simpl. tauto.
  - intros r H. each_row H.
  - intros c Hc Hin. unfold count_labels in Hin. simpl in Hc, Hin.
    repeat (destruct Hc as [<-|Hc]; [intuition discriminate|]). contradiction.
Qed.

Lemma region_codes_sample : text_column "code_reg" sample_joined.
Proof. intros r H. each_row H. Qed.

Lemma small_votes_sample : small_votes sample_joined.
Proof. reflexivity. Qed.

Lemma map_has_one_row_per_shape_witness :
  small_counts sample_joined /\ small_votes sample_joined /\
  compute_referendum_result_by_regions sample_joined = Ok sample_result /\
  plot_referendum_map sample_shapes sample_result = Ok sample_result_map /\
  exists results out,
    compute_referendum_result_by_regions sample_joined = Ok results /\
    plot_referendum_map sample_shapes results = Ok out /\
    columns (frame out)
    = columns (rename sample_shapes [("code", "code_reg")])
      ++ "name_reg" :: count_labels /\
    map (firstn (length (columns sample_shapes))) (rows (frame out))
    = rows sample_shapes /\
    length (ratio out) = length (rows sample_shapes) /\
    Forall2 (fun s q =>
               ((forall r, In r (rows sample_joined) ->
                   cell "code_reg" (columns sample_joined) r
                   <> cell "code" (columns sample_shapes) s) ->
                q = PrimFloat.nan) /\
               ((exists r, In r (rows sample_joined) /\
                   cell "code_reg" (columns sample_joined) r
                   = cell "code" (columns sample_shapes) s) ->
                region_ratio sample_joined (cell "code" (columns sample_shapes) s) q))
            (rows sample_shapes) (ratio out).
Proof.
  split; [exact small_counts_sample|]. split; [exact small_votes_sample|].
  split; [reflexivity|]. split; [reflexivity|].
  exact (map_has_one_row_per_shape sample_shapes sample_joined shape_table_sample
           referendum_area_table_sample region_codes_sample
           small_counts_sample small_votes_sample).
Defined.

(** ** Tables whose columns carry the new names already *)

Lemma rename_label_twice (mapping : list (label * label)) (c : label) :
  (forall k v, In (k, v) mapping -> lookup_label v mapping = None) ->
  rename_label mapping (rename_label mapping c) = rename_label mapping c.
Proof.
  intros H. unfold rename_label at 2.
  destruct (lookup_label c mapping) as [v|] eqn:E.
  - assert (Hin : exists k, In (k, v) mapping).
    { clear H. induction mapping as [|[k w] m IH]; [discriminate|].
      cbn [lookup_label] in E. destruct (String.eqb c k).
      - injection E as ->. exists k. now left.
      - destruct (IH E) as (k' & Hk'). exists k'. now right. }
    destruct Hin as (k & Hin). unfold rename_label. now rewrite (H k v Hin), E.
  - unfold rename_label. now rewrite E.
Qed.

Lemma rename_twice (df : DataFrame) (mapping : list (label * label)) :
  (forall k v, In (k, v) mapping -> lookup_label v mapping = None) ->
  rename (rename df mapping) mapping = rename df mapping.
Proof.
  intros H. unfold rename. cbn [columns rows]. f_equal.
  rewrite map_map. apply map_ext. intros c. now apply rename_label_twice.
Qed.

(** X13.  The two tables may carry the new labels already: renaming
    leaves a label alone when it is not one of the old names, and no
    new name is an old name, so that [merge_regions_and_departments]
    returns on the renamed tables what it returns on the tables as
    they are read from the files, table or exception. *)
Theorem merger_accepts_renamed_tables (regions departments : DataFrame) :
  merge_regions_and_departments
    (rename regions [("code", "code_reg"); ("name", "name_reg")])
    (rename departments
            [("region_code", "code_reg"); ("code", "code_dep"); ("name", "name_dep")])
  = merge_regions_and_departments regions departments.
Proof.
  unfold merge_regions_and_departments.
  rewrite !rename_twice; [reflexivity | |];
    intros k v Hin; simpl in Hin;
    repeat (destruct Hin as [E|Hin]; [injection E as <- <-; reflexivity|]);
    contradiction.
Qed.

(** ** Objects and mutation *)

Local Open Scope nat_scope.

Lemma store_load_old (s ext : Store.store) (r : Store.ref) (df : DataFrame) :
  nth_error s r = Some (Store.Frame df) ->
  Store.load r (s ++ ext) = (Ok df, s ++ ext).
Proof.
  intros H. unfold Store.load. rewrite nth_error_app1.
  - now rewrite H.
  - apply nth_error_Some. congruence.
Qed.

Lemma store_load_new (s ext : Store.store) (k : nat) :
  Store.load (length s + k) (s ++ ext)
  = match nth_error ext k with
    | Some (Store.Frame df) => (Ok df, s ++ ext)
    | _ => (Raise TypeError, s ++ ext)
    end.
Proof.
  unfold Store.load. rewrite nth_error_app2 by lia.
  now replace (length s + k - length s)%nat with k by lia.
Qed.

Lemma store_load_indexed_new (s ext : Store.store) (k : nat) :
  Store.load_indexed (length s + k) (s ++ ext)
  = match nth_error ext k with
    | Some (Store.Indexed f) => (Ok f, s ++ ext)
    | _ => (Raise TypeError, s ++ ext)
    end.
Proof.
  unfold Store.load_indexed. rewrite nth_error_app2 by lia.
  now replace (length s + k - length s)%nat with k by lia.
Qed.

Lemma store_new (s ext : Store.store) (o : Store.object) :
  Store.new o (s ++ ext) = (Ok (length s + length ext)%nat, s ++ (ext ++ [o])).
Proof. unfold Store.new. now rewrite length_app, app_assoc. Qed.

Lemma store_update_new (s ext : Store.store) (k : nat) (o : Store.object) :
  Store.update (length s + k) o (s ++ ext) = s ++ Store.update k o ext.
Proof.
  induction s as [|x s IH]; simpl; [reflexivity|]. now rewrite IH.
Qed.

Lemma store_assign_new (s ext : Store.store) (k : nat) (df : DataFrame) :
  Store.assign (length s + k) df (s ++ ext)
  = (Ok tt, s ++ Store.update k (Store.Frame df) ext).
Proof. unfold Store.assign. now rewrite store_update_new. Qed.

Lemma store_bind_assoc (A B C : Type) (m : Store.M A) (f : A -> Store.M B)
      (g : B -> Store.M C) (t : Store.store) :
  Store.bind (Store.bind m f) g t = Store.bind m (fun a => Store.bind (f a) g) t.
Proof. unfold Store.bind. destruct (m t) as [[a|e] t']; reflexivity. Qed.

Lemma store_bind_load_old (B : Type) (k : DataFrame -> Store.M B)
      (s ext : Store.store) (r : Store.ref) (df : DataFrame) :
  nth_error s r = Some (Store.Frame df) ->
  Store.bind (Store.load r) k (s ++ ext) = k df (s ++ ext).
Proof. intros H. unfold Store.bind. now rewrite (store_load_old s ext r df H). Qed.

Lemma store_bind_load_new (B : Type) (k : DataFrame -> Store.M B)
      (s ext : Store.store) (n : nat) (df : DataFrame) :
  nth_error ext n = Some (Store.Frame df) ->
  Store.bind (Store.load (length s + n)) k (s ++ ext) = k df (s ++ ext).
Proof. intros H. unfold Store.bind. now rewrite store_load_new, H. Qed.

Lemma store_bind_load_indexed_new (B : Type) (k : IndexedFrame -> Store.M B)
      (s ext : Store.store) (n : nat) (f : IndexedFrame) :
  nth_error ext n = Some (Store.Indexed f) ->
  Store.bind (Store.load_indexed (length s + n)) k (s ++ ext) = k f (s ++ ext).
Proof. intros H. unfold Store.bind. now rewrite store_load_indexed_new, H. Qed.

Lemma store_bind_new (B : Type) (k : Store.ref -> Store.M B)
      (s ext : Store.store) (o : Store.object) :
  Store.bind (Store.new o) k (s ++ ext)
  = k (length s + length ext)%nat (s ++ (ext ++ [o])).
Proof. unfold Store.bind. now rewrite store_new. Qed.

Lemma store_bind_assign_new (B : Type) (k : unit -> Store.M B)
      (s ext : Store.store) (n : nat) (df : DataFrame) :
  Store.bind (Store.assign (length s + n) df) k (s ++ ext)
  = k tt (s ++ Store.update n (Store.Frame df) ext).
Proof. unfold Store.bind. now rewrite store_assign_new. Qed.

Lemma store_bind_lift (A B : Type) (x : result A) (k : A -> Store.M B)
      (t : Store.store) :
  Store.bind (Store.lift x) k t
  = match x with Ok a => k a t | Raise e => (Raise e, t) end.
Proof. unfold Store.bind, Store.lift. now destruct x. Qed.

Ltac store_run :=
  repeat first
    [ rewrite store_bind_assoc
    | rewrite store_bind_new
    | rewrite store_bind_assign_new
    | rewrite store_bind_lift
    | erewrite store_bind_load_old by eassumption
    | erewrite store_bind_load_new by reflexivity
    | erewrite store_bind_load_indexed_new by reflexivity
    | progress cbn [length app Nat.add Store.update Store.ret] ].

Ltac store_case :=
  match goal with
  | |- context [match ?x with Ok _ => _ | Raise _ => _ end] =>
      destruct x eqn:?; cbn [bind frame_result indexed_result]
  end.

Ltac store_raise :=
  unfold agrees; cbn [bind frame_result indexed_result];
  eexists; eexists; split; [reflexivity | reflexivity].

Ltac store_return k :=
  unfold agrees, Store.ret;
  eexists; eexists; split; [reflexivity|];
  eexists; split; [reflexivity|]; split; [lia|];
  rewrite nth_error_app2 by lia;
  replace (length _ + k - length _)%nat with k by lia;
  reflexivity.

Lemma store_joiner_run (s : Store.store) (referendum areas : Store.ref)
      (dfR dfA : DataFrame) :
  nth_error s referendum = Some (Store.Frame dfR) ->
  nth_error s areas = Some (Store.Frame dfA) ->
  agrees s (frame_result (merge_referendum_and_areas dfR dfA))
         (Store.merge_referendum_and_areas referendum areas (s ++ [])).
Proof.
  intros HR HA.
  unfold Store.merge_referendum_and_areas, merge_referendum_and_areas,
    referendum_filtered, with_code_dep.
  unfold Store.getitem, Store.getitem_mask, Store.copy, Store.setitem, Store.merge,
    Store.dropna.
  do 5 (store_run; store_case; [|store_raise]).
  store_run. store_return 3%nat.
Qed.

Lemma store_merger_run (s : Store.store) (regions departments : Store.ref)
      (dfR dfD : DataFrame) :
  nth_error s regions = Some (Store.Frame dfR) ->
  nth_error s departments = Some (Store.Frame dfD) ->
  agrees s (frame_result (merge_regions_and_departments dfR dfD))
         (Store.merge_regions_and_departments regions departments (s ++ [])).
Proof.
  intros HR HD.
  unfold Store.merge_regions_and_departments, merge_regions_and_departments.
  unfold Store.rename, Store.merge, Store.getitem_list.
  do 2 (store_run; store_case; [|store_raise]).
  store_run. store_return 3%nat.
Qed.

Lemma store_aggregator_run (s : Store.store) (areas : Store.ref) (df : DataFrame) :
  nth_error s areas = Some (Store.Frame df) ->
  agrees s (indexed_result (compute_referendum_result_by_regions df))
         (Store.compute_referendum_result_by_regions areas (s ++ [])).
Proof.
  intros HA.
  unfold Store.compute_referendum_result_by_regions,
    compute_referendum_result_by_regions.
  unfold Store.groupby_agg, Store.reset_index, Store.set_index.
  do 3 (store_run; store_case; [|store_raise]).
  store_run. store_return 2%nat.
Qed.

Lemma agrees_keeps_objects (s : Store.store) (x : result Store.object)
      (run : result Store.ref * Store.store) :
  agrees s x run ->
  forall r o, nth_error s r = Some o -> nth_error (snd run) r = Some o.
Proof.
  intros (res & ext & -> & _) r o H. cbn [snd]. rewrite nth_error_app1; [assumption|].
  apply nth_error_Some. congruence.
Qed.

(** C9.  Run on frames that are objects of a store, each of the three
    steps leaves every object that was in the store as it was, its
    input tables among them: it only adds objects.  The table it
    returns is a new object, and it is the table that the step
    computes as a function of the input tables (or the same
    exception is raised). *)
Theorem steps_leave_their_inputs_unchanged
        (s : Store.store) (regions departments referendum areas joined : Store.ref)
        (dfG dfD dfR dfA dfJ : DataFrame) :
  nth_error s regions = Some (Store.Frame dfG) ->
  nth_error s departments = Some (Store.Frame dfD) ->
  nth_error s referendum = Some (Store.Frame dfR) ->
  nth_error s areas = Some (Store.Frame dfA) ->
  nth_error s joined = Some (Store.Frame dfJ) ->
  agrees s (frame_result (merge_regions_and_departments dfG dfD))
         (Store.merge_regions_and_departments regions departments s) /\
  agrees s (frame_result (merge_referendum_and_areas dfR dfA))
         (Store.merge_referendum_and_areas referendum areas s) /\
  agrees s (indexed_result (compute_referendum_result_by_regions dfJ))
         (Store.compute_referendum_result_by_regions joined s) /\
  (forall x run, agrees s x run ->
     forall r o, nth_error s r = Some o -> nth_error (snd run) r = Some o).
Proof.
  intros HG HD HR HA HJ.
  pose proof (store_merger_run s regions departments dfG dfD HG HD) as H1.
  pose proof (store_joiner_run s referendum areas dfR dfA HR HA) as H2.
  pose proof (store_aggregator_run s joined dfJ HJ) as H3.
  rewrite app_nil_r in H1, H2, H3.
  repeat split; try assumption. apply agrees_keeps_objects.
Qed.

Lemma steps_leave_their_inputs_unchanged_witness :
  let s := [Store.Frame sample_regions; Store.Frame sample_departments;
            Store.Frame sample_referendum; Store.Frame sample_areas;
            Store.Frame sample_joined] in
  Store.merge_referendum_and_areas 2%nat 3%nat s
  = (Ok 8%nat,
     s ++ [Store.Frame {| columns := columns sample_referendum;
                          rows := filter (keeps (columns sample_referendum))
                                         (rows sample_referendum) |};
           Store.Frame {| columns := derived_columns (columns sample_referendum);
                          rows := map (derive_row (columns sample_referendum))
                                      (filter (keeps (columns sample_referendum))
                                              (rows sample_referendum)) |};
           Store.Frame {| columns := columns sample_joined;
                          rows := flat_map
                                    (join_row "code_dep"
                                       (derived_columns (columns sample_referendum))
                                       (columns sample_areas) (rows sample_areas))
                                    (map (derive_row (columns sample_referendum))
                                         (filter (keeps (columns sample_referendum))
                                                 (rows sample_referendum))) |};
           Store.Frame sample_joined]) /\
  agrees s (frame_result (merge_regions_and_departments sample_regions sample_departments))
         (Store.merge_regions_and_departments 0%nat 1%nat s) /\
  agrees s (frame_result (merge_referendum_and_areas sample_referendum sample_areas))
         (Store.merge_referendum_and_areas 2%nat 3%nat s) /\
  agrees s (indexed_result (compute_referendum_result_by_regions sample_joined))
         (Store.compute_referendum_result_by_regions 4%nat s) /\
  (forall x run, agrees s x run ->
     forall r o, nth_error s r = Some o -> nth_error (snd run) r = Some o).
Proof.
  cbv zeta. split; [reflexivity|].
  exact (steps_leave_their_inputs_unchanged
           [Store.Frame sample_regions; Store.Frame sample_departments;
            Store.Frame sample_referendum; Store.Frame sample_areas;
            Store.Frame sample_joined]
           0%nat 1%nat 2%nat 3%nat 4%nat
           sample_regions sample_departments sample_referendum sample_areas
           sample_joined eq_refl eq_refl eq_refl eq_refl eq_refl).
Defined.

(** ** The script on objects *)

Lemma agrees_Ok (s : Store.store) (o : Store.object)
      (run : result Store.ref * Store.store) :
  agrees s (Ok o) run ->
  exists n ext, run = (Ok n, s ++ ext) /\ length s <= n /\
                nth_error (s ++ ext) n = Some o.
Proof.
  intros (r & ext & -> & n & -> & Hn & Ho). eauto.
Qed.

Lemma agrees_Raise (s : Store.store) (e : error)
      (run : result Store.ref * Store.store) :
  agrees s (Raise e) run -> exists ext, run = (Raise e, s ++ ext).
Proof.
  intros (r & ext & -> & ->). eauto.
Qed.

(** X14.  The script run on objects of a store.  Started with the
    three loaded tables in the store, the three steps run one after
    the other leave every object that was in the store as it was, the
    three tables among them, and only add objects; the reference
    returned names a new object, which holds the result that the
    script computes as a function of the three tables (or the same
    exception is raised). *)
Theorem script_leaves_loaded_tables_unchanged
        (s : Store.store) (referendum df_reg df_dep : Store.ref)
        (dfR dfG dfD : DataFrame) :
  nth_error s referendum = Some (Store.Frame dfR) ->
  nth_error s df_reg = Some (Store.Frame dfG) ->
  nth_error s df_dep = Some (Store.Frame dfD) ->
  agrees s (indexed_result (referendum_results dfR dfG dfD))
         (referendum_results_run referendum df_reg df_dep s) /\
  forall r o, nth_error s r = Some o ->
              nth_error (snd (referendum_results_run referendum df_reg df_dep s)) r
              = Some o.
Proof.
  intros HR HG HD.
  assert (A : agrees s (indexed_result (referendum_results dfR dfG dfD))
                     (referendum_results_run referendum df_reg df_dep s)).
  { unfold referendum_results_run, referendum_results, Store.bind.
    pose proof (store_merger_run s df_reg df_dep dfG dfD HG HD) as H1.
    rewrite app_nil_r in H1.
    destruct (merge_regions_and_departments dfG dfD) as [areas|e]; cbn [bind].
    - apply agrees_Ok in H1 as (n1 & e1 & -> & L1 & N1).
      assert (HR1 : nth_error (s ++ e1) referendum = Some (Store.Frame dfR)).
      { rewrite nth_error_app1; [assumption|]. apply nth_error_Some. congruence. }
      pose proof (store_joiner_run (s ++ e1) referendum n1 dfR areas HR1 N1) as H2.
      rewrite app_nil_r in H2.
      destruct (merge_referendum_and_areas dfR areas) as [joined|e]; cbn [bind].
      + apply agrees_Ok in H2 as (n2 & e2 & -> & L2 & N2).
        pose proof (store_aggregator_run ((s ++ e1) ++ e2) n2 joined N2) as H3.
        rewrite app_nil_r in H3.
        destruct (compute_referendum_result_by_regions joined) as [out|e].
        * apply agrees_Ok in H3 as (n3 & e3 & -> & L3 & N3).
          exists (Ok n3), (e1 ++ e2 ++ e3). rewrite !app_assoc.
          split; [reflexivity|]. exists n3. split; [reflexivity|].
          split; [|assumption]. rewrite !length_app in L3. lia.
        * apply agrees_Raise in H3 as (e3 & ->).
          exists (Raise e), (e1 ++ e2 ++ e3). rewrite !app_assoc. now split.
      + apply agrees_Raise in H2 as (e2 & ->).
        exists (Raise e), (e1 ++ e2). rewrite !app_assoc. now split.
    - apply agrees_Raise in H1 as (e1 & ->).
      exists (Raise e), e1. now split. }
  split; [exact A|]. now apply (agrees_keeps_objects _ _ _ A).
Qed.

Lemma script_leaves_loaded_tables_unchanged_witness :
  let s := [Store.Frame sample_referendum; Store.Frame sample_regions;
            Store.Frame sample_departments] in
  fst (referendum_results_run 0 1 2 s) = Ok 13 /\
  nth_error (snd (referendum_results_run 0 1 2 s)) 13 = Some (Store.Indexed sample_result) /\
  agrees s (indexed_result
              (referendum_results sample_referendum sample_regions sample_departments))
         (referendum_results_run 0 1 2 s) /\
  forall r o, nth_error s r = Some o ->
              nth_error (snd (referendum_results_run 0 1 2 s)) r = Some o.
Proof.
  cbv zeta. split; [reflexivity|]. split; [reflexivity|].
  exact (script_leaves_loaded_tables_unchanged
           [Store.Frame sample_referendum; Store.Frame sample_regions;
            Store.Frame sample_departments]
           0 1 2 sample_referendum sample_regions sample_departments
           eq_refl eq_refl eq_refl).
Defined.
